(** * Scene helpers of threejs-tinkerspace (src/functions.js)

    A shallow embedding of the module [functions.js]: its six scene
    helpers ([setBackground], [setResponsive], [renderText],
    [renderShape], [renderBox], [renderGltfModel]), the shared
    [animationList], its initialiser with the loading-manager callbacks,
    and [isSupported].

    - JavaScript numbers are IEEE 754 doubles: [float] of [PrimFloat].
    - JavaScript values are dynamically typed: the inductive [Value].
      An option the source inspects ([typeof], [instanceof], [===],
      [Array.isArray]) and a colour, which three.js takes in several
      types, is a [Value]; a number or string the source only forwards to
      three.js or multiplies is typed as its JSDoc says.
    - Objects live in a heap ([list HostObject]) and are passed by
      reference ([Ref]), so that the scene a caller hands in, the mesh put
      in the registry and the mesh added to the scene are the same object.
    - three.js constructors are recorded as data (which constructor, which
      arguments); the few library results the source computes with, and
      what a renderer does to the canvas it draws into when it is sized,
      are the members of the class [Host].
    - An exported function is called with or without an options object
      ([callExported], [callAsync]); without one its parameter list
      throws.
    - Loader callbacks and event handlers are closures of the source; they
      are the constructors of [OnLoad] and [Handler], run by [runOnLoad]
      and [runHandler] when the environment delivers an [Event]. *)

From Stdlib Require Import ZArith List String Bool Lia Floats.
From stdpp Require Import base option list strings gmap pretty.
Import ListNotations.

Set Warnings "-register-all".
Local Open Scope float_scope.

(** ** JavaScript values *)

(** A reference to a heap object. *)
Abbreviation Ref := nat (only parsing).

(** THREE.Shape: the path a draw callback builds. *)
Inductive PathCommand :=
| MoveTo (x y : float)
| LineTo (x y : float)
| QuadraticCurveTo (cx cy x y : float)
| ClosePath.

Definition Shape := list PathCommand.

(** CSS lengths the source writes into [canvas.style]. *)
Inductive CssLength :=
| CssUnset
| CssPx (n : float)          (* n + "px" *)
| CssText (s : string).

(** An HTMLElement, as far as the source reads and writes it. *)
Record HTMLElement := mkElement {
  style_width : CssLength;
  style_height : CssLength;
  clientWidth : float;
  clientHeight : float;
  width : float;
  height : float
}.

Record Window := mkWindow {
  prefersDark : bool;           (* matchMedia("(prefers-color-scheme: dark)").matches *)
  innerWidth : float;
  innerHeight : float;
  devicePixelRatio : float
}.

(** A function object: its identity and what it does to the argument it is
    called with. The module calls a function only as a draw callback (on a
    fresh [Shape]) or as a resize policy (on the canvas); animation
    callbacks are stored and never called here. *)
Record Function := mkFunction {
  fn_id : nat;
  fn_draw : Shape -> Shape;
  fn_canvas : Window -> HTMLElement -> HTMLElement
}.

Inductive Value :=
| VUndefined
| VNull
| VBoolean (b : bool)
| VNumber (x : float)
| VString (s : string)
| VFunction (f : Function)
| VArray (xs : list Value)
| VObject (r : Ref).

Inductive JsType :=
| TUndefined | TObject | TBoolean | TNumber | TString | TFunction.

Definition typeof (v : Value) : JsType :=
  match v with
  | VUndefined => TUndefined
  | VNull => TObject
  | VBoolean _ => TBoolean
  | VNumber _ => TNumber
  | VString _ => TString
  | VFunction _ => TFunction
  | VArray _ => TObject
  | VObject _ => TObject
  end.

(** [typeof v !== "undefined"] *)
Definition defined (v : Value) : bool :=
  match typeof v with TUndefined => false | _ => true end.

(** A destructuring default [{ x = d }]: used when the property is
    [undefined]. *)
Definition orDefault (d v : Value) : Value :=
  match v with VUndefined => d | _ => v end.

Definition PI : float := 0x1.921fb54442d18p+1.   (* Math.PI *)

(** ** three.js objects, as the source constructs them *)

Record Vector3 := mkVector3 { vx : float; vy : float; vz : float }.
Record Box3 := mkBox3 { box_min : Vector3; box_max : Vector3 }.

Inductive Mapping := EquirectangularReflectionMapping.
Inductive ColorSpace := SRGBColorSpace.
Inductive Side := DoubleSide.

Record Texture := mkTexture {
  source : Value;                     (* the URL handed to the loader *)
  mapping : option Mapping;
  colorSpace : option ColorSpace
}.

Inductive Material :=
| MeshBasicMaterial (map : option Texture) (color : option Value) (side : option Side)
| MeshPhongMaterial (flatShading : option bool) (color : Value)
| LineBasicMaterial (color : Value).

Inductive Materials :=
| OneMaterial (m : Material)
| MaterialArray (ms : list Material).

Definition Font := nat.

Record TextParameters := mkTextParameters {
  tp_font : Font;
  tp_size : float;
  tp_depth : float;
  tp_curveSegments : float;
  tp_bevelEnabled : bool;
  tp_bevelThickness : float;
  tp_bevelSize : float;
  tp_bevelOffset : float;
  tp_bevelSegments : float
}.

Inductive Shapes :=
| FlatShape (s : Shape)                               (* a THREE.Shape drawn by a callback *)
| GeneratedShapes (f : Font) (text : string) (size : float).   (* font.generateShapes(text, size) *)

Inductive Geometry :=
| RingGeometry (innerRadius outerRadius thetaSegments phiSegments thetaStart thetaLength : float)
| PlaneGeometry (w h widthSegments heightSegments : float)
| CircleGeometry (radius segments thetaStart thetaLength : float)
| ShapeGeometry (shapes : Shapes) (uv : option (list float))
| TextGeometry (text : string) (parameters : TextParameters)
| BoxGeometry (w h d widthSegments heightSegments depthSegments : float)
| EdgesGeometry (g : Geometry).

Inductive Visual :=
| Mesh (g : Geometry) (m : Materials)
| LineSegments (g : Geometry) (m : Material)
| Group.                                              (* the root of a loaded model *)

Record Object3D := mkObject3D {
  visual : Visual;
  scale : float * float * float;
  position : Value * float * float
}.

Inductive Background :=
| Color (c : Value)                                   (* new THREE.Color(c) *)
| TextureBackground (t : Texture).

Record Scene := mkScene {
  background : option Background;
  environment : option Texture;
  children : list Ref
}.

Inductive RendererCall :=
| SetPixelRatio (r : float)
| SetSize (w h : float).

Inductive CameraKind := PerspectiveCamera | OrthographicCamera.

Record Camera := mkCamera {
  aspect : option float;
  projectionAspect : option float    (* the aspect the projection matrix was last computed from *)
}.

Definition Clip := nat.

Record AnimationMixer := mkMixer {
  mixer_root : Ref;
  mixer_playing : list Clip          (* clips whose action was started with play() *)
}.

Record Gltf := mkGltf {
  gltf_scene : Ref;
  gltf_animations : option (list Clip);   (* None: no [animations] property *)
  gltf_mixer : option AnimationMixer
}.

Inductive Promise :=
| Pending
| Fulfilled (v : Ref)
| Rejected (reason : Value).

Inductive HostObject :=
| OScene (s : Scene)
| OElement (e : HTMLElement)
| ORenderer (calls : list RendererCall)
| OCamera (k : CameraKind) (c : Camera)
| OObject3D (o : Object3D)
| OGltf (g : Gltf)
| OPromise (p : Promise)
| OPlain.

(** What three.js and the browser compute and the source then reads. *)
Class Host := {
  (** [geometry.computeBoundingBox(); geometry.boundingBox] *)
  computeBoundingBox : Geometry -> Box3;
  (** [new THREE.ShapeGeometry(shape).attributes.position] *)
  shapePositions : Shape -> list Vector3;
  (** [new THREE.Box3().setFromBufferAttribute(position)] *)
  setFromBufferAttribute : list Vector3 -> Box3;
  (** [box3.getSize(size)] *)
  getSize : Box3 -> Vector3;
  (** the layout the browser gives an element once its style was changed *)
  reflow : HTMLElement -> HTMLElement;
  (** [renderer.domElement]: the canvas the renderer draws into, when it
      is an object of the heap *)
  domElement : Ref -> option Ref;
  (** what [renderer.setPixelRatio] and [renderer.setSize] make of the
      canvas the renderer draws into, given the calls the renderer
      received before: three.js resizes the drawing buffer and, in
      [setSize], writes the style *)
  resizeOutput : list RendererCall -> RendererCall -> HTMLElement -> HTMLElement
}.

(** ** Options of the exported functions

    One record per function, with the source's option names. A [Value]
    field holds what the caller passed ([VUndefined] when the property is
    absent); the source's default is applied by [orDefault] inside the
    function. A typed field holds the caller's value or the default of
    [defaults]. *)

Module BackgroundOptions.
Record t := mk {
  color : Value; dark : Value; light : Value;
  image : Value; hdr : Value; exr : Value;
  scene : Value
}.
Definition defaults : t :=
  mk VUndefined VUndefined VUndefined VUndefined VUndefined VUndefined VUndefined.
End BackgroundOptions.

Module ResponsiveOptions.
Record t := mk {
  canvas : Value; renderer : Value; camera : Value; responsive : Value
}.
Definition defaults : t := mk VUndefined VUndefined VUndefined VUndefined.
End ResponsiveOptions.

Module TextOptions.
Record t := mk {
  text : string; font : string; size : float; depth : float; flat : Value;
  curveSegments : float; bevelEnabled : bool; bevelThickness : float;
  bevelSize : float; bevelOffset : float; bevelSegments : float;
  color : Value;
  scaleX : float; scaleY : float; scaleZ : float;
  posX : Value; posY : float; posZ : float;
  scene : Value; animate : Value
}.
Definition defaults : t :=
  mk "Hello, World!"
     "https://raw.githubusercontent.com/mrdoob/three.js/master/examples/fonts/helvetiker_regular.typeface.json"
     10 3 VUndefined 12 false 1 1 0 12 VUndefined 1 1 1 VUndefined 0 0
     VUndefined VUndefined.
End TextOptions.

Module ShapeOptions.
Record t := mk {
  radius : Value; segments : float; innerRadius : float; phiSegments : float;
  thetaStart : float; thetaLength : float;
  width : Value; height : Value; widthSegments : float; heightSegments : float;
  shape : Value; color : Value; texture : Value;
  scaleX : float; scaleY : float; scaleZ : float;
  posX : float; posY : float; posZ : float;
  scene : Value; animate : Value
}.
Definition defaults : t :=
  mk VUndefined 128 0 1 0 2 VUndefined VUndefined 1 1
     VUndefined VUndefined VUndefined 1 1 1 0 0 0 VUndefined VUndefined.
End ShapeOptions.

Module BoxOptions.
Record t := mk {
  width : float; height : float; depth : float;
  widthSegments : float; heightSegments : float; depthSegments : float;
  color : Value; isSolid : Value; textures : Value;
  scaleX : float; scaleY : float; scaleZ : float;
  posX : float; posY : float; posZ : float;
  scene : Value; animate : Value
}.
Definition defaults : t :=
  mk 10 10 10 1 1 1 VUndefined VUndefined VUndefined 1 1 1 0 0 0
     VUndefined VUndefined.
End BoxOptions.

Module GltfOptions.
Record t := mk {
  model : string;
  scaleX : float; scaleY : float; scaleZ : float;
  posX : float; posY : float; posZ : float;
  scene : Value; animate : Value
}.
Definition defaults : t := mk "" 1 1 1 0 0 0 VUndefined VUndefined.
End GltfOptions.

(** ** Closures, requests, listeners and the world *)

Inductive Loader := TextureLoader | RGBELoader | EXRLoader | FontLoader | GLTFLoader.

(** The success callbacks the source hands to a loader, with what they
    close over. *)
Inductive OnLoad :=
| BackgroundImage (scene : Ref)                        (* functions.js 116-120 *)
| BackgroundHdr (scene : Ref)                          (* functions.js 122-126 *)
| BackgroundExr (scene : Ref)                          (* functions.js 128-132 *)
| TextLoaded (o : TextOptions.t) (resolve : Ref)       (* functions.js 275-323 *)
| GltfLoaded (o : GltfOptions.t) (resolve : Ref).      (* functions.js 596-617 *)

(** The error callbacks the source hands to a loader: there is none. *)
Inductive OnError := .

(** [loader.load(url, onLoad, onProgress, onError)] in flight. *)
Record Request := mkRequest {
  loader : Loader;
  url : Value;
  onLoad : option OnLoad;
  onError : option OnError;
  settled : bool
}.

(** What a loader hands to its success callback. *)
Inductive Asset :=
| LoadedTexture (t : Texture)
| LoadedFont (f : Font)
| LoadedGltf (root : Object3D) (animations : option (list Clip)).

Inductive EventTarget := DarkSchemeQuery | WindowResize | ScreenOrientation.

(** The event handlers the source registers, with what they close over. *)
Inductive Handler :=
| SchemeListener (scene : Ref) (dark light : Value)    (* functions.js 108-114 *)
| ResizeChange (canvas renderer camera : Ref) (responsive : Function).  (* functions.js 183-191 *)

Record Listener := mkListener { target : EventTarget; handler : Handler }.

Record AnimationEntry := mkEntry { element : Ref; animate : Function }.

(** Writes and method calls on the objects the caller owns (scene, canvas,
    renderer, camera), in program order. *)
Inductive Effect :=
| WriteBackground (scene : Ref)
| WriteEnvironment (scene : Ref)
| SceneAdd (scene child : Ref)
| CallPolicy (canvas : Ref)
| WriteWidth (canvas : Ref) (v : float)
| WriteHeight (canvas : Ref) (v : float)
| CallSetPixelRatio (renderer : Ref) (r : float)
| CallSetSize (renderer : Ref) (w h : float)
| WriteAspect (camera : Ref) (a : float)
| CallUpdateProjectionMatrix (camera : Ref).

Record World := mkWorld {
  window : Window;
  heap : list HostObject;
  animationList : list AnimationEntry;       (* functions.js 219 *)
  console : list string;                     (* console.error messages *)
  listeners : list Listener;
  requests : list Request;
  trace : list Effect
}.

(** ** State passing *)

Definition M (A : Type) : Type := World -> A * World.

Definition ret {A} (a : A) : M A := fun w => (a, w).
Definition bind {A B} (c : M A) (k : A -> M B) : M B :=
  fun w => let (a, w') := c w in k a w'.

Declare Scope js_scope.
Delimit Scope js_scope with js.
Notation "'let*' x := c 'in' k" := (bind c (fun x => k))
  (at level 10, x name, c at level 100, k at level 200) : js_scope.
Notation "c ;; k" := (bind c (fun _ => k))
  (at level 100, k at level 200, right associativity) : js_scope.
Local Open Scope js_scope.

Definition exec {A} (c : M A) (w : World) : World := snd (c w).
Definition result {A} (c : M A) (w : World) : A := fst (c w).

Definition withHeap (h : list HostObject) (w : World) : World :=
  mkWorld (window w) h (animationList w) (console w) (listeners w) (requests w) (trace w).
Definition withAnimationList (l : list AnimationEntry) (w : World) : World :=
  mkWorld (window w) (heap w) l (console w) (listeners w) (requests w) (trace w).
Definition withConsole (c : list string) (w : World) : World :=
  mkWorld (window w) (heap w) (animationList w) c (listeners w) (requests w) (trace w).
Definition withListeners (l : list Listener) (w : World) : World :=
  mkWorld (window w) (heap w) (animationList w) (console w) l (requests w) (trace w).
Definition withRequests (r : list Request) (w : World) : World :=
  mkWorld (window w) (heap w) (animationList w) (console w) (listeners w) r (trace w).
Definition withTrace (t : list Effect) (w : World) : World :=
  mkWorld (window w) (heap w) (animationList w) (console w) (listeners w) (requests w) t.
Definition withWindow (win : Window) (w : World) : World :=
  mkWorld win (heap w) (animationList w) (console w) (listeners w) (requests w) (trace w).

(** [new C(...)]: a fresh object at the end of the heap. *)
Definition alloc (o : HostObject) : M Ref :=
  fun w => (length (heap w), withHeap (heap w ++ [o]) w).

Definition update (r : Ref) (f : HostObject -> HostObject) : M unit :=
  fun w => (tt, withHeap (alter f r (heap w)) w).

Definition emit (e : Effect) : M unit :=
  fun w => (tt, withTrace (trace w ++ [e]) w).

(** [console.error(msg)] *)
Definition consoleError (msg : string) : M unit :=
  fun w => (tt, withConsole (console w ++ [msg]) w).

(** [animationList.push({ element, animate })] *)
Definition push (e : AnimationEntry) : M unit :=
  fun w => (tt, withAnimationList (animationList w ++ [e]) w).

Definition addEventListener (t : EventTarget) (h : Handler) : M unit :=
  fun w => (tt, withListeners (listeners w ++ [mkListener t h]) w).

(** [new L().load(url, onLoad)]: no progress and no error callback. *)
Definition load (l : Loader) (u : Value) (cb : option OnLoad) : M unit :=
  fun w => (tt, withRequests (requests w ++ [mkRequest l u cb None false]) w).

(** [v instanceof THREE.Scene] and the like, with the reference. *)
Definition asScene (v : Value) (w : World) : option Ref :=
  match v with
  | VObject r => match heap w !! r with Some (OScene _) => Some r | _ => None end
  | _ => None
  end.

Definition asElement (v : Value) (w : World) : option Ref :=
  match v with
  | VObject r => match heap w !! r with Some (OElement _) => Some r | _ => None end
  | _ => None
  end.

Definition asRenderer (v : Value) (w : World) : option Ref :=
  match v with
  | VObject r => match heap w !! r with Some (ORenderer _) => Some r | _ => None end
  | _ => None
  end.

Definition asCamera (v : Value) (w : World) : option Ref :=
  match v with
  | VObject r => match heap w !! r with Some (OCamera _ _) => Some r | _ => None end
  | _ => None
  end.

(** [typeof v === "function"], with the function. *)
Definition asFunction (v : Value) : option Function :=
  match v with VFunction f => Some f | _ => None end.

(** ** The helpers *)

Section Helpers.
Context {host : Host}.

Definition getWindow : M Window := fun w => (window w, w).

(** [scene.background = b] *)
Definition writeBackground (scene : Ref) (b : Background) : M unit :=
  update scene (fun o =>
    match o with
    | OScene s => OScene (mkScene (Some b) (environment s) (children s))
    | _ => o
    end) ;;
  emit (WriteBackground scene).

(** [scene.environment = t] *)
Definition writeEnvironment (scene : Ref) (t : Texture) : M unit :=
  update scene (fun o =>
    match o with
    | OScene s => OScene (mkScene (background s) (Some t) (children s))
    | _ => o
    end) ;;
  emit (WriteEnvironment scene).

(** [scene.add(child)] for an object that has no parent yet. *)
Definition addChild (child : Ref) (o : HostObject) : HostObject :=
  match o with
  | OScene s => OScene (mkScene (background s) (environment s) (children s ++ [child]))
  | _ => o
  end.

Definition sceneAdd (scene child : Ref) : M unit :=
  update scene (addChild child) ;;
  emit (SceneAdd scene child).

(** *** setBackground (functions.js 90-139) *)

Definition setBackground (o : BackgroundOptions.t) : M unit := fun w =>
  let color := orDefault (VNumber 0x666666) (BackgroundOptions.color o) in
  let dark := BackgroundOptions.dark o in
  let light := BackgroundOptions.light o in
  let image := BackgroundOptions.image o in
  let hdr := BackgroundOptions.hdr o in
  let exr := BackgroundOptions.exr o in
  match asScene (BackgroundOptions.scene o) w with
  | Some scene =>
      (if defined dark && defined light then
         (if prefersDark (window w)
          then writeBackground scene (Color dark)
          else writeBackground scene (Color light)) ;;
         addEventListener DarkSchemeQuery (SchemeListener scene dark light)
       else if defined image then
         load TextureLoader image (Some (BackgroundImage scene))
       else if defined hdr then
         load RGBELoader hdr (Some (BackgroundHdr scene))
       else if defined exr then
         load EXRLoader exr (Some (BackgroundExr scene))
       else
         writeBackground scene (Color color)) w
  | None => consoleError "Invalid options for 'setBackground' function." w
  end.

(** The listener of functions.js 108-114, called with [event.matches]. *)
Definition schemeListener (scene : Ref) (dark light : Value) (matches : bool) : M unit :=
  if matches
  then writeBackground scene (Color dark)
  else writeBackground scene (Color light).

(** The callbacks of functions.js 116-120, 122-126 and 128-132. *)
Definition backgroundImageLoaded (scene : Ref) (texture : Texture) : M unit :=
  let texture := mkTexture (source texture) (Some EquirectangularReflectionMapping) (colorSpace texture) in
  let texture := mkTexture (source texture) (mapping texture) (Some SRGBColorSpace) in
  writeBackground scene (TextureBackground texture).

Definition backgroundHdrLoaded (scene : Ref) (texture : Texture) : M unit :=
  let texture := mkTexture (source texture) (Some EquirectangularReflectionMapping) (colorSpace texture) in
  writeBackground scene (TextureBackground texture) ;;
  writeEnvironment scene texture.

Definition backgroundExrLoaded (scene : Ref) (texture : Texture) : M unit :=
  let texture := mkTexture (source texture) (Some EquirectangularReflectionMapping) (colorSpace texture) in
  writeBackground scene (TextureBackground texture) ;;
  writeEnvironment scene texture.

(** *** setResponsive (functions.js 167-197) *)

(** The default policy of functions.js 171-174. *)
Definition defaultResponsive : Function :=
  mkFunction 0 (fun s => s)
    (fun win canvas =>
       mkElement (CssPx (innerWidth win)) (CssPx (innerHeight win))
                 (clientWidth canvas) (clientHeight canvas)
                 (width canvas) (height canvas)).

Definition updateElement (r : Ref) (f : HTMLElement -> HTMLElement) : M unit :=
  update r (fun o => match o with OElement e => OElement (f e) | _ => o end).

(** [canvas.clientWidth], [canvas.clientHeight]; a reference that is not
    an element (the handler never holds one) reads as NaN. *)
Definition readClientWidth (r : Ref) : M float := fun w =>
  (match heap w !! r with Some (OElement e) => clientWidth e | _ => nan end, w).
Definition readClientHeight (r : Ref) : M float := fun w =>
  (match heap w !! r with Some (OElement e) => clientHeight e | _ => nan end, w).

(** The calls a renderer has received; a reference that is not a renderer
    (the handler never holds one) has received none. *)
Definition receivedCalls (r : Ref) : M (list RendererCall) := fun w =>
  (match heap w !! r with Some (ORenderer cs) => cs | _ => [] end, w).

(** [renderer.setPixelRatio(r)] and [renderer.setSize(w, h)]: the renderer
    takes the call and resizes the canvas it draws into
    ([resizeOutput]), which the browser then lays out again. That canvas
    may or may not be the canvas the handler was given. *)
Definition callRenderer (r : Ref) (c : RendererCall) : M unit :=
  let* cs := receivedCalls r in
  update r (fun o => match o with ORenderer cs => ORenderer (cs ++ [c]) | _ => o end) ;;
  match domElement r with
  | Some output => updateElement output (fun e => reflow (resizeOutput cs c e))
  | None => ret tt
  end.

(** The handler of functions.js 183-191. The browser lays the canvas out
    when its client size is read after the policy changed its style
    ([reflow]); the handler's own writes to the backing size are taken to
    leave that layout as it is. *)
Definition resizeChange (canvas renderer camera : Ref) (responsive : Function) : M unit :=
  let* win := getWindow in
  (* responsive(canvas); *)
  updateElement canvas (fun e => reflow (fn_canvas responsive win e)) ;;
  emit (CallPolicy canvas) ;;
  (* canvas.width = canvas.clientWidth; *)
  let* cw := readClientWidth canvas in
  updateElement canvas (fun e =>
    mkElement (style_width e) (style_height e) (clientWidth e) (clientHeight e) cw (height e)) ;;
  emit (WriteWidth canvas cw) ;;
  (* canvas.height = canvas.clientHeight; *)
  let* ch := readClientHeight canvas in
  updateElement canvas (fun e =>
    mkElement (style_width e) (style_height e) (clientWidth e) (clientHeight e) (width e) ch) ;;
  emit (WriteHeight canvas ch) ;;
  (* renderer.setPixelRatio(window.devicePixelRatio); *)
  callRenderer renderer (SetPixelRatio (devicePixelRatio win)) ;;
  emit (CallSetPixelRatio renderer (devicePixelRatio win)) ;;
  (* renderer.setSize(canvas.clientWidth, canvas.clientHeight); *)
  let* cw := readClientWidth canvas in
  let* ch := readClientHeight canvas in
  callRenderer renderer (SetSize cw ch) ;;
  emit (CallSetSize renderer cw ch) ;;
  (* camera.aspect = canvas.clientWidth / canvas.clientHeight; *)
  let* cw := readClientWidth canvas in
  let* ch := readClientHeight canvas in
  update camera (fun o =>
    match o with
    | OCamera k c => OCamera k (mkCamera (Some (cw / ch)) (projectionAspect c))
    | _ => o
    end) ;;
  emit (WriteAspect camera (cw / ch)) ;;
  (* camera.updateProjectionMatrix(); *)
  update camera (fun o =>
    match o with
    | OCamera k c => OCamera k (mkCamera (aspect c) (aspect c))
    | _ => o
    end) ;;
  emit (CallUpdateProjectionMatrix camera).

Definition setResponsive (o : ResponsiveOptions.t) : M unit := fun w =>
  let responsive :=
    orDefault (VFunction defaultResponsive) (ResponsiveOptions.responsive o) in
  match asElement (ResponsiveOptions.canvas o) w,
        asRenderer (ResponsiveOptions.renderer o) w,
        asCamera (ResponsiveOptions.camera o) w,
        asFunction responsive with
  | Some canvas, Some renderer, Some camera, Some responsive =>
      (addEventListener WindowResize (ResizeChange canvas renderer camera responsive) ;;
       addEventListener ScreenOrientation (ResizeChange canvas renderer camera responsive)) w
  | _, _, _, _ => consoleError "Invalid options for 'setResponsive' function." w
  end.

(** *** What every renderer does with the element it built *)

(** [new THREE.Mesh(geometry, material)] and [new THREE.LineSegments]:
    scale (1, 1, 1) at the origin. *)
Definition newObject3D (v : Visual) : M Ref :=
  alloc (OObject3D (mkObject3D v (1, 1, 1) (VNumber 0, 0, 0))).

(** [element.scale.set(x, y, z)] *)
Definition setScale (r : Ref) (x y z : float) : M unit :=
  update r (fun o =>
    match o with
    | OObject3D e => OObject3D (mkObject3D (visual e) (x, y, z) (position e))
    | _ => o
    end).

(** [element.position.set(x, y, z)] *)
Definition setPosition (r : Ref) (x : Value) (y z : float) : M unit :=
  update r (fun o =>
    match o with
    | OObject3D e => OObject3D (mkObject3D (visual e) (scale e) (x, y, z))
    | _ => o
    end).

(** [if (typeof animate === "function") animationList.push({ element, animate })] *)
Definition register (animate : Value) (element : Ref) : M unit :=
  match asFunction animate with
  | Some f => push (mkEntry element f)
  | None => ret tt
  end.

(** [if (scene instanceof THREE.Scene) scene.add(element)] *)
Definition attach (scene : Value) (child : Ref) : M unit := fun w =>
  match asScene scene w with
  | Some s => sceneAdd s child w
  | None => (tt, w)
  end.

(** [new THREE.TextureLoader().load(path)] followed by
    [texture.colorSpace = THREE.SRGBColorSpace]. *)
Definition loadTexture (path : Value) : M Texture :=
  load TextureLoader path None ;;
  ret (mkTexture path None (Some SRGBColorSpace)).

(** [resolve(v)] of a promise built by [new Promise]: a pending promise
    is fulfilled, a settled one stays as it is. *)
Definition fulfil (v : Ref) (o : HostObject) : HostObject :=
  match o with
  | OPromise Pending => OPromise (Fulfilled v)
  | _ => o
  end.

Definition resolve (p : Ref) (v : Ref) : M unit :=
  update p (fulfil v).

(** *** renderText (functions.js 252-326) *)

(** The callback of functions.js 275-323, called with the loaded font;
    [resolve_] is the promise [new Promise] built. An absent [flat] is the
    default false, which like every value but true takes the 3D branch. *)
Definition textLoaded (o : TextOptions.t) (resolve_ : Ref) (loadedFont : Font) : M unit :=
  let color := orDefault (VNumber 0xffffff) (TextOptions.color o) in
  let text := TextOptions.text o in
  let size := TextOptions.size o in
  let (geometry, material) :=
    match TextOptions.flat o with
    | VBoolean true =>
        (ShapeGeometry (GeneratedShapes loadedFont text size) None,
         OneMaterial (MeshBasicMaterial None (Some color) (Some DoubleSide)))
    | _ =>
        (TextGeometry text
           (mkTextParameters loadedFont size (TextOptions.depth o)
              (TextOptions.curveSegments o) (TextOptions.bevelEnabled o)
              (TextOptions.bevelThickness o) (TextOptions.bevelSize o)
              (TextOptions.bevelOffset o) (TextOptions.bevelSegments o)),
         MaterialArray
           [MeshPhongMaterial (Some true) color; MeshPhongMaterial None color])
    end in
  let* mesh := newObject3D (Mesh geometry material) in
  setScale mesh (TextOptions.scaleX o) (TextOptions.scaleY o) (TextOptions.scaleZ o) ;;
  let boundingBox := computeBoundingBox geometry in
  let posX :=
    match TextOptions.posX o with
    | VUndefined => VNumber (-0.5 * (vx (box_max boundingBox) - vx (box_min boundingBox)))
    | posX => posX
    end in
  setPosition mesh posX (TextOptions.posY o) (TextOptions.posZ o) ;;
  register (TextOptions.animate o) mesh ;;
  attach (TextOptions.scene o) mesh ;;
  resolve resolve_ mesh.

(** The promise the async function returns follows [loaded]; the model
    returns [loaded] itself. *)
Definition renderText (o : TextOptions.t) : M Ref :=
  let* loaded := alloc (OPromise Pending) in
  load FontLoader (VString (TextOptions.font o)) (Some (TextLoaded o loaded)) ;;
  ret loaded.

(** *** renderShape (functions.js 376-469) *)

(** The loop of functions.js 426-430. *)
Fixpoint uvLoop (position : list Vector3) (bmin size : Vector3) (uv : list float)
  : list float :=
  match position with
  | [] => uv
  | p :: rest =>
      uvLoop rest bmin size
        (uv ++ [(vx p - vx bmin) / vx size; (vy p - vy bmin) / vy size])
  end.

Definition shapeGeometry (o : ShapeOptions.t) : Geometry :=
  let segments := ShapeOptions.segments o in
  let thetaStart := ShapeOptions.thetaStart o in
  let thetaLength := ShapeOptions.thetaLength o in
  match ShapeOptions.radius o with
  | VNumber radius =>
      RingGeometry (ShapeOptions.innerRadius o) radius segments
        (ShapeOptions.phiSegments o) (thetaStart * PI) (thetaLength * PI)
  | _ =>
      match ShapeOptions.width o, ShapeOptions.height o with
      | VNumber width, VNumber height =>
          PlaneGeometry width height
            (ShapeOptions.widthSegments o) (ShapeOptions.heightSegments o)
      | _, _ =>
          match ShapeOptions.shape o with
          | VFunction shape =>
              let flatShape := fn_draw shape [] in
              let position := shapePositions flatShape in
              let box3 := setFromBufferAttribute position in
              let size := getSize box3 in
              ShapeGeometry (FlatShape flatShape)
                (Some (uvLoop position (box_min box3) size []))
          | _ =>
              let radius := 10 in
              CircleGeometry radius segments (thetaStart * PI) (thetaLength * PI)
          end
      end
  end.

Definition renderShape (o : ShapeOptions.t) : M Ref :=
  let color := orDefault (VNumber 0xffffff) (ShapeOptions.color o) in
  let geometry := shapeGeometry o in
  let* material :=
    match ShapeOptions.texture o with
    | VString _ =>
        let* image := loadTexture (ShapeOptions.texture o) in
        ret (MeshBasicMaterial (Some image) None (Some DoubleSide))
    | _ => ret (MeshBasicMaterial None (Some color) (Some DoubleSide))
    end in
  let* mesh := newObject3D (Mesh geometry (OneMaterial material)) in
  setScale mesh (ShapeOptions.scaleX o) (ShapeOptions.scaleY o) (ShapeOptions.scaleZ o) ;;
  setPosition mesh (VNumber (ShapeOptions.posX o)) (ShapeOptions.posY o) (ShapeOptions.posZ o) ;;
  register (ShapeOptions.animate o) mesh ;;
  attach (ShapeOptions.scene o) mesh ;;
  ret mesh.

(** *** renderBox (functions.js 496-563) *)

(** The loop of functions.js 533-539. *)
Fixpoint materialLoop (textureToLoad : list Value) (materials : list Material)
  : M (list Material) :=
  match textureToLoad with
  | [] => ret materials
  | path :: rest =>
      let* texture := loadTexture path in
      materialLoop rest (materials ++ [MeshBasicMaterial (Some texture) None None])
  end.

(** [Array(6).fill(textures).flat()] *)
Definition fillFlat (textures : list Value) : list Value :=
  concat (replicate 6 textures).

Definition renderBox (o : BoxOptions.t) : M Ref :=
  let color := orDefault (VNumber 0xffffff) (BoxOptions.color o) in
  let isSolid := orDefault (VBoolean true) (BoxOptions.isSolid o) in
  let textures := orDefault (VArray []) (BoxOptions.textures o) in
  let geometry :=
    BoxGeometry (BoxOptions.width o) (BoxOptions.height o) (BoxOptions.depth o)
      (BoxOptions.widthSegments o) (BoxOptions.heightSegments o)
      (BoxOptions.depthSegments o) in
  let* box :=
    match isSolid with
    | VBoolean true =>
        match textures with
        | VArray (t :: ts) =>
            let* materials := materialLoop (fillFlat (t :: ts)) [] in
            newObject3D (Mesh geometry (MaterialArray materials))
        | _ =>
            newObject3D (Mesh geometry (OneMaterial (MeshPhongMaterial None color)))
        end
    | _ =>
        newObject3D (LineSegments (EdgesGeometry geometry) (LineBasicMaterial color))
    end in
  setScale box (BoxOptions.scaleX o) (BoxOptions.scaleY o) (BoxOptions.scaleZ o) ;;
  setPosition box (VNumber (BoxOptions.posX o)) (BoxOptions.posY o) (BoxOptions.posZ o) ;;
  register (BoxOptions.animate o) box ;;
  attach (BoxOptions.scene o) box ;;
  ret box.

(** *** renderGltfModel (functions.js 584-620) *)

(** [loadedModel.animations.forEach((clip) => mixer.clipAction(clip).play())] *)
Definition playEach (animations : list Clip) (mixer : AnimationMixer) : AnimationMixer :=
  fold_left (fun m clip => mkMixer (mixer_root m) (mixer_playing m ++ [clip]))
            animations mixer.

(** The callback of functions.js 596-617. [loadedModel] is the asset the
    loader built, [modelScene] its [scene] and [animations] its
    [animations]. *)
Definition gltfLoaded (o : GltfOptions.t) (resolve_ : Ref)
    (loadedModel modelScene : Ref) (animations : option (list Clip)) : M unit :=
  match asFunction (GltfOptions.animate o) with
  | Some animate =>
      match animations with
      | Some clips =>
          let mixer := playEach clips (mkMixer modelScene []) in
          update loadedModel (fun obj =>
            match obj with
            | OGltf g => OGltf (mkGltf (gltf_scene g) (gltf_animations g) (Some mixer))
            | _ => obj
            end)
      | None => ret tt
      end ;;
      push (mkEntry loadedModel animate)
  | None => ret tt
  end ;;
  setScale modelScene (GltfOptions.scaleX o) (GltfOptions.scaleY o) (GltfOptions.scaleZ o) ;;
  setPosition modelScene (VNumber (GltfOptions.posX o)) (GltfOptions.posY o) (GltfOptions.posZ o) ;;
  attach (GltfOptions.scene o) modelScene ;;
  resolve resolve_ loadedModel.

Definition renderGltfModel (o : GltfOptions.t) : M Ref :=
  let* loaded := alloc (OPromise Pending) in
  load GLTFLoader (VString (GltfOptions.model o)) (Some (GltfLoaded o loaded)) ;;
  ret loaded.

(** ** The environment: loads completing, events firing, calls arriving *)

(** The kind of asset each loader produces. *)
Definition produces (l : Loader) (a : Asset) : bool :=
  match l, a with
  | TextureLoader, LoadedTexture _
  | RGBELoader, LoadedTexture _
  | EXRLoader, LoadedTexture _
  | FontLoader, LoadedFont _
  | GLTFLoader, LoadedGltf _ _ => true
  | _, _ => false
  end.

(** A loader calling the success callback it was given. The GLTF loader
    builds the asset (its root, then the asset object) before the call. *)
Definition runOnLoad (cb : OnLoad) (a : Asset) : M unit :=
  match cb, a with
  | BackgroundImage scene, LoadedTexture t => backgroundImageLoaded scene t
  | BackgroundHdr scene, LoadedTexture t => backgroundHdrLoaded scene t
  | BackgroundExr scene, LoadedTexture t => backgroundExrLoaded scene t
  | TextLoaded o p, LoadedFont f => textLoaded o p f
  | GltfLoaded o p, LoadedGltf root animations =>
      let* modelScene := alloc (OObject3D root) in
      let* loadedModel := alloc (OGltf (mkGltf modelScene animations None)) in
      gltfLoaded o p loadedModel modelScene animations
  | _, _ => ret tt
  end.

(** A loader calling the error callback it was given. *)
Definition runOnError (cb : OnError) : M unit :=
  match cb with end.

Definition settle (i : nat) : M unit := fun w =>
  (tt, withRequests
         (alter (fun r => mkRequest (loader r) (url r) (onLoad r) (onError r) true)
                i (requests w)) w).

Definition runHandler (h : Handler) (matches : bool) : M unit :=
  match h with
  | SchemeListener scene dark light => schemeListener scene dark light matches
  | ResizeChange canvas renderer camera responsive =>
      resizeChange canvas renderer camera responsive
  end.

(** Every listener registered on [t], oldest first. *)
Fixpoint dispatch (t : EventTarget) (matches : bool) (ls : list Listener) : M unit :=
  match ls with
  | [] => ret tt
  | l :: rest =>
      (match target l, t with
       | DarkSchemeQuery, DarkSchemeQuery
       | WindowResize, WindowResize
       | ScreenOrientation, ScreenOrientation => runHandler (handler l) matches
       | _, _ => ret tt
       end) ;;
      dispatch t matches rest
  end.

Inductive Call :=
| CallSetBackground (o : BackgroundOptions.t)
| CallSetResponsive (o : ResponsiveOptions.t)
| CallRenderText (o : TextOptions.t)
| CallRenderShape (o : ShapeOptions.t)
| CallRenderBox (o : BoxOptions.t)
| CallRenderGltfModel (o : GltfOptions.t).

Inductive Event :=
| Invoke (c : Call)                       (* the page calls an exported function *)
| SchemeChange (matches : bool)           (* the colour-scheme media query changes *)
| Resize                                  (* window "resize" *)
| OrientationChange                       (* screen.orientation "change" *)
| LoadSucceeds (i : nat) (a : Asset)      (* request [i] completes with [a] *)
| LoadFails (i : nat).                    (* request [i] fails *)

Definition invoke (c : Call) : M unit :=
  match c with
  | CallSetBackground o => setBackground o
  | CallSetResponsive o => setResponsive o
  | CallRenderText o => renderText o ;; ret tt
  | CallRenderShape o => renderShape o ;; ret tt
  | CallRenderBox o => renderBox o ;; ret tt
  | CallRenderGltfModel o => renderGltfModel o ;; ret tt
  end.

Definition step (e : Event) : M unit := fun w =>
  match e with
  | Invoke c => invoke c w
  | SchemeChange matches =>
      let win := window w in
      dispatch DarkSchemeQuery matches (listeners w)
        (withWindow (mkWindow matches (innerWidth win) (innerHeight win)
                       (devicePixelRatio win)) w)
  | Resize => dispatch WindowResize false (listeners w) w
  | OrientationChange => dispatch ScreenOrientation false (listeners w) w
  | LoadSucceeds i a =>
      match requests w !! i with
      | Some r =>
          if settled r || negb (produces (loader r) a) then (tt, w)
          else (settle i ;;
                match onLoad r with
                | Some cb => runOnLoad cb a
                | None => ret tt
                end) w
      | None => (tt, w)
      end
  | LoadFails i =>
      match requests w !! i with
      | Some r =>
          if settled r then (tt, w)
          else (settle i ;;
                match onError r with
                | Some cb => runOnError cb
                | None => ret tt
                end) w
      | None => (tt, w)
      end
  end.

Fixpoint run (es : list Event) (w : World) : World :=
  match es with
  | [] => w
  | e :: rest => run rest (exec (step e) w)
  end.

End Helpers.

(** ** The page: module initialisation and [isSupported] (functions.js 15-73)

    The initialiser and [isSupported] work on the document, not on a
    scene. Elements are objects of a heap of their own ([elements]), so
    that the banner the initialiser appends to the body and the banner the
    loading-manager callbacks write to are the same element. *)

(** A DOM element, as far as the module writes one. [style] holds the
    assignments [element.style.p = v] of the source, property by property;
    an [innerHTML] assignment replaces the children. *)
Record DomElement := mkDomElement {
  tagName : string;
  style : gmap string Value;
  classList : list string;
  innerHTML : string;
  childNodes : list Ref
}.

(** The four callbacks of functions.js 36-51, with the element they close
    over. *)
Inductive ManagerCallback :=
| ShowStarting (element : Ref)                    (* functions.js 36-39 *)
| HideBanner (element : Ref)                      (* functions.js 40-43 *)
| ShowLoading (element : Ref)                     (* functions.js 44-47 *)
| ShowError (element : Ref).                      (* functions.js 48-51 *)

(** THREE.DefaultLoadingManager: its four callback properties. *)
Module LoadingManager.
Record t := mk {
  onStart : option ManagerCallback;
  onLoad : option ManagerCallback;
  onProgress : option ManagerCallback;
  onError : option ManagerCallback
}.
Definition initial : t := mk None None None None.
End LoadingManager.

Record Page := mkPage {
  cacheEnabled : bool;                 (* THREE.Cache.enabled *)
  elements : list DomElement;          (* every element created so far *)
  body : option Ref;                   (* document.getElementsByTagName("body")[0] *)
  manager : LoadingManager.t           (* THREE.DefaultLoadingManager *)
}.

Inductive Exception := TypeError.

(** How a call ends: it returns, or it throws. *)
Inductive Completion (A : Type) :=
| Normal (a : A)
| Throw (e : Exception).
Arguments Normal {A} a.
Arguments Throw {A} e.

(** State passing with exceptions: what follows a throw does not run. *)
Definition Dom (A : Type) : Type := Page -> Completion A * Page.

Definition unit_ {A} (a : A) : Dom A := fun p => (Normal a, p).
Definition throw {A} (e : Exception) : Dom A := fun p => (Throw e, p).
Definition andThen {A B} (c : Dom A) (k : A -> Dom B) : Dom B :=
  fun p =>
    match c p with
    | (Normal a, p') => k a p'
    | (Throw e, p') => (Throw e, p')
    end.

Declare Scope dom_scope.
Delimit Scope dom_scope with dom.
Notation "'let*' x := c 'in' k" := (andThen c (fun x => k))
  (at level 10, x name, c at level 100, k at level 200) : dom_scope.
Notation "c ;; k" := (andThen c (fun _ => k))
  (at level 100, k at level 200, right associativity) : dom_scope.

Definition withElements (es : list DomElement) (p : Page) : Page :=
  mkPage (cacheEnabled p) es (body p) (manager p).
Definition withCacheEnabled (b : bool) (p : Page) : Page :=
  mkPage b (elements p) (body p) (manager p).
Definition withManager (m : LoadingManager.t) (p : Page) : Page :=
  mkPage (cacheEnabled p) (elements p) (body p) m.

(** [document.createElement(tag)]: a fresh element, in no tree. *)
Definition createElement (tag : string) : Dom Ref :=
  fun p => (Normal (length (elements p)),
            withElements (elements p ++ [mkDomElement tag empty [] "" []]) p).

Definition updateDom (r : Ref) (f : DomElement -> DomElement) : Dom unit :=
  fun p => (Normal tt, withElements (alter f r (elements p)) p).

(** [element.style.p = v] *)
Definition setStyle (r : Ref) (property : string) (v : Value) : Dom unit :=
  updateDom r (fun e =>
    mkDomElement (tagName e) (<[property := v]> (style e)) (classList e)
                 (innerHTML e) (childNodes e)).

(** [element.classList.add(c)]: a token list holds a token once. *)
Definition classListAdd (r : Ref) (c : string) : Dom unit :=
  updateDom r (fun e =>
    mkDomElement (tagName e) (style e)
                 (if bool_decide (elem_of c (classList e)) then classList e else classList e ++ [c])
                 (innerHTML e) (childNodes e)).

(** [element.innerHTML = s] *)
Definition setInnerHTML (r : Ref) (s : string) : Dom unit :=
  updateDom r (fun e => mkDomElement (tagName e) (style e) (classList e) s []).

(** [parent.appendChild(child)] for a child that is in no tree yet; the
    call throws a TypeError when [parent] is [undefined]. *)
Definition appendChild (parent : option Ref) (child : Ref) : Dom unit :=
  match parent with
  | Some r =>
      updateDom r (fun e =>
        mkDomElement (tagName e) (style e) (classList e) (innerHTML e)
                     (childNodes e ++ [child]))
  | None => throw TypeError
  end.

(** [document.getElementsByTagName("body")[0]] *)
Definition firstBody : Dom (option Ref) := fun p => (Normal (body p), p).

(** What the WebGL add-on of three.js answers. *)
Class WebGL := {
  (** [WebGL.isWebGL2Available()] *)
  isWebGL2Available : bool;
  (** the element [WebGL.getWebGL2ErrorMessage()] builds *)
  getWebGL2ErrorMessage : DomElement
}.

Section Page.
Context {gl : WebGL}.
Local Open Scope dom_scope.

(** *** The initialiser (functions.js 15-52) *)

Definition initialise : Dom unit :=
  (* THREE.Cache.enabled = true; *)
  (fun p => (Normal tt, withCacheEnabled true p)) ;;
  let* element := createElement "div" in
  setStyle element "position" (VString "fixed") ;;
  setStyle element "color" (VString "white") ;;
  setStyle element "backgroundColor" (VString "black") ;;
  setStyle element "top" (VNumber 0) ;;
  setStyle element "left" (VNumber 0) ;;
  setStyle element "width" (VString "100%") ;;
  setStyle element "textAlign" (VString "center") ;;
  setStyle element "display" (VString "none") ;;
  setStyle element "padding" (VString "0.25em") ;;
  setStyle element "fontFamily" (VString "sans-serif") ;;
  setStyle element "fontSize" (VString "0.75em") ;;
  classListAdd element "loading-manager" ;;
  let* parent := firstBody in
  appendChild parent element ;;
  (* THREE.DefaultLoadingManager.onStart = ...; onLoad; onProgress; onError *)
  (fun p => (Normal tt,
             withManager (LoadingManager.mk (Some (ShowStarting element))
                            (LoadingManager.onLoad (manager p))
                            (LoadingManager.onProgress (manager p))
                            (LoadingManager.onError (manager p))) p)) ;;
  (fun p => (Normal tt,
             withManager (LoadingManager.mk (LoadingManager.onStart (manager p))
                            (Some (HideBanner element))
                            (LoadingManager.onProgress (manager p))
                            (LoadingManager.onError (manager p))) p)) ;;
  (fun p => (Normal tt,
             withManager (LoadingManager.mk (LoadingManager.onStart (manager p))
                            (LoadingManager.onLoad (manager p))
                            (Some (ShowLoading element))
                            (LoadingManager.onError (manager p))) p)) ;;
  (fun p => (Normal tt,
             withManager (LoadingManager.mk (LoadingManager.onStart (manager p))
                            (LoadingManager.onLoad (manager p))
                            (LoadingManager.onProgress (manager p))
                            (Some (ShowError element))) p)).

(** The text of a progress report: ["Starting: " + url + " [" + loaded +
    "/" + total + "]"]; the counters are the manager's item counts. *)
Definition progressText (prefix url : string) (loaded total : nat) : string :=
  (prefix +:+ url +:+ " [" +:+ pretty loaded +:+ "/" +:+ pretty total +:+ "]")%string.

(** A callback of the loading manager, called with [url], [loaded] and
    [total] (the callbacks that take fewer arguments ignore the rest). *)
Definition runManagerCallback (cb : ManagerCallback) (url : string) (loaded total : nat)
  : Dom unit :=
  match cb with
  | ShowStarting element =>
      setInnerHTML element (progressText "Starting: " url loaded total) ;;
      setStyle element "display" (VString "block")
  | HideBanner element =>
      setInnerHTML element "" ;;
      setStyle element "display" (VString "none")
  | ShowLoading element =>
      setInnerHTML element (progressText "Loading: " url loaded total) ;;
      setStyle element "display" (VString "block")
  | ShowError element =>
      setInnerHTML element ("Error: " +:+ url)%string ;;
      setStyle element "display" (VString "block")
  end.

(** What the loading manager reports. *)
Inductive ManagerEvent :=
| LoadingStarts (url : string) (loaded total : nat)     (* onStart(url, loaded, total) *)
| LoadingEnds                                            (* onLoad() *)
| LoadingProgresses (url : string) (loaded total : nat) (* onProgress(url, loaded, total) *)
| LoadingFails (url : string).                           (* onError(url) *)

(** The manager calling the callback installed for the event, if any. *)
Definition report (e : ManagerEvent) : Dom unit := fun p =>
  let call (cb : option ManagerCallback) url loaded total : Completion unit * Page :=
    match cb with
    | Some cb => runManagerCallback cb url loaded total p
    | None => (Normal tt, p)
    end in
  match e with
  | LoadingStarts url loaded total =>
      call (LoadingManager.onStart (manager p)) url loaded total
  | LoadingEnds => call (LoadingManager.onLoad (manager p)) "" 0%nat 0%nat
  | LoadingProgresses url loaded total =>
      call (LoadingManager.onProgress (manager p)) url loaded total
  | LoadingFails url => call (LoadingManager.onError (manager p)) url 0%nat 0%nat
  end.

(** *** isSupported (functions.js 61-73) *)

Definition isSupported : Dom bool :=
  if negb isWebGL2Available then
    let* element := createElement "div" in
    setStyle element "position" (VString "fixed") ;;
    setStyle element "bottom" (VNumber 0) ;;
    setStyle element "right" (VNumber 0) ;;
    classListAdd element "webgl2-unsupported" ;;
    let* message := (fun p => (Normal (length (elements p)),
                               withElements (elements p ++ [getWebGL2ErrorMessage]) p)) in
    appendChild (Some element) message ;;
    let* parent := firstBody in
    appendChild parent element ;;
    unit_ false
  else unit_ true.

(** What the page does next: the module's code or the loading manager. *)
Inductive PageEvent :=
| CallIsSupported
| Report (e : ManagerEvent).

(** The page after an event; an exception ends the event, not the page. *)
Definition pageStep (e : PageEvent) (p : Page) : Page :=
  match e with
  | CallIsSupported => snd (isSupported p)
  | Report e => snd (report e p)
  end.

Definition pageRun (es : list PageEvent) (p : Page) : Page :=
  fold_left (fun p e => pageStep e p) es p.

End Page.

(** ** Calling an exported function

    Each of the six helpers takes one parameter and destructures it in
    its parameter list ([export function setBackground({ color =
    0x666666, ... })], functions.js 90, 167, 252, 376, 496, 584).
    Destructuring [undefined] or [null] throws a TypeError, so a call
    without an options object ends before the first statement of the body
    runs. With an options object the body runs; it has no [throw], and
    the three.js calls it makes and the callbacks it calls are taken to
    return. *)
Inductive Argument (T : Type) :=
| WithoutOptions                  (* f(), f(undefined), f(null) *)
| WithOptions (o : T).            (* f({ ... }), f(x) for any other x *)
Arguments WithoutOptions {T}.
Arguments WithOptions {T} o.

(** A call of [setBackground], [setResponsive], [renderShape] or
    [renderBox]: the TypeError of the parameter list leaves the call. *)
Definition callExported {T A} (f : T -> M A) (a : Argument T)
  : World -> Completion A * World :=
  fun w =>
    match a with
    | WithoutOptions => (Throw TypeError, w)
    | WithOptions o => let (x, w') := f o w in (Normal x, w')
    end.

(** A call of [renderText] or [renderGltfModel], which are [async]
    functions (functions.js 252, 584): the TypeError of the parameter list
    does not leave the call, which returns a new promise rejected with it.
    The error is a new object too, a plain one here. *)
Definition callAsync {T} (f : T -> M Ref) (a : Argument T)
  : World -> Completion Ref * World :=
  fun w =>
    match a with
    | WithoutOptions =>
        let error := length (heap w) in
        (Normal (S error),
         withHeap (heap w ++ [OPlain; OPromise (Rejected (VObject error))]) w)
    | WithOptions o => let (x, w') := f o w in (Normal x, w')
    end.

(** ** What the helpers are shown to do: derived notions *)

Section Specification.
Context {host : Host}.

(** A scene with its background replaced. *)
Definition sceneWithBackground (b : Background) (s : Scene) : HostObject :=
  OScene (mkScene (Some b) (environment s) (children s)).

(** The texture a completed image load paints: functions.js 117-119. *)
Definition imageTexture (t : Texture) : Texture :=
  mkTexture (source t) (Some EquirectangularReflectionMapping) (Some SRGBColorSpace).

(** The texture a completed HDR or EXR load paints: functions.js 123, 129. *)
Definition panoramaTexture (t : Texture) : Texture :=
  mkTexture (source t) (Some EquirectangularReflectionMapping) (colorSpace t).

(** The world after a renderer built the element [o] in [w]: the element
    is the newest object of the heap, it is registered when [animate] is a
    function and added to [scene] when that is a scene. *)
Definition placed (w : World) (o : Object3D) (animate scene : Value) : World :=
  let r := length (heap w) in
  let w1 := withHeap (heap w ++ [OObject3D o]) w in
  let w2 :=
    match asFunction animate with
    | Some f => withAnimationList (animationList w ++ [mkEntry r f]) w1
    | None => w1
    end in
  match asScene scene w with
  | Some s =>
      withTrace (trace w ++ [SceneAdd s r])
        (withHeap (alter (addChild r) s (heap w ++ [OObject3D o])) w2)
  | None => w2
  end.

(** The material, the requests and the element of [renderShape]. *)
Definition shapeMaterial (o : ShapeOptions.t) : Material :=
  match ShapeOptions.texture o with
  | VString _ =>
      MeshBasicMaterial (Some (mkTexture (ShapeOptions.texture o) None (Some SRGBColorSpace)))
                        None (Some DoubleSide)
  | _ =>
      MeshBasicMaterial None (Some (orDefault (VNumber 0xffffff) (ShapeOptions.color o)))
                        (Some DoubleSide)
  end.

Definition textureRequest (path : Value) : Request :=
  mkRequest TextureLoader path None None false.

Definition shapeRequested (o : ShapeOptions.t) (w : World) : World :=
  match ShapeOptions.texture o with
  | VString _ => withRequests (requests w ++ [textureRequest (ShapeOptions.texture o)]) w
  | _ => w
  end.

Definition shapeElement (o : ShapeOptions.t) : Object3D :=
  mkObject3D (Mesh (shapeGeometry o) (OneMaterial (shapeMaterial o)))
    (ShapeOptions.scaleX o, ShapeOptions.scaleY o, ShapeOptions.scaleZ o)
    (VNumber (ShapeOptions.posX o), ShapeOptions.posY o, ShapeOptions.posZ o).

(** The materials, the requests and the element of [renderBox]. *)
Definition textured (path : Value) : Material :=
  MeshBasicMaterial (Some (mkTexture path None (Some SRGBColorSpace))) None None.

Definition boxGeometry (o : BoxOptions.t) : Geometry :=
  BoxGeometry (BoxOptions.width o) (BoxOptions.height o) (BoxOptions.depth o)
    (BoxOptions.widthSegments o) (BoxOptions.heightSegments o) (BoxOptions.depthSegments o).

Definition boxVisual (o : BoxOptions.t) : Visual :=
  let color := orDefault (VNumber 0xffffff) (BoxOptions.color o) in
  match orDefault (VBoolean true) (BoxOptions.isSolid o) with
  | VBoolean true =>
      match orDefault (VArray []) (BoxOptions.textures o) with
      | VArray (t :: ts) =>
          Mesh (boxGeometry o) (MaterialArray (List.map textured (fillFlat (t :: ts))))
      | _ => Mesh (boxGeometry o) (OneMaterial (MeshPhongMaterial None color))
      end
  | _ => LineSegments (EdgesGeometry (boxGeometry o)) (LineBasicMaterial color)
  end.

Definition boxRequested (o : BoxOptions.t) (w : World) : World :=
  match orDefault (VBoolean true) (BoxOptions.isSolid o) with
  | VBoolean true =>
      match orDefault (VArray []) (BoxOptions.textures o) with
      | VArray (t :: ts) =>
          withRequests (requests w ++ List.map textureRequest (fillFlat (t :: ts))) w
      | _ => w
      end
  | _ => w
  end.

Definition boxElement (o : BoxOptions.t) : Object3D :=
  mkObject3D (boxVisual o)
    (BoxOptions.scaleX o, BoxOptions.scaleY o, BoxOptions.scaleZ o)
    (VNumber (BoxOptions.posX o), BoxOptions.posY o, BoxOptions.posZ o).

(** The object a call created: the one its result refers to. *)
Definition created (c : M Ref) (w : World) : option HostObject :=
  heap (exec c w) !! result c w.

(** The two UV coordinates the loop pushes for vertex [p]. *)
Definition uvOf (bmin size p : Vector3) : list float :=
  [(vx p - vx bmin) / vx size; (vy p - vy bmin) / vy size].

(** The geometry of the mesh [renderShape] built. *)
Definition builtGeometry (o : ShapeOptions.t) (w : World) : option Geometry :=
  match created (renderShape o) w with
  | Some (OObject3D e) =>
      match visual e with
      | Mesh g _ => Some g
      | _ => None
      end
  | _ => None
  end.

(** The geometry, the material and the element of [textLoaded]. *)
Definition textGeometry (o : TextOptions.t) (loadedFont : Font) : Geometry :=
  match TextOptions.flat o with
  | VBoolean true =>
      ShapeGeometry (GeneratedShapes loadedFont (TextOptions.text o) (TextOptions.size o)) None
  | _ =>
      TextGeometry (TextOptions.text o)
        (mkTextParameters loadedFont (TextOptions.size o) (TextOptions.depth o)
           (TextOptions.curveSegments o) (TextOptions.bevelEnabled o)
           (TextOptions.bevelThickness o) (TextOptions.bevelSize o)
           (TextOptions.bevelOffset o) (TextOptions.bevelSegments o))
  end.

Definition textMaterial (o : TextOptions.t) : Materials :=
  let color := orDefault (VNumber 0xffffff) (TextOptions.color o) in
  match TextOptions.flat o with
  | VBoolean true => OneMaterial (MeshBasicMaterial None (Some color) (Some DoubleSide))
  | _ => MaterialArray [MeshPhongMaterial (Some true) color; MeshPhongMaterial None color]
  end.

(** The X position [textLoaded] resolves: functions.js 308-311. *)
Definition textPosX (o : TextOptions.t) (geometry : Geometry) : Value :=
  match TextOptions.posX o with
  | VUndefined =>
      VNumber (-0.5 * (vx (box_max (computeBoundingBox geometry))
                       - vx (box_min (computeBoundingBox geometry))))
  | posX => posX
  end.

Definition textElement (o : TextOptions.t) (loadedFont : Font) : Object3D :=
  mkObject3D (Mesh (textGeometry o loadedFont) (textMaterial o))
    (TextOptions.scaleX o, TextOptions.scaleY o, TextOptions.scaleZ o)
    (textPosX o (textGeometry o loadedFont), TextOptions.posY o, TextOptions.posZ o).

Definition fulfilled (p v : Ref) (w : World) : World :=
  withHeap (alter (fulfil v) p (heap w)) w.

(** The x-extent of an element in world space, for an element that is not
    rotated: scale times the extent of its geometry, moved by its
    position; and whether the middle of that extent is the origin. *)
Definition worldExtentX (e : Object3D) (box : Box3) : option (float * float) :=
  match position e with
  | (VNumber px, _, _) =>
      let '(sx, _, _) := scale e in
      Some (sx * vx (box_min box) + px, sx * vx (box_max box) + px)
  | _ => None
  end.

(** Whether the middle of that extent is the origin. *)
Definition centredAtOrigin (e : Object3D) (box : Box3) : bool :=
  match worldExtentX e box with
  | Some (lo, hi) => (lo + hi =? 0)
  | None => false
  end.

(** The mixer [gltfLoaded] attaches: functions.js 599-603. *)
Definition gltfMixer (o : GltfOptions.t) (modelScene : Ref) (animations : option (list Clip))
  : option AnimationMixer :=
  match asFunction (GltfOptions.animate o), animations with
  | Some _, Some clips => Some (playEach clips (mkMixer modelScene []))
  | _, _ => None
  end.

(** The world after the GLTF loader built the asset in [w] and called the
    callback of [renderGltfModel o]: the root is object [length (heap w)]
    and the asset the one after it. *)
Definition gltfDelivered (o : GltfOptions.t) (p : Ref) (root : Object3D)
    (animations : option (list Clip)) (w : World) : World :=
  let modelScene := length (heap w) in
  let loadedModel := S modelScene in
  let h :=
    heap w ++
      [OObject3D (mkObject3D (visual root)
         (GltfOptions.scaleX o, GltfOptions.scaleY o, GltfOptions.scaleZ o)
         (VNumber (GltfOptions.posX o), GltfOptions.posY o, GltfOptions.posZ o));
       OGltf (mkGltf modelScene animations (gltfMixer o modelScene animations))] in
  let al :=
    animationList w ++
      match asFunction (GltfOptions.animate o) with
      | Some f => [mkEntry loadedModel f]
      | None => []
      end in
  match asScene (GltfOptions.scene o) w with
  | Some s =>
      mkWorld (window w) (alter (fulfil loadedModel) p (alter (addChild modelScene) s h))
        al (console w) (listeners w) (requests w) (trace w ++ [SceneAdd s modelScene])
  | None =>
      mkWorld (window w) (alter (fulfil loadedModel) p h)
        al (console w) (listeners w) (requests w) (trace w)
  end.

(** The canvas after the policy ran and its client size was copied into
    its backing size. *)
Definition copied (f : Function) (win : Window) (e : HTMLElement) : HTMLElement :=
  let e1 := reflow (fn_canvas f win e) in
  mkElement (style_width e1) (style_height e1) (clientWidth e1) (clientHeight e1)
            (clientWidth e1) (clientHeight e1).

(** Whether renderer [r] draws into [canvas]. *)
Definition drawsInto (r canvas : Ref) : bool :=
  bool_decide (domElement r = Some canvas).

(** A canvas after a renderer that had received [cs] took the call [c]:
    resized and laid out again if the renderer draws into it ([draws]),
    left alone otherwise. *)
Definition sizedBy (draws : bool) (cs : list RendererCall) (c : RendererCall)
    (e : HTMLElement) : HTMLElement :=
  if draws then reflow (resizeOutput cs c e) else e.

(** The canvas when the handler reads the size it hands to [setSize]:
    after [setPixelRatio]. *)
Definition ratioed (f : Function) (win : Window) (draws : bool)
    (calls : list RendererCall) (e : HTMLElement) : HTMLElement :=
  sizedBy draws calls (SetPixelRatio (devicePixelRatio win)) (copied f win e).

(** The two calls the handler makes on the renderer. *)
Definition requested (f : Function) (win : Window) (draws : bool)
    (calls : list RendererCall) (e : HTMLElement) : list RendererCall :=
  let e3 := ratioed f win draws calls e in
  [SetPixelRatio (devicePixelRatio win); SetSize (clientWidth e3) (clientHeight e3)].

(** The canvas after the handler ran: after [setSize]. *)
Definition resized (f : Function) (win : Window) (draws : bool)
    (calls : list RendererCall) (e : HTMLElement) : HTMLElement :=
  let e3 := ratioed f win draws calls e in
  sizedBy draws (calls ++ [SetPixelRatio (devicePixelRatio win)])
          (SetSize (clientWidth e3) (clientHeight e3)) e3.

(** The canvas and the calls of the renderer after the handler ran [n]
    times in a row. *)
Fixpoint resizedTimes (n : nat) (f : Function) (win : Window) (draws : bool)
    (calls : list RendererCall) (e : HTMLElement) : HTMLElement * list RendererCall :=
  match n with
  | O => (e, calls)
  | S n =>
      resizedTimes n f win draws (calls ++ requested f win draws calls e)
                   (resized f win draws calls e)
  end.

(** [triple P c Q]: from a world in [P], [c] returns a value and a world
    in [Q]. *)
Definition triple {A} (P : World -> Prop) (c : M A) (Q : A -> World -> Prop) : Prop :=
  forall w, P w -> Q (fst (c w)) (snd (c w)).

(** What the resize handler works on, and what it has done so far: the
    canvas, the calls of the renderer, the camera and the trace, in a
    window that stays as it is. *)
Definition staged (canvas renderer camera : Ref) (win : Window) (k : CameraKind)
    (e : HTMLElement) (cs : list RendererCall) (c : Camera) (tr : list Effect)
    (w : World) : Prop :=
  heap w !! canvas = Some (OElement e)
  /\ heap w !! renderer = Some (ORenderer cs)
  /\ heap w !! camera = Some (OCamera k c)
  /\ trace w = tr
  /\ window w = win.

(** *** Relations every operation respects *)

(** [stable R c]: running [c] moves the world along [R]. *)
Definition stable (R : World -> World -> Prop) {A} (c : M A) : Prop :=
  forall w, R w (snd (c w)).

(** The promise a success callback resolves. *)
Definition resolves (cb : OnLoad) : option Ref :=
  match cb with
  | TextLoaded _ p | GltfLoaded _ p => Some p
  | _ => None
  end.

(** A relation on worlds that every primitive of the module respects;
    [resolve q] is only asked to respect it when [mayResolve q]. *)
Class Respected (R : World -> World -> Prop) (mayResolve : Ref -> Prop) : Prop := {
  respected_refl :: Reflexive R;
  respected_trans :: Transitive R;
  respected_window : forall win w, R w (withWindow win w);
  respected_update : forall r f,
    (forall st, f (OPromise st) = OPromise st) -> stable R (update r f);
  respected_resolve : forall q v, mayResolve q -> stable R (resolve q v);
  respected_alloc : forall o, stable R (alloc o);
  respected_emit : forall e, stable R (emit e);
  respected_consoleError : forall m, stable R (consoleError m);
  respected_addEventListener : forall t h, stable R (addEventListener t h);
  respected_push : forall e, stable R (push e);
  respected_settle : forall i, stable R (settle i);
  respected_load : forall l u cb,
    (forall c, cb = Some c -> resolves c = None) -> stable R (load l u cb);
  (** [new Promise] followed by the load whose callback resolves it *)
  respected_spawn : forall l u (cb : Ref -> OnLoad),
    (forall q, resolves (cb q) = Some q) ->
    stable R (let* loaded := alloc (OPromise Pending) in
              load l u (Some (cb loaded)) ;; ret loaded)%js
}.

(** The callback resolves only a promise it may resolve. *)
Definition gentle (mayResolve : Ref -> Prop) (cb : OnLoad) : Prop :=
  forall q, resolves cb = Some q -> mayResolve q.

(** The registry only grows at its end. *)
Definition extends (w w' : World) : Prop :=
  exists suffix, animationList w' = animationList w ++ suffix.

(** What slot [p] of the heap holds keeps satisfying [P]. *)
Definition holds (P : HostObject -> Prop) (p : Ref) (w : World) : Prop :=
  exists x, heap w !! p = Some x /\ P x.

(** Moving from [w] to [w'] keeps [P] at slot [p]. *)
Definition keeps (P : HostObject -> Prop) (p : Ref) (w w' : World) : Prop :=
  holds P p w -> holds P p w'.

(** [resolve q] respects [P] at [p]: it is another promise, or [P] is
    closed under fulfilment. *)
Definition resolvable (P : HostObject -> Prop) (p q : Ref) : Prop :=
  q <> p \/ forall v x, P x -> P (fulfil v x).

(** The heap does not shrink; a request keeps its index and its callback
    and stays settled once settled; a new request resolves a promise that
    did not exist before. *)
Definition grows (w w' : World) : Prop :=
  length (heap w) <= length (heap w')
  /\ (forall i r, requests w !! i = Some r ->
        exists r', requests w' !! i = Some r' /\ onLoad r' = onLoad r
                   /\ (settled r = true -> settled r' = true))
  /\ (forall i r' cb t, requests w' !! i = Some r' -> requests w !! i = None ->
        onLoad r' = Some cb -> resolves cb = Some t ->
        length (heap w) <= t < length (heap w')).

(** Every promise a request resolves is an object of the heap. *)
Definition wellFormed (w : World) : Prop :=
  forall i r cb t, requests w !! i = Some r -> onLoad r = Some cb ->
    resolves cb = Some t -> t < length (heap w).

(** A promise that has not been rejected; a promise that is pending. *)
Definition unrejected (x : HostObject) : Prop :=
  x = OPromise Pending \/ exists v, x = OPromise (Fulfilled v).

Definition pending (x : HostObject) : Prop := x = OPromise Pending.

(** Promise [p] is pending and no unsettled request but [q] resolves it. *)
Definition guarded (p q : Ref) (w : World) : Prop :=
  heap w !! p = Some (OPromise Pending)
  /\ forall i r cb, requests w !! i = Some r -> settled r = false ->
       onLoad r = Some cb -> resolves cb = Some p -> i = q.

(** Request [q] has completed, with success or failure. *)
Definition isSettled (q : nat) (w : World) : Prop :=
  exists r, requests w !! q = Some r /\ settled r = true.

(** No request in flight resolves the promise the next [new Promise] builds. *)
Definition fresh (w : World) : Prop :=
  forall i r cb, requests w !! i = Some r -> onLoad r = Some cb ->
    resolves cb <> Some (length (heap w)).

(** [LoadSucceeds q _] does not occur in [es]. *)
Definition withoutSuccess (q : nat) (es : list Event) : Prop :=
  Forall (fun e => forall a, e <> LoadSucceeds q a) es.

(** *** The page *)

Section PageSpecification.
Context {gl : WebGL}.

(** An element with other children. *)
Definition withChildren (cs : list Ref) (e : DomElement) : DomElement :=
  mkDomElement (tagName e) (style e) (classList e) (innerHTML e) cs.

(** The banner [isSupported] builds around the message element [message]:
    functions.js 63-68. *)
Definition unsupportedBanner (message : Ref) : DomElement :=
  mkDomElement "div"
    (<["right" := VNumber 0]>
       (<["bottom" := VNumber 0]> (<["position" := VString "fixed"]> empty)))
    ["webgl2-unsupported"] "" [message].

(** The style the initialiser gives the loading banner, but for [display]:
    functions.js 21-31. *)
Definition loadingStyle : gmap string Value :=
  <["fontSize" := VString "0.75em"]>
    (<["fontFamily" := VString "sans-serif"]>
       (<["padding" := VString "0.25em"]>
          (<["display" := VString "none"]>
             (<["textAlign" := VString "center"]>
                (<["width" := VString "100%"]>
                   (<["left" := VNumber 0]>
                      (<["top" := VNumber 0]>
                         (<["backgroundColor" := VString "black"]>
                            (<["color" := VString "white"]>
                               (<["position" := VString "fixed"]> empty)))))))))).

(** The loading banner showing [text]; hidden when [text] is [None]. *)
Definition loadingBanner (text : option string) : DomElement :=
  mkDomElement "div"
    (<["display" := VString (match text with Some _ => "block" | None => "none" end)]>
       loadingStyle)
    ["loading-manager"] (default "" text) [].

(** The manager with the four callbacks of the initialiser on [element]. *)
Definition installed (element : Ref) : LoadingManager.t :=
  LoadingManager.mk (Some (ShowStarting element)) (Some (HideBanner element))
    (Some (ShowLoading element)) (Some (ShowError element)).

(** What the loading banner shows after the report [e]. *)
Definition shown (e : ManagerEvent) : option string :=
  match e with
  | LoadingStarts url loaded total => Some (progressText "Starting: " url loaded total)
  | LoadingEnds => None
  | LoadingProgresses url loaded total => Some (progressText "Loading: " url loaded total)
  | LoadingFails url => Some ("Error: " +:+ url)%string
  end.

(** The last report among the events, if any. *)
Fixpoint lastReport (es : list PageEvent) (seen : option ManagerEvent)
  : option ManagerEvent :=
  match es with
  | [] => seen
  | CallIsSupported :: rest => lastReport rest seen
  | Report e :: rest => lastReport rest (Some e)
  end.

(** Whether an element is on display. *)
Definition displayed (e : DomElement) : bool :=
  match style e !! "display" with
  | Some (VString "none") => false
  | _ => true
  end.

(** The four callbacks write to element [n], and the body is another
    element of the page. *)
Definition managed (n b : Ref) (p : Page) : Prop :=
  manager p = installed n /\ body p = Some b /\ b <> n
  /\ exists be, elements p !! b = Some be.

End PageSpecification.

(** *** Calls in a row *)

(** A call of a synchronous renderer that is given the scene [scene]. *)
Definition rendersInto (scene : Ref) (c : Call) : Prop :=
  match c with
  | CallRenderShape o => ShapeOptions.scene o = VObject scene
  | CallRenderBox o => BoxOptions.scene o = VObject scene
  | _ => False
  end.

(** The element such a call builds. *)
Definition builtBy (c : Call) : option Object3D :=
  match c with
  | CallRenderShape o => Some (shapeElement o)
  | CallRenderBox o => Some (boxElement o)
  | _ => None
  end.

(** The world right after [setBackground o] was called with scene [r],
    which held [s]: functions.js 99-135. *)
Definition backgroundSet (o : BackgroundOptions.t) (r : Ref) (s : Scene) (w : World) : World :=
  let dark := BackgroundOptions.dark o in
  let light := BackgroundOptions.light o in
  let painted b :=
    withTrace (trace w ++ [WriteBackground r])
      (withHeap (<[r := sceneWithBackground b s]> (heap w)) w) in
  let requested l u cb :=
    withRequests (requests w ++ [mkRequest l u (Some cb) None false]) w in
  if defined dark && defined light then
    withListeners (listeners w ++ [mkListener DarkSchemeQuery (SchemeListener r dark light)])
      (painted (Color (if prefersDark (window w) then dark else light)))
  else if defined (BackgroundOptions.image o) then
    requested TextureLoader (BackgroundOptions.image o) (BackgroundImage r)
  else if defined (BackgroundOptions.hdr o) then
    requested RGBELoader (BackgroundOptions.hdr o) (BackgroundHdr r)
  else if defined (BackgroundOptions.exr o) then
    requested EXRLoader (BackgroundOptions.exr o) (BackgroundExr r)
  else painted (Color (orDefault (VNumber 0x666666) (BackgroundOptions.color o))).

(** *** How the world may change while the page runs *)

(** What may become of an object of the heap: it keeps its class; a scene
    keeps its children and gets new ones at the end; a renderer keeps the
    calls it received; a camera keeps its kind; an element keeps what it
    shows; a loaded asset keeps its root and its clips; a promise that is
    settled stays as it is. *)
Definition ages (x x' : HostObject) : Prop :=
  match x, x' with
  | OScene s, OScene s' => exists suffix, children s' = children s ++ suffix
  | OElement _, OElement _ => True
  | ORenderer cs, ORenderer cs' => exists suffix, cs' = cs ++ suffix
  | OCamera k _, OCamera k' _ => k' = k
  | OObject3D e, OObject3D e' => visual e' = visual e
  | OGltf g, OGltf g' =>
      gltf_scene g' = gltf_scene g /\ gltf_animations g' = gltf_animations g
  | OPromise p, OPromise p' => p = Pending \/ p' = p
  | OPlain, OPlain => True
  | _, _ => False
  end.

(** Moving from [w] to [w']: every object ages; listeners are only added,
    and only if [mayListen]; the console only gets messages that satisfy
    [mayLog]; a request keeps its place, its loader, its URL and its
    callback, and is marked as done only if [maySettle]. *)
Definition drift (mayLog : string -> Prop) (mayListen : Prop) (maySettle : nat -> Prop)
    (w w' : World) : Prop :=
  (forall r x, heap w !! r = Some x -> exists x', heap w' !! r = Some x' /\ ages x x')
  /\ (exists ls, listeners w' = listeners w ++ ls /\ (mayListen \/ ls = []))
  /\ (exists ms, console w' = console w ++ ms /\ Forall mayLog ms)
  /\ (forall i q, requests w !! i = Some q ->
        exists q', requests w' !! i = Some q' /\ loader q' = loader q /\ url q' = url q
          /\ onLoad q' = onLoad q
          /\ (settled q' = settled q \/ (maySettle i /\ settled q' = true))).

(** The two diagnostics of the module: functions.js 137 and 195. *)
Definition backgroundDiagnostic : string := "Invalid options for 'setBackground' function.".
Definition responsiveDiagnostic : string := "Invalid options for 'setResponsive' function.".

Definition diagnostic (m : string) : Prop :=
  m = backgroundDiagnostic \/ m = responsiveDiagnostic.

(** What an event needs to be allowed to do. *)
Definition permitted (mayLog : string -> Prop) (mayListen : Prop) (maySettle : nat -> Prop)
    (e : Event) : Prop :=
  match e with
  | Invoke (CallSetBackground _) => mayListen /\ mayLog backgroundDiagnostic
  | Invoke (CallSetResponsive _) => mayListen /\ mayLog responsiveDiagnostic
  | LoadSucceeds i _ | LoadFails i => maySettle i
  | _ => True
  end.

(** The calls that validate their options. *)
Definition validates (e : Event) : bool :=
  match e with
  | Invoke (CallSetBackground _) | Invoke (CallSetResponsive _) => true
  | _ => false
  end.

(** The event is not the end of load [q]. *)
Definition leaves (q : nat) (e : Event) : Prop :=
  match e with
  | LoadSucceeds i _ | LoadFails i => i <> q
  | _ => True
  end.

End Specification.

(** ** A sample host and sample inputs

    Used by the examples at the end: a host whose layout gives an element
    the pixel size of its style, whose renderer (object 2) draws into the
    canvas (object 1) and resizes it as three.js documents, whose text
    bounding box is the box from (0, 0, 0) to (10, 8, 3) and whose shape
    geometry has the end points of the path as vertices; a page with one
    scene, one canvas, one renderer and one camera on a dark-scheme 800 by
    600 window of pixel ratio 2. *)

Definition pathVertices (s : Shape) : list Vector3 :=
  flat_map (fun c =>
    match c with
    | MoveTo x y | LineTo x y | QuadraticCurveTo _ _ x y => [mkVector3 x y 0]
    | ClosePath => []
    end) s.

Definition least (a b : float) : float := if a <? b then a else b.
Definition greatest (a b : float) : float := if a <? b then b else a.

Definition boxOfPoints (ps : list Vector3) : Box3 :=
  fold_left (fun b p =>
    mkBox3 (mkVector3 (least (vx (box_min b)) (vx p)) (least (vy (box_min b)) (vy p))
                      (least (vz (box_min b)) (vz p)))
           (mkVector3 (greatest (vx (box_max b)) (vx p)) (greatest (vy (box_max b)) (vy p))
                      (greatest (vz (box_max b)) (vz p))))
    ps
    (mkBox3 (mkVector3 infinity infinity infinity)
            (mkVector3 neg_infinity neg_infinity neg_infinity)).

(** [Math.floor]. Below 2^52 in size, adding and taking away 2^52 rounds
    to a whole number, which is the floor or the whole number above it;
    every other double is whole, infinite or NaN and is its own floor. *)
Definition floor (x : float) : float :=
  if x =? 0 then x
  else if abs x <? 0x1p+52 then
    let r := if 0 <? x then (x + 0x1p+52) - 0x1p+52 else (x - 0x1p+52) + 0x1p+52 in
    if x <? r then r - 1 else r
  else x.

(** The pixel ratio of a three.js renderer: the one last set, 1 before. *)
Definition pixelRatioOf (cs : list RendererCall) : float :=
  fold_left (fun r c => match c with SetPixelRatio x => x | SetSize _ _ => r end) cs 1.

(** Its size: the one last set; before, the backing size its canvas had
    when it was built, here 300 by 150. *)
Definition sizeOf (cs : list RendererCall) : float * float :=
  fold_left (fun s c => match c with SetSize w h => (w, h) | SetPixelRatio _ => s end) cs
            (300, 150).

(** What three.js's WebGLRenderer does to its canvas outside an XR
    session. [setSize(w, h)] sets the backing size to floor(w *
    pixelRatio) by floor(h * pixelRatio) and the style to w px by h px;
    [setPixelRatio(r)] sets the backing size from the size last set and
    leaves the style. *)
Definition threeResize (cs : list RendererCall) (c : RendererCall) (e : HTMLElement)
  : HTMLElement :=
  match c with
  | SetPixelRatio r =>
      mkElement (style_width e) (style_height e) (clientWidth e) (clientHeight e)
                (floor (fst (sizeOf cs) * r)) (floor (snd (sizeOf cs) * r))
  | SetSize w h =>
      mkElement (CssPx w) (CssPx h) (clientWidth e) (clientHeight e)
                (floor (w * pixelRatioOf cs)) (floor (h * pixelRatioOf cs))
  end.

Definition sampleHost : Host := {|
  computeBoundingBox := fun _ => mkBox3 (mkVector3 0 0 0) (mkVector3 10 8 3);
  shapePositions := pathVertices;
  setFromBufferAttribute := boxOfPoints;
  getSize := fun b =>
    mkVector3 (vx (box_max b) - vx (box_min b)) (vy (box_max b) - vy (box_min b))
              (vz (box_max b) - vz (box_min b));
  reflow := fun e =>
    match style_width e, style_height e with
    | CssPx w, CssPx h => mkElement (style_width e) (style_height e) w h (width e) (height e)
    | _, _ => e
    end;
  domElement := fun r => if (r =? 2)%nat then Some 1%nat else None;
  resizeOutput := threeResize
|}.

Definition emptyScene : Scene := mkScene None None [].

Definition sampleCanvas : HTMLElement := mkElement CssUnset CssUnset 300 150 300 150.

(** Objects 0 to 3: the scene, the canvas, the renderer, the camera. *)
Definition sampleWorld : World :=
  mkWorld (mkWindow true 800 600 2)
    [OScene emptyScene; OElement sampleCanvas; ORenderer [];
     OCamera PerspectiveCamera (mkCamera None None)]
    [] [] [] [] [].

Definition spin : Function := mkFunction 1 (fun s => s) (fun _ e => e).

Definition triangle : Function :=
  mkFunction 2 (fun s => s ++ [MoveTo 80 20; LineTo 40 80; LineTo 120 80; LineTo 80 20])
    (fun _ e => e).

(** Every background option at once. *)
Definition allBackgrounds : BackgroundOptions.t :=
  BackgroundOptions.mk (VNumber 0x336699) (VNumber 0) (VNumber 0xffffff)
    (VString "sky.png") (VString "sky.hdr") (VString "sky.exr") (VObject 0).

Definition sampleResponsive : ResponsiveOptions.t :=
  ResponsiveOptions.mk (VObject 1) (VObject 2) (VObject 3) VUndefined.

Definition boxWith (isSolid textures animate : Value) : BoxOptions.t :=
  BoxOptions.mk 10 10 10 1 1 1 VUndefined isSolid textures 1 1 1 0 0 0 (VObject 0) animate.

Definition shapeWith (radius : Value) (segments : float) (width height shape : Value)
  : ShapeOptions.t :=
  ShapeOptions.mk radius segments 0 1 0 2 width height 1 1 shape VUndefined VUndefined
    1 1 1 0 0 0 (VObject 0) VUndefined.

Definition textWith (scaleX : float) (posX animate : Value) : TextOptions.t :=
  TextOptions.mk "Hello, World!" "helvetiker.json" 10 3 VUndefined
    12 false 1 1 0 12 VUndefined scaleX 1 1 posX 0 0 (VObject 0) animate.

Definition gltfWith (animate : Value) : GltfOptions.t :=
  GltfOptions.mk "robot.glb" 1 1 1 0 0 0 (VObject 0) animate.

(** How many materials a mesh carries. *)
Definition materialCount (o : option HostObject) : option nat :=
  match o with
  | Some (OObject3D e) =>
      match visual e with
      | Mesh _ (MaterialArray ms) => Some (length ms)
      | Mesh _ (OneMaterial _) => Some 1%nat
      | _ => None
      end
  | _ => None
  end.

(** How many children a scene has. *)
Definition childCount (scene : Ref) (w : World) : option nat :=
  match heap w !! scene with
  | Some (OScene s) => Some (length (children s))
  | _ => None
  end.

(** A page with a body and nothing in it, a page that has no body yet,
    and a browser without WebGL2. *)
Definition bodyElement : DomElement := mkDomElement "body" empty [] "" [].

Definition samplePage : Page := mkPage false [bodyElement] (Some 0%nat) LoadingManager.initial.

Definition pageWithoutBody : Page := mkPage false [] None LoadingManager.initial.

Definition noWebGL2 : WebGL := {|
  isWebGL2Available := false;
  getWebGL2ErrorMessage := mkDomElement "div" empty [] "WebGL 2 is not available." []
|}.

(** A canvas that is laid out with no size, and a page with it. *)
Definition hiddenCanvas : HTMLElement := mkElement CssUnset CssUnset 0 0 300 150.

Definition hiddenWorld : World :=
  mkWorld (mkWindow true 800 600 2)
    [OScene emptyScene; OElement hiddenCanvas; ORenderer [];
     OCamera PerspectiveCamera (mkCamera None None)]
    [] [] [] [] [].

(** A policy that leaves the canvas as it is. *)
Definition keep : Function := mkFunction 3 (fun s => s) (fun _ e => e).

(** A canvas that is laid out with a width and no height, and a page with it. *)
Definition collapsedCanvas : HTMLElement := mkElement CssUnset CssUnset 300 0 300 150.

Definition collapsedWorld : World :=
  mkWorld (mkWindow true 800 600 2)
    [OScene emptyScene; OElement collapsedCanvas; ORenderer [];
     OCamera PerspectiveCamera (mkCamera None None)]
    [] [] [] [] [].

(** Only an image as background; only a colour as background. *)
Definition imageBackground : BackgroundOptions.t :=
  BackgroundOptions.mk VUndefined VUndefined VUndefined (VString "sky.png")
    VUndefined VUndefined (VObject 0).

Definition colourBackground : BackgroundOptions.t :=
  BackgroundOptions.mk (VNumber 0x336699) VUndefined VUndefined VUndefined
    VUndefined VUndefined (VObject 0).

(** A shape with a colour and a texture. *)
Definition texturedShape : ShapeOptions.t :=
  ShapeOptions.mk (VNumber 5) 3 0 1 0 2 VUndefined VUndefined 1 1 VUndefined
    (VNumber 0xff0000) (VString "t.png") 1 1 1 0 0 0 (VObject 0) VUndefined.

(** A text with a [flat] that is not the boolean true. *)
Definition nearlyFlatText : TextOptions.t :=
  TextOptions.mk "Hi" "helvetiker.json" 10 3 (VNumber 1)
    12 false 1 1 0 12 VUndefined 1 1 1 VUndefined 0 0 (VObject 0) VUndefined.

(** The root of a model as its file gives it: scaled and moved. *)
Definition authoredRoot : Object3D := mkObject3D Group (2, 2, 2) (VNumber 7, 7, 7).

(** The sample page later on: a box was rendered, a model with two clips
    was asked for and has arrived, the page was made responsive and
    resized once. Objects 4 to 7 are the box, the promise of the model,
    the root of the model and the loaded asset; the scene's children are
    the box and the root. *)
Definition busyWorld : World :=
  @run sampleHost
    [Invoke (CallRenderBox (boxWith (VBoolean true) VUndefined VUndefined));
     Invoke (CallRenderGltfModel (gltfWith (VFunction spin)));
     LoadSucceeds 0 (LoadedGltf authoredRoot (Some [11%nat; 12%nat]));
     Invoke (CallSetResponsive sampleResponsive);
     Resize]
    sampleWorld.

(** ** Properties *)

Section ListFacts.
Context {A : Type}.

Lemma lookup_snoc (l : list A) (x : A) : (l ++ [x]) !! length l = Some x.
Proof. induction l as [|a l IH]; simpl; [reflexivity | exact IH]. Qed.

Lemma alter_snoc (f : A -> A) (l : list A) (x : A) :
  alter f (length l) (l ++ [x]) = l ++ [f x].
Proof.
  induction l as [|a l IH]; simpl; [reflexivity |].
  change (a :: alter f (length l) (l ++ [x]) = a :: l ++ [f x]).
  now rewrite IH.
Qed.

Lemma alter_as_insert (f : A -> A) (l : list A) (i : nat) (x : A) :
  l !! i = Some x -> alter f i l = <[i := f x]> l.
Proof.
  revert i; induction l as [|a l IH]; intros [|i] Hl; simpl in *; try discriminate.
  - now inversion Hl.
  - change (a :: alter f i l = a :: <[i := f x]> l). now rewrite (IH i Hl).
Qed.

Lemma alter_below_snoc (f : A -> A) (l : list A) (i : nat) (x : A) :
  i < length l -> alter f i (l ++ [x]) = alter f i l ++ [x].
Proof.
  revert i; induction l as [|a l IH]; intros [|i] Hi; simpl in *; try lia.
  - reflexivity.
  - change (a :: alter f i (l ++ [x]) = a :: alter f i l ++ [x]).
    rewrite IH; [reflexivity | lia].
Qed.

Lemma alter_insert (f : A -> A) (l : list A) (i : nat) (x : A) :
  alter f i (<[i := x]> l) = <[i := f x]> l.
Proof.
  revert i; induction l as [|a l IH]; intros [|i]; simpl; try reflexivity.
  change (a :: alter f i (<[i := x]> l) = a :: <[i := f x]> l). now rewrite IH.
Qed.

End ListFacts.

Section Properties.
Context {host : Host}.

Lemma bind_eq {A B} (c : M A) (k : A -> M B) (w : World) :
  bind c k w = k (fst (c w)) (snd (c w)).
Proof. unfold bind. now destruct (c w). Qed.

Lemma bind_assoc {A B C} (c : M A) (f : A -> M B) (k : B -> M C) (w : World) :
  bind (bind c f) k w = bind c (fun x => bind (f x) k) w.
Proof. unfold bind. now destruct (c w). Qed.

Lemma asScene_ref (w : World) (r : Ref) (s : Scene) :
  heap w !! r = Some (OScene s) -> asScene (VObject r) w = Some r.
Proof. intros H. unfold asScene. now rewrite H. Qed.

Lemma writeBackground_scene (w : World) (r : Ref) (s : Scene) (b : Background) :
  heap w !! r = Some (OScene s) ->
  exec (writeBackground r b) w =
    withTrace (trace w ++ [WriteBackground r])
      (withHeap (<[r := sceneWithBackground b s]> (heap w)) w).
Proof.
  intros H. unfold writeBackground, exec, bind, update, emit. cbn.
  erewrite alter_as_insert by exact H. reflexivity.
Qed.

Lemma load_completes (w : World) (l : Loader) (u : Value) (cb : OnLoad) (a : Asset) :
  produces l a = true ->
  exec (step (LoadSucceeds (length (requests w)) a))
       (withRequests (requests w ++ [mkRequest l u (Some cb) None false]) w) =
  exec (runOnLoad cb a)
       (withRequests (requests w ++ [mkRequest l u (Some cb) None true]) w).
Proof.
  intros Hp. unfold exec, step. cbn [requests withRequests].
  rewrite lookup_snoc. cbn [settled loader onLoad orb]. rewrite Hp. cbn [negb].
  unfold bind, settle. cbn [requests withRequests].
  rewrite alter_snoc. reflexivity.
Qed.

(** C1. With a scene, [setBackground] takes exactly one of five branches,
    by precedence: (a) dark and light both given: the scene is painted with
    the colour of the current scheme and a scheme-change listener is
    registered, nothing is loaded; (b) else an image URL: exactly one
    TextureLoader request, whose completion paints the image; (c) else an
    HDR URL: exactly one RGBELoader request, whose completion sets
    background and environment; (d) else an EXR URL: the same with the
    EXRLoader; (e) else the flat colour (default 0x666666) is painted.
    Lower-priority options do not occur in the result of a branch. *)
Theorem setBackground_precedence (w : World) (o : BackgroundOptions.t) (r : Ref) (s : Scene) :
  BackgroundOptions.scene o = VObject r ->
  heap w !! r = Some (OScene s) ->
  let dark := BackgroundOptions.dark o in
  let light := BackgroundOptions.light o in
  let image := BackgroundOptions.image o in
  let hdr := BackgroundOptions.hdr o in
  let exr := BackgroundOptions.exr o in
  let color := orDefault (VNumber 0x666666) (BackgroundOptions.color o) in
  let w' := exec (setBackground o) w in
  let painted b :=
    withTrace (trace w ++ [WriteBackground r])
      (withHeap (<[r := sceneWithBackground b s]> (heap w)) w) in
  let requested l u cb :=
    withRequests (requests w ++ [mkRequest l u (Some cb) None false]) w in
  let completed t := exec (step (LoadSucceeds (length (requests w)) (LoadedTexture t))) w' in
  (defined dark && defined light = true ->
     w' = withListeners
            (listeners w ++ [mkListener DarkSchemeQuery (SchemeListener r dark light)])
            (painted (Color (if prefersDark (window w) then dark else light))))
  /\ (defined dark && defined light = false -> defined image = true ->
     w' = requested TextureLoader image (BackgroundImage r)
     /\ forall t, heap (completed t) =
          <[r := sceneWithBackground (TextureBackground (imageTexture t)) s]> (heap w))
  /\ (defined dark && defined light = false -> defined image = false ->
      defined hdr = true ->
     w' = requested RGBELoader hdr (BackgroundHdr r)
     /\ forall t, heap (completed t) =
          <[r := OScene (mkScene (Some (TextureBackground (panoramaTexture t)))
                                 (Some (panoramaTexture t)) (children s))]> (heap w))
  /\ (defined dark && defined light = false -> defined image = false ->
      defined hdr = false -> defined exr = true ->
     w' = requested EXRLoader exr (BackgroundExr r)
     /\ forall t, heap (completed t) =
          <[r := OScene (mkScene (Some (TextureBackground (panoramaTexture t)))
                                 (Some (panoramaTexture t)) (children s))]> (heap w))
  /\ (defined dark && defined light = false -> defined image = false ->
      defined hdr = false -> defined exr = false ->
     w' = painted (Color color)).
Proof.
  intros Hr Hs dark light image hdr exr color w' painted requested completed.
  assert (Hw' : w' =
    if defined dark && defined light then
      withListeners
        (listeners w ++ [mkListener DarkSchemeQuery (SchemeListener r dark light)])
        (painted (Color (if prefersDark (window w) then dark else light)))
    else if defined image then requested TextureLoader image (BackgroundImage r)
    else if defined hdr then requested RGBELoader hdr (BackgroundHdr r)
    else if defined exr then requested EXRLoader exr (BackgroundExr r)
    else painted (Color color)).
  { subst w'. unfold exec, setBackground. rewrite Hr, (asScene_ref w r s Hs).
    fold dark light image hdr exr color.
    destruct (defined dark && defined light).
    - unfold bind.
      destruct (prefersDark (window w)).
      + pose proof (writeBackground_scene w r s (Color dark) Hs) as E.
        unfold exec in E. destruct (writeBackground r (Color dark) w) as [u w1].
        cbn in E. subst w1. reflexivity.
      + pose proof (writeBackground_scene w r s (Color light) Hs) as E.
        unfold exec in E. destruct (writeBackground r (Color light) w) as [u w1].
        cbn in E. subst w1. reflexivity.
    - destruct (defined image); [reflexivity |].
      destruct (defined hdr); [reflexivity |].
      destruct (defined exr); [reflexivity |].
      apply (writeBackground_scene w r s (Color color) Hs). }
  assert (Hpan : forall l u cb t,
    (cb = BackgroundHdr r \/ cb = BackgroundExr r) ->
    heap (exec (runOnLoad cb (LoadedTexture t))
            (withRequests (requests w ++ [mkRequest l u (Some cb) None true]) w)) =
    <[r := OScene (mkScene (Some (TextureBackground (panoramaTexture t)))
                           (Some (panoramaTexture t)) (children s))]> (heap w)).
  { intros l u cb t Hcb.
    pose proof (writeBackground_scene
      (withRequests (requests w ++ [mkRequest l u (Some cb) None true]) w)
      r s (TextureBackground (panoramaTexture t)) Hs) as E.
    unfold exec in E |- *.
    assert (Hrun : runOnLoad cb (LoadedTexture t) =
      (writeBackground r (TextureBackground (panoramaTexture t)) ;;
       writeEnvironment r (panoramaTexture t))%js)
      by (destruct Hcb; subst cb; reflexivity).
    rewrite Hrun. unfold bind at 1.
    destruct (writeBackground r (TextureBackground (panoramaTexture t)) _) as [u0 w1].
    cbn in E. subst w1. unfold writeEnvironment, bind, update, emit. cbn.
    rewrite alter_insert. reflexivity. }
  split; [| split; [| split; [| split]]].
  - intros E. rewrite Hw', E. reflexivity.
  - intros E1 E2. rewrite Hw', E1, E2. split; [reflexivity |].
    intros t. subst completed. cbn beta. rewrite Hw', E1, E2. subst requested. cbn beta.
    rewrite load_completes by reflexivity.
    cbn [runOnLoad]. unfold backgroundImageLoaded.
    erewrite writeBackground_scene by exact Hs. reflexivity.
  - intros E1 E2 E3. rewrite Hw', E1, E2, E3. split; [reflexivity |].
    intros t. subst completed. cbn beta. rewrite Hw', E1, E2, E3. subst requested. cbn beta.
    rewrite load_completes by reflexivity. apply Hpan. now left.
  - intros E1 E2 E3 E4. rewrite Hw', E1, E2, E3, E4. split; [reflexivity |].
    intros t. subst completed. cbn beta. rewrite Hw', E1, E2, E3, E4. subst requested. cbn beta.
    rewrite load_completes by reflexivity. apply Hpan. now right.
  - intros E1 E2 E3 E4. rewrite Hw', E1, E2, E3, E4. reflexivity.
Qed.

(** *** What a renderer leaves behind *)

Lemma asScene_snoc (v : Value) (w w' : World) (o : Object3D) :
  heap w' = heap w ++ [OObject3D o] -> asScene v w' = asScene v w.
Proof.
  intros Hh. destruct v; try reflexivity. unfold asScene. rewrite Hh.
  destruct (decide (r < length (heap w))) as [Hlt | Hge].
  - now rewrite lookup_app_l.
  - assert (E : heap w !! r = None) by (apply lookup_ge_None_2; lia).
    rewrite E.
    destruct (decide (r = length (heap w))) as [-> | Hne].
    + now rewrite lookup_snoc.
    + assert (E' : (heap w ++ [OObject3D o]) !! r = None)
        by (apply lookup_ge_None_2; rewrite length_app; simpl; lia).
      now rewrite E'.
Qed.

Lemma newObject3D_then {B} (w : World) (v : Visual) (sx sy sz : float)
    (px : Value) (py pz : float) (animate scene : Value) (k : Ref -> M B) :
  (let* mesh := newObject3D v in
   setScale mesh sx sy sz ;;
   setPosition mesh px py pz ;;
   register animate mesh ;;
   attach scene mesh ;;
   k mesh)%js w =
  k (length (heap w)) (placed w (mkObject3D v (sx, sy, sz) (px, py, pz)) animate scene).
Proof.
  unfold newObject3D, setScale, setPosition, register, attach, placed, alloc, update.
  rewrite !bind_eq. cbn [fst snd heap withHeap]. rewrite alter_snoc. cbn [visual scale position].
  rewrite alter_snoc. cbn [visual scale position].
  destruct (asFunction animate) as [f |]; unfold push, ret; cbn [fst snd heap withHeap animationList];
    rewrite (asScene_snoc scene w _ (mkObject3D v (sx, sy, sz) (px, py, pz)))
      by reflexivity;
    (destruct (asScene scene w) as [s |]; [| destruct w; reflexivity]);
    unfold sceneAdd, update, emit; rewrite bind_eq; destruct w; reflexivity.
Qed.

Lemma newObject3D_placed (w : World) (v : Visual) (sx sy sz : float)
    (px : Value) (py pz : float) (animate scene : Value) :
  (let* mesh := newObject3D v in
   setScale mesh sx sy sz ;;
   setPosition mesh px py pz ;;
   register animate mesh ;;
   attach scene mesh ;;
   ret mesh)%js w =
  (length (heap w), placed w (mkObject3D v (sx, sy, sz) (px, py, pz)) animate scene).
Proof. apply newObject3D_then. Qed.

Lemma asScene_Some (v : Value) (w : World) (s : Ref) :
  asScene v w = Some s ->
  v = VObject s /\ s < length (heap w) /\ exists sc, heap w !! s = Some (OScene sc).
Proof.
  destruct v; try discriminate. unfold asScene.
  destruct (heap w !! r) as [[sc| | | | | | |]|] eqn:E; try discriminate.
  intros [= <-]. repeat split; [| eauto].
  apply lookup_lt_Some in E. exact E.
Qed.

Lemma placed_new (w : World) (o : Object3D) (animate scene : Value) :
  heap (placed w o animate scene) !! length (heap w) = Some (OObject3D o).
Proof.
  unfold placed.
  destruct (asScene scene w) as [s |] eqn:Hs.
  - apply asScene_Some in Hs as (_ & Hlt & _). cbn [heap withTrace withHeap].
    rewrite list_lookup_alter_ne by lia. apply lookup_snoc.
  - destruct (asFunction animate); cbn; apply lookup_snoc.
Qed.

Lemma placed_animationList (w : World) (o : Object3D) (animate scene : Value) :
  animationList (placed w o animate scene) =
  animationList w ++
    match asFunction animate with
    | Some f => [mkEntry (length (heap w)) f]
    | None => []
    end.
Proof.
  unfold placed.
  destruct (asScene scene w), (asFunction animate); cbn;
    rewrite ?app_nil_r; reflexivity.
Qed.

Lemma placed_console (w : World) (o : Object3D) (animate scene : Value) :
  console (placed w o animate scene) = console w.
Proof.
  unfold placed. destruct (asScene scene w), (asFunction animate); reflexivity.
Qed.

Lemma placed_requests (w : World) (o : Object3D) (animate scene : Value) :
  requests (placed w o animate scene) = requests w.
Proof.
  unfold placed. destruct (asScene scene w), (asFunction animate); reflexivity.
Qed.

Lemma renderShape_eq (o : ShapeOptions.t) (w : World) :
  renderShape o w =
  (length (heap w),
   placed (shapeRequested o w) (shapeElement o) (ShapeOptions.animate o) (ShapeOptions.scene o)).
Proof.
  unfold renderShape, shapeRequested, shapeElement, shapeMaterial.
  unfold bind at 1.
  destruct (ShapeOptions.texture o);
    try (cbn [ret]; rewrite newObject3D_placed; reflexivity).
  rewrite bind_eq. unfold loadTexture. rewrite bind_eq. unfold load at 1 2.
  cbn [fst snd ret]. rewrite newObject3D_placed. reflexivity.
Qed.

Lemma materialLoop_eq (paths : list Value) (materials : list Material) (w : World) :
  materialLoop paths materials w =
  (materials ++ List.map textured paths,
   withRequests (requests w ++ List.map textureRequest paths) w).
Proof.
  revert materials w. induction paths as [|p paths IH]; intros materials w.
  - cbn. rewrite !app_nil_r. destruct w; reflexivity.
  - cbn [materialLoop]. rewrite bind_eq. unfold loadTexture. rewrite !bind_eq.
    unfold load. cbn [fst snd ret]. rewrite IH.
    cbn [requests withRequests List.map]. rewrite <- !app_assoc. cbn.
    destruct w; reflexivity.
Qed.

Lemma renderBox_eq (o : BoxOptions.t) (w : World) :
  renderBox o w =
  (length (heap w),
   placed (boxRequested o w) (boxElement o) (BoxOptions.animate o) (BoxOptions.scene o)).
Proof.
  unfold renderBox, boxRequested, boxElement, boxVisual. fold (boxGeometry o).
  destruct (orDefault (VBoolean true) (BoxOptions.isSolid o)) as [| |[|]| | | | |];
    try (rewrite <- newObject3D_placed; reflexivity).
  destruct (orDefault (VArray []) (BoxOptions.textures o)) as [| | | | | |[|t ts]|];
    try (rewrite <- newObject3D_placed; reflexivity).
  rewrite bind_assoc, bind_eq, materialLoop_eq. cbn [fst snd app].
  rewrite newObject3D_placed. reflexivity.
Qed.

Lemma created_renderShape (o : ShapeOptions.t) (w : World) :
  created (renderShape o) w = Some (OObject3D (shapeElement o)).
Proof.
  unfold created, exec, result. rewrite renderShape_eq. cbn [fst snd].
  replace (length (heap w)) with (length (heap (shapeRequested o w)))
    by (unfold shapeRequested; destruct (ShapeOptions.texture o); reflexivity).
  apply placed_new.
Qed.

Lemma created_renderBox (o : BoxOptions.t) (w : World) :
  created (renderBox o) w = Some (OObject3D (boxElement o)).
Proof.
  unfold created, exec, result. rewrite renderBox_eq. cbn [fst snd].
  replace (length (heap w)) with (length (heap (boxRequested o w))).
  - apply placed_new.
  - unfold boxRequested.
    destruct (orDefault (VBoolean true) (BoxOptions.isSolid o)) as [| |[|]| | | | |];
      try reflexivity.
    destruct (orDefault (VArray []) (BoxOptions.textures o)) as [| | | | | |[|t ts]|];
      reflexivity.
Qed.

(** *** Repeating a list *)

Lemma length_concat_replicate {A} (n : nat) (l : list A) :
  length (concat (replicate n l)) = (n * length l)%nat.
Proof.
  induction n as [|n IH]; cbn; [reflexivity |].
  rewrite length_app, IH. reflexivity.
Qed.

Lemma lookup_concat_replicate {A} (n : nat) (l : list A) (i : nat) :
  (i < n * length l)%nat ->
  concat (replicate n l) !! i = l !! (i mod length l)%nat.
Proof.
  revert i. induction n as [|n IH]; intros i Hi; [cbn in Hi; lia |].
  cbn [replicate concat].
  destruct (decide (i < length l)%nat) as [Hlt | Hge].
  - rewrite lookup_app_l by exact Hlt. now rewrite Nat.mod_small.
  - rewrite lookup_app_r by lia.
    rewrite IH by (cbn in Hi; lia).
    f_equal.
    assert (Hl : length l <> 0%nat) by (cbn in Hi; lia).
    replace i with ((i - length l) + 1 * length l)%nat at 2 by lia.
    now rewrite Nat.Div0.mod_add.
Qed.

Lemma uvLoop_eq (position : list Vector3) (bmin size : Vector3) (uv : list float) :
  uvLoop position bmin size uv = uv ++ flat_map (uvOf bmin size) position.
Proof.
  revert uv. induction position as [|p rest IH]; intros uv; cbn.
  - now rewrite app_nil_r.
  - rewrite IH, <- app_assoc. reflexivity.
Qed.

Lemma flat_map_uv_lookup (position : list Vector3) (bmin size : Vector3) (i : nat) (p : Vector3) :
  position !! i = Some p ->
  flat_map (uvOf bmin size) position !! (2 * i)%nat = Some ((vx p - vx bmin) / vx size)
  /\ flat_map (uvOf bmin size) position !! (2 * i + 1)%nat = Some ((vy p - vy bmin) / vy size).
Proof.
  revert i. induction position as [|q rest IH]; intros [|i] Hi; try discriminate.
  - cbn in Hi. inversion Hi; subst. split; reflexivity.
  - cbn in Hi. destruct (IH i Hi) as [Hx Hy].
    replace (2 * S i)%nat with (S (S (2 * i))) by lia.
    replace (S (S (2 * i)) + 1)%nat with (S (S (2 * i + 1))) by lia.
    split; cbn; assumption.
Qed.

Lemma flat_map_uv_length (position : list Vector3) (bmin size : Vector3) :
  length (flat_map (uvOf bmin size) position) = (2 * length position)%nat.
Proof. induction position as [|p rest IH]; cbn; [reflexivity | rewrite IH; lia]. Qed.

(** *** renderBox *)

(** C2 (amended). A solid box ([isSolid] true or absent) with a non-empty
    array of n texture URLs carries 6*n per-face materials: the URL list
    repeated six times, so that material i maps URL (i mod n); they are
    exactly six only for n = 1. With an empty array it carries a single
    MeshPhongMaterial that holds the colour and nothing else. *)
Theorem renderBox_solid_materials (w : World) (o : BoxOptions.t) (us : list Value) :
  orDefault (VBoolean true) (BoxOptions.isSolid o) = VBoolean true ->
  orDefault (VArray []) (BoxOptions.textures o) = VArray us ->
  let color := orDefault (VNumber 0xffffff) (BoxOptions.color o) in
  let scale := (BoxOptions.scaleX o, BoxOptions.scaleY o, BoxOptions.scaleZ o) in
  let position := (VNumber (BoxOptions.posX o), BoxOptions.posY o, BoxOptions.posZ o) in
  let materials := List.map textured (concat (replicate 6 us)) in
  (us <> [] ->
     created (renderBox o) w =
       Some (OObject3D (mkObject3D (Mesh (boxGeometry o) (MaterialArray materials))
                                   scale position))
     /\ length materials = (6 * length us)%nat
     /\ forall i, (i < 6 * length us)%nat ->
          materials !! i = textured <$> us !! (i mod length us)%nat)
  /\ (us = [] ->
     created (renderBox o) w =
       Some (OObject3D (mkObject3D
               (Mesh (boxGeometry o) (OneMaterial (MeshPhongMaterial None color)))
               scale position))).
Proof.
  intros Hsolid Htex color scale position materials.
  rewrite created_renderBox. unfold boxElement, boxVisual. rewrite Hsolid, Htex.
  split.
  - intros Hne. destruct us as [|t ts]; [congruence |]. repeat split.
    + unfold materials. rewrite length_map. apply length_concat_replicate.
    + intros i Hi. unfold materials. rewrite list_lookup_fmap.
      now rewrite lookup_concat_replicate.
  - intros ->. reflexivity.
Qed.

(** C10. [isSolid] is compared with [=== true]: for every given [isSolid]
    that is not the boolean true (an absent one takes the default true),
    the box is the LineSegments of the EdgesGeometry of the box geometry
    with a LineBasicMaterial of the colour, and no texture is loaded
    whatever [textures] holds. *)
Theorem renderBox_not_true_is_wireframe (w : World) (o : BoxOptions.t) :
  BoxOptions.isSolid o <> VUndefined ->
  BoxOptions.isSolid o <> VBoolean true ->
  let color := orDefault (VNumber 0xffffff) (BoxOptions.color o) in
  created (renderBox o) w =
    Some (OObject3D (mkObject3D
            (LineSegments (EdgesGeometry (boxGeometry o)) (LineBasicMaterial color))
            (BoxOptions.scaleX o, BoxOptions.scaleY o, BoxOptions.scaleZ o)
            (VNumber (BoxOptions.posX o), BoxOptions.posY o, BoxOptions.posZ o)))
  /\ requests (exec (renderBox o) w) = requests w.
Proof.
  intros Hu Ht color.
  assert (Hv : boxVisual o =
    LineSegments (EdgesGeometry (boxGeometry o)) (LineBasicMaterial color)
    /\ boxRequested o w = w).
  { unfold boxVisual, boxRequested.
    destruct (BoxOptions.isSolid o) as [| |[|]| | | | |]; try congruence; split; reflexivity. }
  destruct Hv as [Hv Hq]. split.
  - rewrite created_renderBox. unfold boxElement. now rewrite Hv.
  - unfold exec. rewrite renderBox_eq. cbn [snd]. now rewrite placed_requests, Hq.
Qed.

Lemma builtGeometry_eq (o : ShapeOptions.t) (w : World) :
  builtGeometry o w = Some (shapeGeometry o).
Proof. unfold builtGeometry. now rewrite created_renderShape. Qed.

(** C6. The geometry of [renderShape] by precedence: a numeric [radius]
    gives the RingGeometry of inner radius, radius, segments, phi segments
    and the angles thetaStart*PI, thetaLength*PI; else numeric [width] and
    [height] give the PlaneGeometry of that size; else a draw callback
    gives the ShapeGeometry of the drawn shape whose uv attribute holds,
    for vertex i, ((x - min.x) / size.x, (y - min.y) / size.y) with the
    bounding box of the positions; else the CircleGeometry of radius 10.
    With radius 5 and 3 segments: a ring of 3 segments and outer radius 5;
    with width 10, height 4 and no radius: a 10-by-4 plane. *)
Theorem renderShape_geometry_precedence (w : World) (o : ShapeOptions.t) :
  (forall radius, ShapeOptions.radius o = VNumber radius ->
     builtGeometry o w =
       Some (RingGeometry (ShapeOptions.innerRadius o) radius (ShapeOptions.segments o)
               (ShapeOptions.phiSegments o)
               (ShapeOptions.thetaStart o * PI) (ShapeOptions.thetaLength o * PI)))
  /\ (forall width height,
        typeof (ShapeOptions.radius o) <> TNumber ->
        ShapeOptions.width o = VNumber width ->
        ShapeOptions.height o = VNumber height ->
        builtGeometry o w =
          Some (PlaneGeometry width height
                  (ShapeOptions.widthSegments o) (ShapeOptions.heightSegments o)))
  /\ (forall shape,
        typeof (ShapeOptions.radius o) <> TNumber ->
        typeof (ShapeOptions.width o) <> TNumber
          \/ typeof (ShapeOptions.height o) <> TNumber ->
        ShapeOptions.shape o = VFunction shape ->
        let flatShape := fn_draw shape [] in
        let position := shapePositions flatShape in
        let box3 := setFromBufferAttribute position in
        let size := getSize box3 in
        exists uv,
          builtGeometry o w = Some (ShapeGeometry (FlatShape flatShape) (Some uv))
          /\ length uv = (2 * length position)%nat
          /\ forall i p, position !! i = Some p ->
               uv !! (2 * i)%nat = Some ((vx p - vx (box_min box3)) / vx size)
               /\ uv !! (2 * i + 1)%nat = Some ((vy p - vy (box_min box3)) / vy size))
  /\ (typeof (ShapeOptions.radius o) <> TNumber ->
      typeof (ShapeOptions.width o) <> TNumber
        \/ typeof (ShapeOptions.height o) <> TNumber ->
      typeof (ShapeOptions.shape o) <> TFunction ->
      builtGeometry o w =
        Some (CircleGeometry 10 (ShapeOptions.segments o)
                (ShapeOptions.thetaStart o * PI) (ShapeOptions.thetaLength o * PI)))
  /\ (ShapeOptions.radius o = VNumber 5 -> ShapeOptions.segments o = 3 ->
      exists inner phi start sweep,
        builtGeometry o w = Some (RingGeometry inner 5 3 phi start sweep))
  /\ (typeof (ShapeOptions.radius o) <> TNumber ->
      ShapeOptions.width o = VNumber 10 -> ShapeOptions.height o = VNumber 4 ->
      exists ws hs, builtGeometry o w = Some (PlaneGeometry 10 4 ws hs)).
Proof.
  rewrite builtGeometry_eq. unfold shapeGeometry.
  split; [| split; [| split; [| split; [| split]]]].
  - intros radius ->. reflexivity.
  - intros width height Hr -> ->.
    destruct (ShapeOptions.radius o); cbn in Hr; congruence.
  - intros shape Hr Hwh ->.
    set (position := shapePositions (fn_draw shape [])).
    set (box3 := setFromBufferAttribute position).
    exists (uvLoop position (box_min box3) (getSize box3) []). split; [| split].
    + destruct (ShapeOptions.radius o); cbn in Hr; try congruence;
        destruct (ShapeOptions.width o), (ShapeOptions.height o);
        cbn in Hwh; try reflexivity; destruct Hwh; congruence.
    + rewrite uvLoop_eq. cbn [app]. apply flat_map_uv_length.
    + intros i p Hp. rewrite uvLoop_eq. cbn [app]. now apply flat_map_uv_lookup.
  - intros Hr Hwh Hs.
    destruct (ShapeOptions.radius o); cbn in Hr; try congruence;
      destruct (ShapeOptions.width o), (ShapeOptions.height o);
      cbn in Hwh; try (destruct Hwh; congruence);
      destruct (ShapeOptions.shape o); cbn in Hs; congruence.
  - intros -> ->. eauto.
  - intros Hr -> ->. destruct (ShapeOptions.radius o); cbn in Hr; try congruence; eauto.
Qed.

Lemma textLoaded_eq (o : TextOptions.t) (p : Ref) (loadedFont : Font) (w : World) :
  textLoaded o p loadedFont w =
  (tt, fulfilled p (length (heap w))
         (placed w (textElement o loadedFont) (TextOptions.animate o) (TextOptions.scene o))).
Proof.
  unfold textLoaded, textElement, textGeometry, textMaterial, textPosX.
  destruct (TextOptions.flat o) as [| |[|]| | | | |]; cbv zeta;
    rewrite newObject3D_then; reflexivity.
Qed.

Lemma fulfilled_new (p : Ref) (w : World) (o : Object3D) (animate scene : Value) :
  heap (fulfilled p (length (heap w)) (placed w o animate scene)) !! length (heap w)
  = Some (OObject3D o).
Proof.
  unfold fulfilled. cbn [heap withHeap].
  destruct (decide (p = length (heap w))) as [-> | Hne].
  - rewrite list_lookup_alter_eq, placed_new. reflexivity.
  - rewrite list_lookup_alter_ne by exact Hne. apply placed_new.
Qed.

(** C5 (amended). When the font has loaded, the mesh is created with its X
    position equal to -0.5 * (max.x - min.x) of the bounding box of its
    own, unscaled geometry if no [posX] was given, and equal to the given
    [posX] otherwise; scale, Y and Z are the given ones, and a pending
    promise is fulfilled with that mesh. The X position is a function of
    the width of the box alone: neither [scaleX] nor the place of the box
    enters it. *)
Theorem renderText_posX (w : World) (o : TextOptions.t) (p : Ref) (loadedFont : Font) :
  let w' := exec (textLoaded o p loadedFont) w in
  let mesh := length (heap w) in
  let geometry := textGeometry o loadedFont in
  let box := computeBoundingBox geometry in
  exists posX,
    heap w' !! mesh =
      Some (OObject3D (mkObject3D (Mesh geometry (textMaterial o))
              (TextOptions.scaleX o, TextOptions.scaleY o, TextOptions.scaleZ o)
              (posX, TextOptions.posY o, TextOptions.posZ o)))
    /\ (TextOptions.posX o = VUndefined ->
        posX = VNumber (-0.5 * (vx (box_max box) - vx (box_min box))))
    /\ (TextOptions.posX o <> VUndefined -> posX = TextOptions.posX o)
    /\ (heap w !! p = Some (OPromise Pending) ->
        heap w' !! p = Some (OPromise (Fulfilled mesh))).
Proof.
  intros w' mesh geometry box. subst w'. unfold exec. rewrite textLoaded_eq. cbn [snd].
  exists (textPosX o geometry). split; [| split; [| split]].
  - apply fulfilled_new.
  - intros E. unfold textPosX. now rewrite E.
  - intros E. unfold textPosX. destruct (TextOptions.posX o); congruence.
  - intros Hp. unfold fulfilled. cbn [heap withHeap].
    rewrite list_lookup_alter_eq.
    assert (Hlt : p < length (heap w)) by (apply lookup_lt_Some in Hp; exact Hp).
    assert (E : heap (placed w (textElement o loadedFont) (TextOptions.animate o)
                        (TextOptions.scene o)) !! p = Some (OPromise Pending)).
    { unfold placed.
      destruct (asScene (TextOptions.scene o) w) as [s |] eqn:Hs.
      - cbn [heap withTrace withHeap].
        destruct (decide (s = p)) as [-> | Hne].
        + apply asScene_Some in Hs as (_ & _ & sc & Hsc). congruence.
        + rewrite list_lookup_alter_ne by exact Hne.
          rewrite lookup_app_l by exact Hlt. exact Hp.
      - destruct (asFunction (TextOptions.animate o)); cbn;
          rewrite lookup_app_l by exact Hlt; exact Hp. }
    rewrite E. reflexivity.
Qed.

(** *** renderGltfModel *)

Lemma asScene_app (v : Value) (w w' : World) (extra : list HostObject) :
  heap w' = heap w ++ extra ->
  Forall (fun o => forall s, o <> OScene s) extra ->
  asScene v w' = asScene v w.
Proof.
  intros Hh Hx. destruct v; try reflexivity. unfold asScene. rewrite Hh.
  destruct (decide (r < length (heap w))) as [Hlt | Hge].
  - now rewrite lookup_app_l.
  - assert (E : heap w !! r = None) by (apply lookup_ge_None_2; lia).
    rewrite E, lookup_app_r by lia.
    destruct (extra !! (r - length (heap w))%nat) as [x |] eqn:Ex; [| reflexivity].
    rewrite Forall_forall in Hx. specialize (Hx x).
    destruct x; try reflexivity.
    exfalso. eapply Hx; [eapply list_elem_of_lookup_2, Ex | reflexivity].
Qed.

Lemma alter_middle {A} (f : A -> A) (l : list A) (a : A) (rest : list A) :
  alter f (length l) (l ++ a :: rest) = l ++ f a :: rest.
Proof.
  induction l as [|b l IH]; simpl; [reflexivity |].
  change (b :: alter f (length l) (l ++ a :: rest) = b :: l ++ f a :: rest).
  now rewrite IH.
Qed.

Lemma alter_second_of_two {A} (f : A -> A) (l : list A) (a b : A) :
  alter f (length (l ++ [a])) ((l ++ [a]) ++ [b]) = l ++ [a; f b].
Proof. rewrite alter_snoc, <- app_assoc. reflexivity. Qed.

Lemma gltfLoaded_eq (o : GltfOptions.t) (p : Ref) (root : Object3D)
    (animations : option (list Clip)) (w : World) :
  runOnLoad (GltfLoaded o p) (LoadedGltf root animations) w =
  (tt, gltfDelivered o p root animations w).
Proof.
  cbn [runOnLoad]. unfold alloc. rewrite !bind_eq. cbn [fst snd heap withHeap].
  unfold gltfLoaded, gltfDelivered, gltfMixer.
  assert (Hsc : forall w' a b, heap w' = heap w ++ [OObject3D a; OGltf b] ->
                asScene (GltfOptions.scene o) w' = asScene (GltfOptions.scene o) w).
  { intros w' a b Hh. apply (asScene_app _ w w' _ Hh).
    repeat constructor; congruence. }
  assert (Hlen : length (heap w ++ [OObject3D root]) = S (length (heap w)))
    by (rewrite length_app; simpl; lia).
  destruct (asFunction (GltfOptions.animate o)) as [f |];
    [destruct animations as [clips |] |];
    unfold setScale, setPosition, attach, resolve, update, push, ret;
    rewrite !bind_eq; cbn [fst snd heap withHeap withAnimationList animationList];
    rewrite ?alter_second_of_two; cbn [app];
    rewrite ?Hlen, <- ?app_assoc; cbn [app]; rewrite !alter_middle;
    cbn [gltf_scene gltf_animations gltf_mixer visual scale position];
    erewrite Hsc by reflexivity;
    (destruct (asScene (GltfOptions.scene o) w) as [s |];
     [unfold sceneAdd, update, emit; rewrite !bind_eq |]);
    destruct w; cbn; rewrite ?app_nil_r; reflexivity.
Qed.

Lemma playEach_eq (clips : list Clip) (root : Ref) (playing : list Clip) :
  playEach clips (mkMixer root playing) = mkMixer root (playing ++ clips).
Proof.
  unfold playEach. revert playing.
  induction clips as [|c clips IH]; intros playing; cbn.
  - now rewrite app_nil_r.
  - rewrite IH, <- app_assoc. reflexivity.
Qed.

Lemma lookup_alter_fixed {A} (f : A -> A) (l : list A) (i j : nat) (x : A) :
  f x = x -> l !! j = Some x -> alter f i l !! j = Some x.
Proof.
  intros Hf Hj. destruct (decide (i = j)) as [-> | Hne].
  - rewrite list_lookup_alter_eq, Hj. cbn. now rewrite Hf.
  - now rewrite list_lookup_alter_ne.
Qed.

Lemma gltfDelivered_asset (o : GltfOptions.t) (p : Ref) (root : Object3D)
    (animations : option (list Clip)) (w : World) :
  heap (gltfDelivered o p root animations w) !! S (length (heap w)) =
  Some (OGltf (mkGltf (length (heap w)) animations
                 (gltfMixer o (length (heap w)) animations))).
Proof.
  unfold gltfDelivered.
  destruct (asScene (GltfOptions.scene o) w); cbn [heap];
    repeat (apply lookup_alter_fixed; [reflexivity |]);
    (rewrite lookup_app_r by lia);
    replace (S (length (heap w)) - length (heap w))%nat with 1%nat by lia;
    reflexivity.
Qed.

Lemma gltfDelivered_animationList (o : GltfOptions.t) (p : Ref) (root : Object3D)
    (animations : option (list Clip)) (w : World) :
  animationList (gltfDelivered o p root animations w) =
  animationList w ++
    match asFunction (GltfOptions.animate o) with
    | Some f => [mkEntry (S (length (heap w))) f]
    | None => []
    end.
Proof. unfold gltfDelivered. destruct (asScene (GltfOptions.scene o) w); reflexivity. Qed.

Lemma gltfDelivered_root (o : GltfOptions.t) (p : Ref) (root : Object3D)
    (animations : option (list Clip)) (w : World) :
  heap (gltfDelivered o p root animations w) !! length (heap w) =
  Some (OObject3D (mkObject3D (visual root)
          (GltfOptions.scaleX o, GltfOptions.scaleY o, GltfOptions.scaleZ o)
          (VNumber (GltfOptions.posX o), GltfOptions.posY o, GltfOptions.posZ o))).
Proof.
  unfold gltfDelivered.
  destruct (asScene (GltfOptions.scene o) w); cbn [heap];
    repeat (apply lookup_alter_fixed; [reflexivity |]);
    (rewrite lookup_app_r by lia);
    replace (length (heap w) - length (heap w))%nat with 0%nat by lia;
    reflexivity.
Qed.

(** C4. [renderGltfModel] hands the GLTF loader one success callback.
    When that callback runs on a loaded asset and [animate] is a function
    and the asset carries clips, the asset gets one mixer on its root with
    every clip playing, and the registry gets one more entry: the asset
    itself (not its root, which is the object before it) with the caller's
    callback. When [animate] is not a function, the asset gets no mixer
    and the registry no entry. *)
Theorem renderGltfModel_animation (w0 w : World) (o : GltfOptions.t)
    (root : Object3D) (animations : option (list Clip)) :
  let loaded := result (renderGltfModel o) w0 in
  let callback := GltfLoaded o loaded in
  let w' := exec (runOnLoad callback (LoadedGltf root animations)) w in
  let modelScene := length (heap w) in
  let loadedModel := S modelScene in
  requests (exec (renderGltfModel o) w0) =
    requests w0 ++ [mkRequest GLTFLoader (VString (GltfOptions.model o)) (Some callback) None false]
  /\ heap w' !! modelScene =
       Some (OObject3D (mkObject3D (visual root)
               (GltfOptions.scaleX o, GltfOptions.scaleY o, GltfOptions.scaleZ o)
               (VNumber (GltfOptions.posX o), GltfOptions.posY o, GltfOptions.posZ o)))
  /\ (forall animate clips,
        GltfOptions.animate o = VFunction animate -> animations = Some clips ->
        heap w' !! loadedModel =
          Some (OGltf (mkGltf modelScene (Some clips) (Some (mkMixer modelScene clips))))
        /\ animationList w' = animationList w ++ [mkEntry loadedModel animate])
  /\ (typeof (GltfOptions.animate o) <> TFunction ->
        heap w' !! loadedModel = Some (OGltf (mkGltf modelScene animations None))
        /\ animationList w' = animationList w).
Proof.
  intros loaded callback w' modelScene loadedModel.
  subst w' callback loadedModel modelScene. unfold exec at 2 3 4 5 6.
  rewrite gltfLoaded_eq. cbn [snd].
  rewrite gltfDelivered_asset, gltfDelivered_animationList, gltfDelivered_root.
  split; [reflexivity | split; [reflexivity | split]].
  - intros animate clips Ha ->. unfold gltfMixer. rewrite Ha. cbn [asFunction].
    rewrite playEach_eq. cbn [app]. split; reflexivity.
  - intros Hn. unfold gltfMixer.
    destruct (GltfOptions.animate o); cbn in Hn; try congruence;
      cbn [asFunction]; rewrite ?app_nil_r; split; reflexivity.
Qed.

(** *** setResponsive *)

Lemma lookup_insert_same {A} (l : list A) (i : nat) (x y : A) :
  l !! i = Some x -> <[i := y]> l !! i = Some y.
Proof. intros H. apply list_lookup_insert_eq. eapply lookup_lt_Some, H. Qed.

Lemma bind_pair {A B} (c : M A) (k : A -> M B) (w w' : World) (a : A) :
  c w = (a, w') -> bind c k w = k a w'.
Proof. intros E. unfold bind. now rewrite E. Qed.

Lemma update_at (w : World) (r : Ref) (f : HostObject -> HostObject) (x : HostObject) :
  heap w !! r = Some x ->
  update r f w = (tt, withHeap (<[r := f x]> (heap w)) w).
Proof. intros H. unfold update. now rewrite (alter_as_insert f _ _ _ H). Qed.

Lemma readClientWidth_at (w : World) (r : Ref) (e : HTMLElement) :
  heap w !! r = Some (OElement e) -> readClientWidth r w = (clientWidth e, w).
Proof. intros H. unfold readClientWidth. now rewrite H. Qed.

Lemma readClientHeight_at (w : World) (r : Ref) (e : HTMLElement) :
  heap w !! r = Some (OElement e) -> readClientHeight r w = (clientHeight e, w).
Proof. intros H. unfold readClientHeight. now rewrite H. Qed.

(** **** The handler, step by step *)

Lemma triple_bind {A B} (P : World -> Prop) (c : M A) (k : A -> M B)
    (Q : A -> World -> Prop) (R : B -> World -> Prop) :
  triple P c Q -> (forall a, triple (Q a) (k a) R) -> triple P (bind c k) R.
Proof. intros Hc Hk w Hw. rewrite bind_eq. apply Hk, Hc, Hw. Qed.

(** A step that reads: it returns [v] and leaves the world. *)
Lemma triple_read {A B} (P : World -> Prop) (c : M A) (v : A) (k : A -> M B)
    (R : B -> World -> Prop) :
  (forall w, P w -> c w = (v, w)) -> triple P (k v) R -> triple P (bind c k) R.
Proof. intros Hc Hk w Hw. unfold bind. rewrite (Hc w Hw). apply Hk, Hw. Qed.

Lemma triple_post {A} (P : World -> Prop) (c : M A) (Q R : A -> World -> Prop) :
  triple P c Q -> (forall a w, Q a w -> R a w) -> triple P c R.
Proof. intros Hc HQ w Hw. apply HQ, Hc, Hw. Qed.

Section Staged.
Variables (canvas renderer camera : Ref) (win : Window) (k : CameraKind).

Lemma staged_window e cs c tr w :
  staged canvas renderer camera win k e cs c tr w -> getWindow w = (win, w).
Proof. intros (_ & _ & _ & _ & Hw). unfold getWindow. now rewrite Hw. Qed.

Lemma staged_clientWidth e cs c tr w :
  staged canvas renderer camera win k e cs c tr w ->
  readClientWidth canvas w = (clientWidth e, w).
Proof. intros (Hc & _). now apply readClientWidth_at. Qed.

Lemma staged_clientHeight e cs c tr w :
  staged canvas renderer camera win k e cs c tr w ->
  readClientHeight canvas w = (clientHeight e, w).
Proof. intros (Hc & _). now apply readClientHeight_at. Qed.

Lemma staged_updateElement (g : HTMLElement -> HTMLElement) e cs c tr :
  triple (staged canvas renderer camera win k e cs c tr)
         (updateElement canvas g)
         (fun _ => staged canvas renderer camera win k (g e) cs c tr).
Proof.
  intros w (Hc & Hr & Hm & Ht & Hw). unfold updateElement.
  rewrite (update_at _ _ _ _ Hc). unfold staged.
  cbn [fst snd heap withHeap trace window].
  repeat split; try assumption.
  - apply (lookup_insert_same _ _ _ _ Hc).
  - rewrite list_lookup_insert_ne by congruence. exact Hr.
  - rewrite list_lookup_insert_ne by congruence. exact Hm.
Qed.

Lemma staged_emit (x : Effect) e cs c tr :
  triple (staged canvas renderer camera win k e cs c tr)
         (emit x)
         (fun _ => staged canvas renderer camera win k e cs c (tr ++ [x])).
Proof.
  intros w (Hc & Hr & Hm & Ht & Hw). unfold emit, staged.
  cbn [fst snd heap withTrace trace window]. rewrite Ht. repeat split; assumption.
Qed.

Lemma staged_callRenderer (call : RendererCall) e cs c tr :
  triple (staged canvas renderer camera win k e cs c tr)
         (callRenderer renderer call)
         (fun _ => staged canvas renderer camera win k
                     (sizedBy (drawsInto renderer canvas) cs call e) (cs ++ [call]) c tr).
Proof.
  intros w (Hc & Hr & Hm & Ht & Hw). unfold callRenderer.
  rewrite (bind_pair (receivedCalls renderer) _ w w cs)
    by (unfold receivedCalls; now rewrite Hr).
  rewrite bind_eq, (update_at _ _ _ _ Hr). cbn [fst snd].
  set (w1 := withHeap _ w).
  assert (Hc1 : heap w1 !! canvas = Some (OElement e))
    by (subst w1; cbn [heap withHeap]; rewrite list_lookup_insert_ne by congruence; exact Hc).
  assert (Hr1 : heap w1 !! renderer = Some (ORenderer (cs ++ [call])))
    by (subst w1; cbn [heap withHeap]; apply (lookup_insert_same _ _ _ _ Hr)).
  assert (Hm1 : heap w1 !! camera = Some (OCamera k c))
    by (subst w1; cbn [heap withHeap]; rewrite list_lookup_insert_ne by congruence; exact Hm).
  assert (Ht1 : trace w1 = tr) by exact Ht.
  assert (Hw1 : window w1 = win) by exact Hw.
  clearbody w1. unfold sizedBy, drawsInto, staged.
  destruct (domElement renderer) as [d |] eqn:Hd.
  - unfold updateElement, update. cbn [fst snd heap withHeap trace window].
    destruct (decide (d = canvas)) as [-> | Hne].
    + rewrite bool_decide_eq_true_2 by reflexivity.
      repeat split; try assumption.
      * rewrite list_lookup_alter_eq, Hc1. reflexivity.
      * rewrite list_lookup_alter_ne by congruence. exact Hr1.
      * rewrite list_lookup_alter_ne by congruence. exact Hm1.
    + rewrite bool_decide_eq_false_2 by congruence.
      repeat split; try assumption.
      * rewrite list_lookup_alter_ne by congruence. exact Hc1.
      * apply lookup_alter_fixed; [reflexivity | assumption].
      * apply lookup_alter_fixed; [reflexivity | assumption].
  - rewrite bool_decide_eq_false_2 by congruence.
    cbn [ret fst snd]. repeat split; assumption.
Qed.

Lemma staged_camera (g : HostObject -> HostObject) (c' : Camera) e cs c tr :
  g (OCamera k c) = OCamera k c' ->
  triple (staged canvas renderer camera win k e cs c tr)
         (update camera g)
         (fun _ => staged canvas renderer camera win k e cs c' tr).
Proof.
  intros Hg w (Hc & Hr & Hm & Ht & Hw).
  rewrite (update_at _ _ _ _ Hm). unfold staged.
  cbn [fst snd heap withHeap trace window].
  repeat split; try assumption.
  - rewrite list_lookup_insert_ne by congruence. exact Hc.
  - rewrite list_lookup_insert_ne by congruence. exact Hr.
  - rewrite Hg. apply (lookup_insert_same _ _ _ _ Hm).
Qed.

(** One statement of the handler. *)
Ltac statement :=
  lazymatch goal with
  | |- triple _ (bind getWindow _) _ =>
      eapply triple_read; [intros ? ?; eapply staged_window; eassumption |]
  | |- triple _ (bind (readClientWidth _) _) _ =>
      eapply triple_read; [intros ? ?; eapply staged_clientWidth; eassumption |]
  | |- triple _ (bind (readClientHeight _) _) _ =>
      eapply triple_read; [intros ? ?; eapply staged_clientHeight; eassumption |]
  | |- triple _ (bind (updateElement _ _) _) _ =>
      eapply triple_bind; [apply staged_updateElement | intros ?; cbn beta]
  | |- triple _ (bind (emit _) _) _ =>
      eapply triple_bind; [apply staged_emit | intros ?; cbn beta]
  | |- triple _ (bind (callRenderer _ _) _) _ =>
      eapply triple_bind; [apply staged_callRenderer | intros ?; cbn beta]
  | |- triple _ (bind (update _ _) _) _ =>
      eapply triple_bind; [apply staged_camera; reflexivity | intros ?; cbn beta]
  end.

(** What one run of the handler does to the canvas, the renderer, the
    camera and the trace. *)
Lemma resizeChange_staged (f : Function) e calls c tr :
  let draws := drawsInto renderer canvas in
  let e1 := copied f win e in
  let e3 := ratioed f win draws calls e in
  let e' := resized f win draws calls e in
  let a := clientWidth e' / clientHeight e' in
  triple (staged canvas renderer camera win k e calls c tr)
         (resizeChange canvas renderer camera f)
         (fun _ => staged canvas renderer camera win k e'
                     (calls ++ requested f win draws calls e)
                     (mkCamera (Some a) (Some a))
                     (tr ++ [CallPolicy canvas;
                             WriteWidth canvas (clientWidth e1);
                             WriteHeight canvas (clientHeight e1);
                             CallSetPixelRatio renderer (devicePixelRatio win);
                             CallSetSize renderer (clientWidth e3) (clientHeight e3);
                             WriteAspect camera a;
                             CallUpdateProjectionMatrix camera])).
Proof.
  intros draws e1 e3 e' a. unfold resizeChange.
  do 20 statement.
  eapply triple_post; [apply staged_emit |].
  intros ? w (Hc & Hr & Hm & Ht & Hw).
  split; [exact Hc |]. split; [rewrite <- app_assoc in Hr; exact Hr |].
  split; [exact Hm |]. split; [| exact Hw].
  rewrite Ht, <- !app_assoc. reflexivity.
Qed.

End Staged.

(** The handler on a canvas, a renderer and a camera of the heap. *)
Lemma resizeChange_at (w : World) (canvas renderer camera : Ref) (f : Function)
    (e : HTMLElement) (calls : list RendererCall) (k : CameraKind) (c : Camera) :
  heap w !! canvas = Some (OElement e) ->
  heap w !! renderer = Some (ORenderer calls) ->
  heap w !! camera = Some (OCamera k c) ->
  let draws := drawsInto renderer canvas in
  let e1 := copied f (window w) e in
  let e3 := ratioed f (window w) draws calls e in
  let e' := resized f (window w) draws calls e in
  let a := clientWidth e' / clientHeight e' in
  let dpr := devicePixelRatio (window w) in
  let after := exec (resizeChange canvas renderer camera f) w in
  heap after !! canvas = Some (OElement e')
  /\ heap after !! renderer =
       Some (ORenderer (calls ++ [SetPixelRatio dpr;
                                  SetSize (clientWidth e3) (clientHeight e3)]))
  /\ heap after !! camera = Some (OCamera k (mkCamera (Some a) (Some a)))
  /\ trace after =
       trace w ++
         [CallPolicy canvas;
          WriteWidth canvas (clientWidth e1); WriteHeight canvas (clientHeight e1);
          CallSetPixelRatio renderer dpr;
          CallSetSize renderer (clientWidth e3) (clientHeight e3);
          WriteAspect camera a;
          CallUpdateProjectionMatrix camera]
  /\ window after = window w.
Proof.
  intros Hc Hr Hm draws e1 e3 e' a dpr after.
  exact (resizeChange_staged canvas renderer camera (window w) k f e calls c (trace w) w
           (conj Hc (conj Hr (conj Hm (conj eq_refl eq_refl))))).
Qed.

(** Without a canvas of its own the renderer leaves the handler's canvas
    with the backing size the handler gave it. *)
Lemma resized_elsewhere (f : Function) (win : Window) (calls : list RendererCall)
    (e : HTMLElement) :
  resized f win false calls e = copied f win e.
Proof. reflexivity. Qed.


(** *** Invalid options *)

Lemma placed_fulfilled_console (p v : Ref) (w : World) (o : Object3D) (animate scene : Value) :
  console (fulfilled p v (placed w o animate scene)) = console w.
Proof. unfold fulfilled. cbn [console withHeap]. apply placed_console. Qed.

Lemma runOnLoad_console (cb : OnLoad) (a : Asset) (w : World) :
  console (exec (runOnLoad cb a) w) = console w.
Proof.
  unfold exec.
  destruct cb as [s | s | s | o p | o p], a as [t | f | root animations];
    try reflexivity.
  - cbn [runOnLoad]. rewrite textLoaded_eq. apply placed_fulfilled_console.
  - rewrite gltfLoaded_eq. cbn [snd]. unfold gltfDelivered.
    destruct (asScene (GltfOptions.scene o) w); reflexivity.
Qed.

Lemma callExported_options {T A} (f : T -> M A) (o : T) (w : World) :
  callExported f (WithOptions o) w = (Normal (result (f o) w), exec (f o) w).
Proof. unfold callExported, result, exec. now destruct (f o w). Qed.

Lemma callAsync_options {T} (f : T -> M Ref) (o : T) (w : World) :
  callAsync f (WithOptions o) w = (Normal (result (f o) w), exec (f o) w).
Proof. unfold callAsync, result, exec. now destruct (f o w). Qed.


Lemma stable_ret (R : World -> World -> Prop) `{!Reflexive R} {A} (a : A) :
  stable R (ret a).
Proof. intros w. cbn. reflexivity. Qed.

Lemma stable_bind (R : World -> World -> Prop) `{!Transitive R} {A B}
    (c : M A) (k : A -> M B) :
  stable R c -> (forall a, stable R (k a)) -> stable R (bind c k).
Proof.
  intros Hc Hk w. rewrite bind_eq. etransitivity; [apply Hc | apply Hk].
Qed.

Lemma stable_pure (R : World -> World -> Prop) `{!Reflexive R} {A} (c : M A) :
  (forall w, snd (c w) = w) -> stable R c.
Proof. intros H w. rewrite H. reflexivity. Qed.

(** Case analysis on the value a computation branches on. *)
Ltac branch :=
  match goal with
  | |- stable _ (match ?x with _ => _ end) => destruct x
  | |- stable _ (if ?x then _ else _) => destruct x
  | |- stable _ (let (_, _) := ?x in _) => destruct x
  end.

(** From a goal about one world to the stability of the computation. *)
Ltac lift :=
  match goal with
  | |- ?R ?w (snd (?c ?w)) =>
      let H := fresh in assert (H : stable R c); [| exact (H w)]
  end.

Create HintDb respected_db.

#[local] Hint Resolve respected_alloc respected_emit respected_consoleError
  respected_addEventListener respected_push respected_settle respected_resolve
  : respected_db.

(** Walk through a computation, closing its primitives. *)
Ltac walk :=
  repeat first
    [ lazymatch goal with
      | |- stable _ (ret _) => apply stable_ret; typeclasses eauto
      | |- stable _ (bind _ _) => apply stable_bind; [typeclasses eauto | | intros ?]
      | |- stable _ getWindow => apply stable_pure; [typeclasses eauto | reflexivity]
      | |- stable _ (readClientWidth _) =>
          apply stable_pure; [typeclasses eauto | reflexivity]
      | |- stable _ (readClientHeight _) =>
          apply stable_pure; [typeclasses eauto | reflexivity]
      | |- stable _ (receivedCalls _) =>
          apply stable_pure; [typeclasses eauto | reflexivity]
      | |- stable _ (update _ _) => apply respected_update; intros ?; reflexivity
      | |- stable _ (load _ _ _) =>
          apply respected_load; intros ? ?; first [discriminate | simplify_eq; reflexivity]
      end
    | solve [eauto with respected_db]
    | branch ].

Section Respected.
Context (R : World -> World -> Prop) (mayResolve : Ref -> Prop).
Context {respected : Respected R mayResolve}.

Lemma respected_writeBackground r b : stable R (writeBackground r b).
Proof. unfold writeBackground. walk. Qed.

Lemma respected_writeEnvironment r t : stable R (writeEnvironment r t).
Proof. unfold writeEnvironment. walk. Qed.

Lemma respected_sceneAdd r c : stable R (sceneAdd r c).
Proof. unfold sceneAdd, addChild. walk. Qed.

Lemma respected_attach scene c : stable R (attach scene c).
Proof.
  intros w. unfold attach. destruct (asScene scene w); [| reflexivity].
  apply respected_sceneAdd.
Qed.

Lemma respected_resizeChange canvas renderer camera f :
  stable R (resizeChange canvas renderer camera f).
Proof. unfold resizeChange, callRenderer, updateElement. walk. Qed.

#[local] Hint Resolve respected_writeBackground respected_writeEnvironment
  respected_sceneAdd respected_attach respected_resizeChange : respected_db.

Lemma respected_setBackground o : stable R (setBackground o).
Proof.
  intros w. unfold setBackground.
  destruct (asScene (BackgroundOptions.scene o) w);
    [lift; walk | apply respected_consoleError].
Qed.

Lemma respected_setResponsive o : stable R (setResponsive o).
Proof.
  intros w. unfold setResponsive.
  destruct (asElement (ResponsiveOptions.canvas o) w),
    (asRenderer (ResponsiveOptions.renderer o) w),
    (asCamera (ResponsiveOptions.camera o) w),
    (asFunction (orDefault (VFunction defaultResponsive) (ResponsiveOptions.responsive o)));
    try apply respected_consoleError.
  lift. walk.
Qed.

Lemma respected_materialLoop paths materials : stable R (materialLoop paths materials).
Proof.
  revert materials. induction paths as [|x paths IH]; intros materials; cbn [materialLoop].
  - walk.
  - unfold loadTexture. walk.
Qed.

#[local] Hint Resolve respected_materialLoop : respected_db.

Lemma respected_renderShape o : stable R (renderShape o).
Proof. unfold renderShape, loadTexture, newObject3D, setScale, setPosition, register. walk. Qed.

Lemma respected_renderBox o : stable R (renderBox o).
Proof. unfold renderBox, loadTexture, newObject3D, setScale, setPosition, register. walk. Qed.

Lemma respected_renderText o : stable R (renderText o).
Proof. apply (respected_spawn FontLoader _ (TextLoaded o)). reflexivity. Qed.

Lemma respected_renderGltfModel o : stable R (renderGltfModel o).
Proof. apply (respected_spawn GLTFLoader _ (GltfLoaded o)). reflexivity. Qed.

Lemma respected_textLoaded o q f : mayResolve q -> stable R (textLoaded o q f).
Proof.
  intros Hq. unfold textLoaded, newObject3D, setScale, setPosition, register. walk.
Qed.

Lemma respected_gltfLoaded o q m s a : mayResolve q -> stable R (gltfLoaded o q m s a).
Proof. intros Hq. unfold gltfLoaded, setScale, setPosition, register. walk. Qed.

Lemma respected_runOnLoad cb a : gentle mayResolve cb -> stable R (runOnLoad cb a).
Proof.
  intros Hcb.
  unfold runOnLoad, backgroundImageLoaded, backgroundHdrLoaded, backgroundExrLoaded.
  destruct cb, a; walk;
    first [apply respected_textLoaded | apply respected_gltfLoaded];
    apply Hcb; reflexivity.
Qed.

Lemma respected_dispatch t m ls : stable R (dispatch t m ls).
Proof.
  induction ls as [|l ls IH]; cbn [dispatch]; [walk |].
  apply stable_bind; [typeclasses eauto | | intros _; exact IH].
  unfold runHandler, schemeListener. walk.
Qed.

Lemma respected_invoke c : stable R (invoke c).
Proof.
  destruct c; cbn [invoke]; walk;
    first [ apply respected_setBackground | apply respected_setResponsive
          | apply respected_renderText | apply respected_renderShape
          | apply respected_renderBox | apply respected_renderGltfModel ].
Qed.

Lemma respected_step e w :
  (forall i a r cb, e = LoadSucceeds i a -> requests w !! i = Some r ->
     settled r = false -> onLoad r = Some cb -> gentle mayResolve cb) ->
  R w (exec (step e) w).
Proof.
  intros Hok. unfold exec. destruct e as [c | m | | | i a | i]; cbn [step].
  - apply respected_invoke.
  - etransitivity; [apply (respected_window
                             (mkWindow m (innerWidth (window w)) (innerHeight (window w))
                                (devicePixelRatio (window w))) w) |].
    apply (respected_dispatch DarkSchemeQuery m (listeners w)).
  - apply respected_dispatch.
  - apply respected_dispatch.
  - destruct (requests w !! i) as [r |] eqn:Hr; [| reflexivity].
    destruct (settled r) eqn:Hset; [reflexivity |]. cbn [orb].
    destruct (negb (produces (loader r) a)); [reflexivity |].
    destruct (onLoad r) as [cb |] eqn:Hcb.
    + lift. walk. apply respected_runOnLoad. exact (Hok i a r cb eq_refl Hr Hset Hcb).
    + lift. walk.
  - destruct (requests w !! i) as [r |]; [| reflexivity].
    destruct (settled r); [reflexivity |].
    lift. walk. destruct o.
Qed.

End Respected.

Lemma extends_same (w w' : World) : animationList w' = animationList w -> extends w w'.
Proof. intros H. exists []. now rewrite app_nil_r. Qed.

#[local] Instance extends_respected : Respected extends (fun _ => True).
Proof.
  split; try (intros; intros w; now apply extends_same).
  - unfold Transitive, extends. intros w1 w2 w3 [s1 H1] [s2 H2]. exists (s1 ++ s2).
    rewrite H2, H1, app_assoc. reflexivity.
  - intros; now apply extends_same.
  - intros e w. now exists [e].
Qed.

Lemma extends_step e w : extends w (exec (step e) w).
Proof. apply (respected_step extends (fun _ => True)). intros; intros q _; exact I. Qed.

Lemma extends_run es w : extends w (run es w).
Proof.
  revert w. induction es as [|e es IH]; intros w; cbn [run]; [reflexivity |].
  etransitivity; [apply extends_step | apply IH].
Qed.

Lemma keeps_same_heap P p (w w' : World) : heap w' = heap w -> keeps P p w w'.
Proof. intros E [x Hx]. exists x. now rewrite E. Qed.

Lemma keeps_respected (P : HostObject -> Prop) (p : Ref) :
  (forall x, P x -> exists st, x = OPromise st) ->
  Respected (keeps P p) (resolvable P p).
Proof.
  intros P_promise.
  assert (Halloc : forall o, stable (keeps P p) (alloc o)).
  { intros o w (x & Hx & HP). exists x. split; [| exact HP]. cbn.
    rewrite lookup_app_l; [exact Hx | eapply lookup_lt_Some, Hx]. }
  split; try (intros; intros w; now apply keeps_same_heap).
  - intros w1 w2 w3 H1 H2 H. auto.
  - intros; now apply keeps_same_heap.
  - intros r f Hf w (x & Hx & HP). destruct (P_promise x HP) as [st ->].
    exists (OPromise st). split; [| exact HP]. cbn [snd update heap withHeap].
    apply lookup_alter_fixed; [apply Hf | exact Hx].
  - intros q v [Hne | Hcl] w (x & Hx & HP); unfold resolve, update, holds;
      cbn [snd heap withHeap].
    + exists x. split; [| exact HP]. now rewrite list_lookup_alter_ne.
    + destruct (decide (q = p)) as [-> | Hne].
      * exists (fulfil v x). split; [| now apply Hcl].
        now rewrite list_lookup_alter_eq, Hx.
      * exists x. split; [| exact HP]. now rewrite list_lookup_alter_ne.
  - exact Halloc.
  - intros l u cb _ w H. apply (Halloc (OPromise Pending) w) in H.
    destruct H as (x & Hx & HP). exists x. split; [exact Hx | exact HP].
Qed.

(** **** Objects and requests only accumulate *)

Lemma grows_of (w w' : World) :
  length (heap w) <= length (heap w') -> requests w' = requests w -> grows w w'.
Proof.
  intros Hh Hr. split; [exact Hh | split].
  - intros i r Hi. exists r. now rewrite Hr.
  - intros i r' cb t Hi Hn. rewrite Hr in Hi. congruence.
Qed.

#[local] Instance grows_respected : Respected grows (fun _ => True).
Proof.
  split; try (intros; intros w; apply grows_of; [cbn; lia | reflexivity]).
  - intros w1 w2 w3 (Hh1 & Hk1 & Hn1) (Hh2 & Hk2 & Hn2). split; [lia | split].
    + intros i r Hi. destruct (Hk1 i r Hi) as (r' & Hi' & Hcb' & Hs').
      destruct (Hk2 i r' Hi') as (r'' & Hi'' & Hcb'' & Hs'').
      exists r''. split; [exact Hi'' | split; [congruence | auto]].
    + intros i r'' cb t Hi'' Hnone Hcb Ht.
      destruct (requests w2 !! i) as [r' |] eqn:Hi'.
      * destruct (Hk2 i r' Hi') as (r3 & Hi3 & Hcb3 & _).
        assert (r3 = r'') by congruence. subst r3.
        assert (Hcb' : onLoad r' = Some cb) by congruence.
        specialize (Hn1 i r' cb t Hi' Hnone Hcb' Ht). lia.
      * specialize (Hn2 i r'' cb t Hi'' Hi' Hcb Ht). lia.
  - intros win w. apply grows_of; [cbn; lia | reflexivity].
  - intros r f _ w. apply grows_of; [| reflexivity]. cbn. now rewrite length_alter.
  - intros q v _ w. apply grows_of; [| reflexivity]. cbn. now rewrite length_alter.
  - intros o w. apply grows_of; [| reflexivity]. cbn. rewrite length_app. lia.
  - intros i w. split; [cbn; lia | split]; cbn [snd settle requests withRequests].
    + intros j r Hj. destruct (decide (i = j)) as [-> | Hne].
      * eexists. rewrite list_lookup_alter_eq, Hj. cbn. repeat split; reflexivity.
      * exists r. rewrite list_lookup_alter_ne by exact Hne. repeat split; auto.
    + intros j r' cb t Hj Hnone.
      destruct (decide (i = j)) as [-> | Hne];
        [rewrite list_lookup_alter_eq in Hj
        | rewrite list_lookup_alter_ne in Hj by exact Hne];
        rewrite Hnone in Hj; discriminate.
  - intros l u cb Hcb w. split; [cbn; lia | split]; cbn [snd load requests withRequests].
    + intros i r Hi. exists r. rewrite lookup_app_l by (eapply lookup_lt_Some, Hi).
      repeat split; auto.
    + intros i r' c t Hi Hnone Hc Ht.
      apply lookup_ge_None_1 in Hnone. rewrite lookup_app_r in Hi by exact Hnone.
      destruct (i - length (requests w))%nat; [| destruct n; discriminate].
      cbn in Hi. inversion Hi; subst r'. cbn in Hc. rewrite (Hcb c Hc) in Ht. discriminate.
  - intros l u cb Hcb w. unfold grows. rewrite !bind_eq.
    cbn [fst snd alloc load ret requests heap withRequests withHeap].
    split; [rewrite length_app; lia | split].
    + intros i r Hi. exists r. rewrite lookup_app_l by (eapply lookup_lt_Some, Hi).
      repeat split; auto.
    + intros i r' c t Hi Hnone Hc Ht.
      apply lookup_ge_None_1 in Hnone. rewrite lookup_app_r in Hi by exact Hnone.
      destruct (i - length (requests w))%nat; [| destruct n; discriminate].
      cbn in Hi. inversion Hi; subst r'. cbn in Hc. inversion Hc; subst c.
      rewrite Hcb in Ht. inversion Ht. rewrite length_app. cbn. lia.
Qed.

Lemma grows_step e w : grows w (exec (step e) w).
Proof. apply (respected_step grows (fun _ => True)). intros; intros q _; exact I. Qed.

Lemma grows_run es w : grows w (run es w).
Proof.
  revert w. induction es as [|e es IH]; intros w; cbn [run]; [reflexivity |].
  etransitivity; [apply grows_step | apply IH].
Qed.

Lemma wellFormed_grows (w w' : World) : grows w w' -> wellFormed w -> wellFormed w'.
Proof.
  intros (Hh & Hk & Hn) Hw i r' cb t Hi' Hcb Ht.
  destruct (requests w !! i) as [r |] eqn:Hi.
  - destruct (Hk i r Hi) as (r2 & Hi2 & Hcb2 & _).
    assert (r2 = r') by congruence. subst r2.
    assert (Hcb' : onLoad r = Some cb) by congruence.
    specialize (Hw i r cb t Hi Hcb' Ht). lia.
  - specialize (Hn i r' cb t Hi' Hi Hcb Ht). lia.
Qed.

Lemma wellFormed_fresh (w : World) : wellFormed w -> fresh w.
Proof.
  intros Hw i r cb Hi Hcb Ht. specialize (Hw i r cb _ Hi Hcb Ht). lia.
Qed.

(** Every world the page reaches from one without loads in flight is
    fresh. *)
Lemma reachable_fresh (es : list Event) (w : World) :
  requests w = [] -> fresh (run es w).
Proof.
  intros Hr. apply wellFormed_fresh, (wellFormed_grows w); [apply grows_run |].
  intros i r cb t Hi. rewrite Hr in Hi. destruct i; discriminate Hi.
Qed.

Lemma unrejected_run (p : Ref) (es : list Event) (w : World) :
  holds unrejected p w -> holds unrejected p (run es w).
Proof.
  assert (HR : Respected (keeps unrejected p) (resolvable unrejected p)).
  { apply keeps_respected. intros x [-> | [v ->]]; eauto. }
  revert w. induction es as [|e es IH]; intros w H; cbn [run]; [exact H |].
  apply IH.
  refine (respected_step (keeps unrejected p) (resolvable unrejected p) e w _ H).
  intros i a r cb _ _ _ _ q _. right. intros v x [-> | [v' ->]]; cbn; unfold unrejected; eauto.
Qed.

Lemma guarded_step (p q : Ref) (e : Event) (w : World) :
  guarded p q w ->
  (forall a, e = LoadSucceeds q a -> isSettled q w) ->
  guarded p q (exec (step e) w).
Proof.
  intros [Hp Hq] He.
  assert (HR : Respected (keeps pending p) (resolvable pending p)).
  { apply keeps_respected. intros x ->. eauto. }
  split.
  - assert (Hk : keeps pending p w (exec (step e) w)).
    { apply (respected_step (keeps pending p) (resolvable pending p) e w).
      intros i a r cb -> Hi Hset Hcb t Ht. left. intros ->.
      pose proof (Hq i r cb Hi Hset Hcb Ht) as ->.
      destruct (He a eq_refl) as (r0 & Hr0 & Hs0). congruence. }
    destruct Hk as (x & Hx & ->); [exists (OPromise Pending); split; auto; reflexivity |].
    exact Hx.
  - destruct (grows_step e w) as (Hh & Hk & Hn).
    intros i r' cb Hi' Hset' Hcb' Ht.
    destruct (requests w !! i) as [r |] eqn:Hi.
    + destruct (Hk i r Hi) as (r2 & Hi2 & Hcb2 & Hs2).
      assert (r2 = r') by congruence. subst r2.
      apply (Hq i r cb Hi); [| congruence | exact Ht].
      destruct (settled r); [| reflexivity]. rewrite Hs2 in Hset' by reflexivity.
      discriminate.
    + specialize (Hn i r' cb p Hi' Hi Hcb' Ht).
      apply lookup_lt_Some in Hp. lia.
Qed.

Lemma isSettled_grows (q : nat) (w w' : World) :
  grows w w' -> isSettled q w -> isSettled q w'.
Proof.
  intros (_ & Hk & _) (r & Hr & Hs). destruct (Hk q r Hr) as (r' & Hr' & _ & Hs').
  exists r'. auto.
Qed.

Lemma guarded_run_settled (p q : Ref) (es : list Event) (w : World) :
  guarded p q w -> isSettled q w -> guarded p q (run es w).
Proof.
  revert w. induction es as [|e es IH]; intros w Hg Hs; cbn [run]; [exact Hg |].
  apply IH.
  - apply guarded_step; [exact Hg | intros; exact Hs].
  - eapply isSettled_grows; [apply grows_step | exact Hs].
Qed.

Lemma guarded_run_before (p q : Ref) (es : list Event) (w : World) :
  guarded p q w -> withoutSuccess q es -> guarded p q (run es w).
Proof.
  revert w. induction es as [|e es IH]; intros w Hg Hes; cbn [run]; [exact Hg |].
  inversion Hes as [| ? ? He Hrest]; subst.
  apply IH; [| exact Hrest].
  apply guarded_step; [exact Hg |]. intros a Ha. destruct (He a Ha).
Qed.

Lemma loadFails_settles (q : nat) (w : World) (r : Request) :
  requests w !! q = Some r -> isSettled q (exec (step (LoadFails q)) w).
Proof.
  intros Hr. unfold exec. cbn [step]. rewrite Hr.
  destruct (settled r) eqn:Hs; [exists r; auto |].
  destruct (onError r) as [[] |]. rewrite bind_eq.
  cbn [fst snd settle ret requests withRequests].
  unfold isSettled. cbn [requests withRequests].
  eexists. rewrite list_lookup_alter_eq, Hr. cbn. split; reflexivity.
Qed.

Lemma run_app (es1 es2 : list Event) (w : World) :
  run (es1 ++ es2) w = run es2 (run es1 w).
Proof. revert w. induction es1 as [|e es1 IH]; intros w; cbn; [reflexivity | apply IH]. Qed.

(** A promise built by [new Promise] whose resolver is handed to the
    success callback of one load, and to nothing else. *)
Lemma spawned_promise (l : Loader) (u : Value) (cb : Ref -> OnLoad) (w : World) :
  (forall t, resolves (cb t) = Some t) ->
  let c := (let* loaded := alloc (OPromise Pending) in
            load l u (Some (cb loaded)) ;; ret loaded)%js in
  let p := result c w in
  let q := length (requests w) in
  let w1 := exec c w in
  requests w1 = requests w ++ [mkRequest l u (Some (cb p)) None false]
  /\ heap w1 !! p = Some (OPromise Pending)
  /\ (forall es, holds unrejected p (run es w1))
  /\ (fresh w -> forall es, withoutSuccess q es ->
        heap (run es w1) !! p = Some (OPromise Pending))
  /\ (fresh w -> forall es1 es2, withoutSuccess q es1 ->
        heap (run (es1 ++ LoadFails q :: es2) w1) !! p = Some (OPromise Pending)).
Proof.
  intros Hcb c p q w1.
  assert (Hreq : requests w1 = requests w ++ [mkRequest l u (Some (cb p)) None false])
    by reflexivity.
  assert (Hp : heap w1 !! p = Some (OPromise Pending)) by apply lookup_snoc.
  assert (Hg : fresh w -> guarded p q w1).
  { intros Hf. split; [exact Hp |].
    intros i r c0 Hi Hset Hc0 Ht. rewrite Hreq in Hi.
    destruct (decide (i < length (requests w))) as [Hlt | Hge].
    - rewrite lookup_app_l in Hi by exact Hlt. destruct (Hf i r c0 Hi Hc0). exact Ht.
    - rewrite lookup_app_r in Hi by lia.
      destruct (i - length (requests w))%nat eqn:E; [unfold q; lia |].
      destruct n; discriminate. }
  split; [exact Hreq | split; [exact Hp | split; [| split]]].
  - intros es. apply unrejected_run. exists (OPromise Pending). split; [exact Hp | now left].
  - intros Hf es Hes. apply (guarded_run_before p q es w1 (Hg Hf) Hes).
  - intros Hf es1 es2 Hes. rewrite run_app. cbn [run].
    pose proof (guarded_run_before p q es1 w1 (Hg Hf) Hes) as Hg1.
    assert (Hq1 : exists r, requests (run es1 w1) !! q = Some r).
    { destruct (grows_run es1 w1) as (_ & Hk & _).
      destruct (Hk q (mkRequest l u (Some (cb p)) None false)) as (r & Hr & _);
        [rewrite Hreq; apply lookup_snoc | eauto]. }
    destruct Hq1 as [r Hr].
    apply (guarded_run_settled p q es2).
    + apply guarded_step; [exact Hg1 | intros a Ha; discriminate].
    + apply (loadFails_settles q _ r Hr).
Qed.

(** C9. The promise [renderText] and [renderGltfModel] return is pending
    when the call returns; its resolver is held by the success callback of
    one load request, which carries no error callback. Whatever happens
    next, the promise is never rejected: it is pending or fulfilled. As
    long as that load has not succeeded it stays pending, and once the
    load has failed it stays pending through every later event: the
    promise never settles. (For a world in which no earlier request holds
    the resolver of this new promise.) *)
Theorem promises_only_resolve (w : World) :
  (forall o,
     let p := result (renderText o) w in
     let q := length (requests w) in
     let w1 := exec (renderText o) w in
     requests w1 =
       requests w ++ [mkRequest FontLoader (VString (TextOptions.font o)) (Some (TextLoaded o p)) None false]
     /\ heap w1 !! p = Some (OPromise Pending)
     /\ (forall es, holds unrejected p (run es w1))
     /\ (fresh w -> forall es, withoutSuccess q es ->
           heap (run es w1) !! p = Some (OPromise Pending))
     /\ (fresh w -> forall es1 es2, withoutSuccess q es1 ->
           heap (run (es1 ++ LoadFails q :: es2) w1) !! p = Some (OPromise Pending)))
  /\ (forall o,
     let p := result (renderGltfModel o) w in
     let q := length (requests w) in
     let w1 := exec (renderGltfModel o) w in
     requests w1 =
       requests w ++ [mkRequest GLTFLoader (VString (GltfOptions.model o)) (Some (GltfLoaded o p)) None false]
     /\ heap w1 !! p = Some (OPromise Pending)
     /\ (forall es, holds unrejected p (run es w1))
     /\ (fresh w -> forall es, withoutSuccess q es ->
           heap (run es w1) !! p = Some (OPromise Pending))
     /\ (fresh w -> forall es1 es2, withoutSuccess q es1 ->
           heap (run (es1 ++ LoadFails q :: es2) w1) !! p = Some (OPromise Pending))).
Proof.
  split; intros o.
  - apply (spawned_promise FontLoader (VString (TextOptions.font o)) (TextLoaded o) w). reflexivity.
  - apply (spawned_promise GLTFLoader (VString (GltfOptions.model o)) (GltfLoaded o) w). reflexivity.
Qed.

(** *** The page *)

Section PageProperties.
Context {gl : WebGL}.

Lemma andThen_eq {A B} (c : Dom A) (k : A -> Dom B) (p p' : Page) (a : A) :
  c p = (Normal a, p') -> andThen c k p = k a p'.
Proof. intros E. unfold andThen. now rewrite E. Qed.

Lemma andThen_throw {A B} (c : Dom A) (k : A -> Dom B) (p p' : Page) (e : Exception) :
  c p = (Throw e, p') -> andThen c k p = (Throw e, p').
Proof. intros E. unfold andThen. now rewrite E. Qed.

Lemma updateDom_last (c : bool) (l : list DomElement) (e : DomElement) (b : option Ref)
    (m : LoadingManager.t) (f : DomElement -> DomElement) :
  updateDom (length l) f (mkPage c (l ++ [e]) b m) = (Normal tt, mkPage c (l ++ [f e]) b m).
Proof. unfold updateDom, withElements. cbn. now rewrite alter_snoc. Qed.

Lemma updateDom_at (p : Page) (r : Ref) (e : DomElement) (f : DomElement -> DomElement) :
  elements p !! r = Some e ->
  updateDom r f p = (Normal tt, withElements (<[r := f e]> (elements p)) p).
Proof. intros H. unfold updateDom. now rewrite (alter_as_insert f _ _ _ H). Qed.

Lemma loadingStyle_display :
  <["display" := VString "none"]> loadingStyle = loadingStyle.
Proof. apply insert_id. reflexivity. Qed.

(** Walk through a chain of writes to the newest element. *)
Ltac newest :=
  repeat (erewrite andThen_eq by (apply updateDom_last); cbn [tagName style classList innerHTML childNodes]).

Lemma updateDom_below (c : bool) (l rest : list DomElement) (b : option Ref)
    (m : LoadingManager.t) (r : Ref) (er : DomElement) (f : DomElement -> DomElement) :
  l !! r = Some er ->
  updateDom r f (mkPage c (l ++ rest) b m) = (Normal tt, mkPage c (<[r := f er]> l ++ rest) b m).
Proof.
  intros H. unfold updateDom, withElements. cbn.
  rewrite alter_app_l by (eapply lookup_lt_Some, H).
  now rewrite (alter_as_insert f _ _ _ H).
Qed.

Lemma initialise_with_body (p : Page) (b : Ref) (be : DomElement) :
  body p = Some b -> elements p !! b = Some be ->
  initialise p =
  (Normal tt,
   mkPage true
     (<[b := withChildren (childNodes be ++ [length (elements p)]) be]> (elements p)
        ++ [loadingBanner None])
     (Some b) (installed (length (elements p)))).
Proof.
  intros Hb He. destruct p as [c l b0 m]. cbn in Hb, He. subst b0.
  unfold initialise.
  erewrite andThen_eq by reflexivity.
  erewrite andThen_eq by reflexivity.
  cbn [elements withCacheEnabled withElements cacheEnabled body manager].
  unfold setStyle, classListAdd. newest.
  rewrite bool_decide_eq_false_2 by apply not_elem_of_nil.
  erewrite andThen_eq by reflexivity. cbn [body].
  unfold appendChild.
  erewrite andThen_eq by (apply updateDom_below; exact He).
  unfold andThen. cbn. fold loadingStyle.
  unfold loadingBanner, installed, withChildren. cbn [default].
  rewrite loadingStyle_display. reflexivity.
Qed.

Lemma initialise_without_body (p : Page) :
  body p = None ->
  initialise p =
  (Throw TypeError, mkPage true (elements p ++ [loadingBanner None]) None (manager p)).
Proof.
  intros Hb. destruct p as [c l b0 m]. cbn in Hb. subst b0.
  unfold initialise.
  erewrite andThen_eq by reflexivity.
  erewrite andThen_eq by reflexivity.
  cbn [elements withCacheEnabled withElements cacheEnabled body manager].
  unfold setStyle, classListAdd. newest.
  rewrite bool_decide_eq_false_2 by apply not_elem_of_nil.
  erewrite andThen_eq by reflexivity. cbn [body].
  unfold appendChild, andThen, throw. cbn. fold loadingStyle.
  unfold loadingBanner. cbn [default].
  rewrite loadingStyle_display. reflexivity.
Qed.

(** What [isSupported] creates before it looks for the body. *)
Lemma isSupported_builds (p : Page) :
  isWebGL2Available = false ->
  isSupported p =
  (let* parent := firstBody in appendChild parent (length (elements p)) ;; unit_ false)%dom
    (withElements
       (elements p ++ [unsupportedBanner (S (length (elements p))); getWebGL2ErrorMessage]) p).
Proof.
  intros Hgl. destruct p as [c l b0 m].
  unfold isSupported. rewrite Hgl. cbn [negb].
  erewrite andThen_eq by reflexivity.
  cbn [elements withElements cacheEnabled body manager].
  unfold setStyle, classListAdd. newest.
  rewrite bool_decide_eq_false_2 by apply not_elem_of_nil.
  erewrite andThen_eq by reflexivity.
  cbn [elements withElements cacheEnabled body manager app].
  unfold appendChild at 1.
  erewrite andThen_eq.
  2: { unfold updateDom. cbn [elements withElements cacheEnabled body manager].
       rewrite <- app_assoc. cbn [app]. rewrite alter_middle. reflexivity. }
  cbn [tagName style classList innerHTML childNodes app].
  rewrite length_app. cbn [length]. rewrite Nat.add_1_r. reflexivity.
Qed.

Lemma isSupported_with_body (p : Page) (b : Ref) (be : DomElement) :
  isWebGL2Available = false -> body p = Some b -> elements p !! b = Some be ->
  isSupported p =
  (Normal false,
   withElements
     (<[b := withChildren (childNodes be ++ [length (elements p)]) be]> (elements p)
        ++ [unsupportedBanner (S (length (elements p))); getWebGL2ErrorMessage]) p).
Proof.
  intros Hgl Hb He. rewrite (isSupported_builds p Hgl).
  destruct p as [c l b0 m]. cbn in Hb, He. subst b0.
  cbn [elements withElements cacheEnabled body manager].
  erewrite andThen_eq by reflexivity. cbn [body]. unfold appendChild.
  erewrite andThen_eq by (apply updateDom_below; exact He).
  reflexivity.
Qed.

Lemma pageRun_app (es1 es2 : list PageEvent) (p : Page) :
  pageRun (es1 ++ es2) p = pageRun es2 (pageRun es1 p).
Proof. unfold pageRun. apply fold_left_app. Qed.

Lemma length_banners (n k : nat) :
  length (flat_map (fun i => [unsupportedBanner (S (n + 2 * i)); getWebGL2ErrorMessage])
            (seq 0 k)) = (2 * k)%nat.
Proof.
  rewrite (flat_map_constant_length (c := 2)) by reflexivity.
  rewrite length_seq. lia.
Qed.

(** X1. [isSupported] returns what [WebGL.isWebGL2Available()] answers.
    With WebGL2 the page is left as it is. Without it, every call builds
    one more banner (a fixed div of class webgl2-unsupported holding the
    library's message) and appends it as the last child of the body:
    after k calls the body has k more children, in call order, and nothing
    that was on the page before is changed or removed. *)
Theorem isSupported_banners (p : Page) (b : Ref) (be : DomElement) (k : nat) :
  body p = Some b -> elements p !! b = Some be ->
  let n := length (elements p) in
  let p' := pageRun (replicate k CallIsSupported) p in
  fst (isSupported p) = Normal isWebGL2Available
  /\ (isWebGL2Available = true -> p' = p)
  /\ (isWebGL2Available = false ->
      p' = withElements
             (<[b := withChildren (childNodes be ++ List.map (fun i => n + 2 * i)%nat (seq 0 k)) be]>
                (elements p)
              ++ flat_map (fun i => [unsupportedBanner (S (n + 2 * i)); getWebGL2ErrorMessage])
                   (seq 0 k)) p).
Proof.
  intros Hb He n p'. split; [| split].
  - destruct isWebGL2Available eqn:Hgl.
    + unfold isSupported. rewrite Hgl. reflexivity.
    + now rewrite (isSupported_with_body p b be Hgl Hb He).
  - intros Hgl. subst p'. induction k as [|k IH]; [reflexivity |].
    cbn [replicate pageRun fold_left pageStep]. unfold isSupported at 1. rewrite Hgl.
    cbn [negb snd unit_]. exact IH.
  - intros Hgl. subst p'. induction k as [|k IH].
    + cbn [replicate pageRun fold_left seq List.map flat_map]. rewrite !app_nil_r.
      replace (withChildren (childNodes be) be) with be by (now destruct be).
      rewrite list_insert_id by exact He. now destruct p.
    + replace (S k) with (k + 1)%nat by lia.
      rewrite replicate_add, pageRun_app, IH. cbn [replicate pageRun fold_left pageStep].
      erewrite isSupported_with_body; [| exact Hgl | exact Hb |].
      2: { cbn [elements withElements]. rewrite lookup_app_l.
           - apply list_lookup_insert_eq. eapply lookup_lt_Some, He.
           - rewrite length_insert. eapply lookup_lt_Some, He. }
      cbn [snd elements withElements cacheEnabled body manager].
      unfold withElements. cbn [cacheEnabled body manager]. f_equal.
      rewrite length_app, length_insert, length_banners. fold n.
      rewrite insert_app_l by (rewrite length_insert; eapply lookup_lt_Some, He).
      rewrite list_insert_insert_eq.
      rewrite Nat.add_1_r, seq_S, map_app, flat_map_app. cbn [List.map flat_map app].
      unfold withChildren at 1 2. cbn [tagName style classList innerHTML childNodes].
      rewrite <- !app_assoc. reflexivity.
Qed.

(** X2. Without a body element [isSupported] still answers true when
    WebGL2 is available, and touches nothing. When WebGL2 is not
    available the call throws a TypeError at [appendChild]: it returns no
    value, and the banner it built is left outside the document. *)
Theorem isSupported_without_body (p : Page) :
  body p = None ->
  let n := length (elements p) in
  (isWebGL2Available = true -> isSupported p = (Normal true, p))
  /\ (isWebGL2Available = false ->
      isSupported p =
        (Throw TypeError,
         withElements (elements p ++ [unsupportedBanner (S n); getWebGL2ErrorMessage]) p)).
Proof.
  intros Hb n. split; intros Hgl.
  - unfold isSupported. rewrite Hgl. reflexivity.
  - rewrite (isSupported_builds p Hgl).
    destruct p as [c l b0 m]. cbn in Hb. subst b0.
    erewrite andThen_eq by reflexivity. reflexivity.
Qed.

(** X3. The initialiser enables the three.js cache first, then builds the
    hidden loading banner, then appends it to the body, and only then
    installs the four loading-manager callbacks on it. With a body it
    completes: the banner is the last child of the body and the four
    callbacks write to that same element. Without a body it throws a
    TypeError at [appendChild]: the cache is already enabled, and no
    callback is installed. *)
Theorem initialise_order (p : Page) :
  let n := length (elements p) in
  (forall b be, body p = Some b -> elements p !! b = Some be ->
     initialise p =
       (Normal tt,
        mkPage true
          (<[b := withChildren (childNodes be ++ [n]) be]> (elements p) ++ [loadingBanner None])
          (Some b) (installed n)))
  /\ (body p = None ->
      initialise p =
        (Throw TypeError, mkPage true (elements p ++ [loadingBanner None]) None (manager p))).
Proof.
  intros n. split.
  - intros b be. apply initialise_with_body.
  - apply initialise_without_body.
Qed.

Lemma report_shown (p : Page) (n : Ref) (e : ManagerEvent) (t : option string) :
  manager p = installed n -> elements p !! n = Some (loadingBanner t) ->
  report e p = (Normal tt, withElements (<[n := loadingBanner (shown e)]> (elements p)) p).
Proof.
  intros Hm He.
  assert (Hlt : n < length (elements p)) by (eapply lookup_lt_Some, He).
  assert (Hrun : forall cb url loaded total text s,
    runManagerCallback cb url loaded total =
      (setInnerHTML n s ;; setStyle n "display" (VString (match text with Some _ => "block" | None => "none" end)))%dom ->
    default "" text = s ->
    runManagerCallback cb url loaded total p =
      (Normal tt, withElements (<[n := loadingBanner text]> (elements p)) p)).
  { intros cb url loaded total text s -> <-. unfold setInnerHTML, setStyle.
    erewrite andThen_eq by (apply updateDom_at; exact He).
    erewrite updateDom_at
      by (cbn [elements withElements]; apply list_lookup_insert_eq; exact Hlt).
    cbn [elements withElements tagName style classList innerHTML childNodes loadingBanner].
    rewrite list_insert_insert_eq, insert_insert_eq. now destruct p. }
  unfold report. rewrite Hm.
  destruct e as [url loaded total | | url loaded total | url];
    cbn [installed LoadingManager.onStart LoadingManager.onLoad
         LoadingManager.onProgress LoadingManager.onError shown];
    eapply Hrun; reflexivity.
Qed.

Lemma pageStep_managed (e : PageEvent) (p : Page) (n b : Ref) (t : option string) :
  managed n b p -> elements p !! n = Some (loadingBanner t) ->
  managed n b (pageStep e p)
  /\ elements (pageStep e p) !! n =
       Some (loadingBanner (match e with Report r => shown r | CallIsSupported => t end)).
Proof.
  intros (Hm & Hb & Hne & be & Hbe) He.
  assert (Hlt : n < length (elements p)) by (eapply lookup_lt_Some, He).
  assert (Hblt : b < length (elements p)) by (eapply lookup_lt_Some, Hbe).
  destruct e as [| r]; cbn [pageStep].
  - destruct isWebGL2Available eqn:Hgl.
    + unfold isSupported. rewrite Hgl. cbn [negb unit_ snd].
      split; [| exact He]. repeat split; eauto.
    + rewrite (isSupported_with_body p b be Hgl Hb Hbe). cbn [snd].
      split.
      * repeat split; try assumption.
        eexists. cbn [elements withElements].
        rewrite lookup_app_l by (now rewrite length_insert).
        now apply list_lookup_insert_eq.
      * cbn [elements withElements].
        rewrite lookup_app_l by (now rewrite length_insert).
        now rewrite list_lookup_insert_ne.
  - rewrite (report_shown p n r t Hm He). cbn [snd]. split.
    + repeat split; try assumption.
      exists be. cbn [elements withElements]. rewrite list_lookup_insert_ne by congruence.
      exact Hbe.
    + cbn [elements withElements]. now apply list_lookup_insert_eq.
Qed.

Lemma pageRun_managed (es : list PageEvent) (p : Page) (n b : Ref) (seen : option ManagerEvent) :
  managed n b p ->
  elements p !! n = Some (loadingBanner (match seen with Some r => shown r | None => None end)) ->
  managed n b (pageRun es p)
  /\ elements (pageRun es p) !! n =
       Some (loadingBanner (match lastReport es seen with
                            | Some r => shown r
                            | None => None
                            end)).
Proof.
  revert p seen. induction es as [|e es IH]; intros p seen Hm He; [now split |].
  destruct (pageStep_managed e p n b _ Hm He) as [Hm' He'].
  change (pageRun (e :: es) p) with (pageRun es (pageStep e p)).
  destruct e as [| r]; cbn [lastReport].
  - apply IH; assumption.
  - apply (IH _ (Some r)); assumption.
Qed.

(** X4. Once the initialiser has run, the loading banner shows the last
    report of the loading manager and nothing of the reports before it:
    "Starting: url [loaded/total]", "Loading: url [loaded/total]" or
    "Error: url" on display, or no text and hidden after the report that
    everything has loaded (and before the first report). It is hidden
    exactly then; an error report stays on display until a later report
    replaces it. Calls of [isSupported] in between do not touch it. *)
Theorem loading_banner_shows_last_report (p : Page) (b : Ref) (be : DomElement)
    (es : list PageEvent) :
  body p = Some b -> elements p !! b = Some be ->
  let n := length (elements p) in
  let p' := pageRun es (snd (initialise p)) in
  let text := match lastReport es None with Some r => shown r | None => None end in
  elements p' !! n = Some (loadingBanner text)
  /\ manager p' = installed n
  /\ displayed (loadingBanner text) =
       match lastReport es None with
       | Some LoadingEnds | None => false
       | Some _ => true
       end.
Proof.
  intros Hb He n p' text.
  assert (Hlt : b < n) by (eapply lookup_lt_Some, He).
  assert (H0 : managed n b (snd (initialise p))
               /\ elements (snd (initialise p)) !! n = Some (loadingBanner None)).
  { rewrite (initialise_with_body p b be Hb He). cbn [snd]. split.
    - repeat split; [lia |]. eexists. cbn [elements].
      rewrite lookup_app_l by (now rewrite length_insert).
      now apply list_lookup_insert_eq.
    - cbn [elements]. fold n.
      rewrite lookup_app_r by (rewrite length_insert; unfold n; lia).
      rewrite length_insert. fold n. rewrite Nat.sub_diag. reflexivity. }
  destruct H0 as [Hm H0].
  destruct (pageRun_managed es _ n b None Hm H0) as [(Hm' & _) He'].
  split; [exact He' | split; [exact Hm' |]].
  subst text. destruct (lastReport es None) as [[url loaded total | | url loaded total | url] |];
    reflexivity.
Qed.

End PageProperties.

(** *** What the synchronous renderers leave alone *)

Lemma shapeRequested_heap (o : ShapeOptions.t) (w : World) :
  heap (shapeRequested o w) = heap w.
Proof. unfold shapeRequested. destruct (ShapeOptions.texture o); reflexivity. Qed.

Lemma boxRequested_heap (o : BoxOptions.t) (w : World) :
  heap (boxRequested o w) = heap w.
Proof.
  unfold boxRequested.
  destruct (orDefault (VBoolean true) (BoxOptions.isSolid o)) as [| |[|]| | | | |];
    try reflexivity.
  destruct (orDefault (VArray []) (BoxOptions.textures o)) as [| | | | | |[|t ts]|];
    reflexivity.
Qed.

Lemma asScene_heap (v : Value) (w w' : World) :
  heap w' = heap w -> asScene v w' = asScene v w.
Proof. intros H. unfold asScene. now rewrite H. Qed.

Lemma placed_length (w : World) (o : Object3D) (animate scene : Value) :
  length (heap (placed w o animate scene)) = S (length (heap w)).
Proof.
  unfold placed.
  destruct (asScene scene w), (asFunction animate); cbn [heap withHeap withTrace withAnimationList];
    rewrite ?length_alter, length_app; simpl; lia.
Qed.

Lemma placed_other (w : World) (o : Object3D) (animate scene : Value) (r : Ref) (x : HostObject) :
  heap w !! r = Some x -> asScene scene w <> Some r ->
  heap (placed w o animate scene) !! r = Some x.
Proof.
  intros Hr Hne.
  assert (Hlt : r < length (heap w)) by (eapply lookup_lt_Some, Hr).
  unfold placed.
  destruct (asScene scene w) as [s |], (asFunction animate);
    cbn [heap withHeap withTrace withAnimationList];
    rewrite ?list_lookup_alter_ne by congruence;
    rewrite lookup_app_l by exact Hlt; exact Hr.
Qed.

Lemma placed_scene (w : World) (o : Object3D) (animate scene : Value) (r : Ref) (s : Scene) :
  asScene scene w = Some r -> heap w !! r = Some (OScene s) ->
  heap (placed w o animate scene) !! r =
    Some (OScene (mkScene (background s) (environment s) (children s ++ [length (heap w)]))).
Proof.
  intros Hs Hr.
  assert (Hlt : r < length (heap w)) by (eapply lookup_lt_Some, Hr).
  unfold placed. rewrite Hs.
  destruct (asFunction animate); cbn [heap withHeap withTrace withAnimationList];
    rewrite list_lookup_alter_eq, lookup_app_l by exact Hlt; rewrite Hr; reflexivity.
Qed.

Lemma placed_listeners (w : World) (o : Object3D) (animate scene : Value) :
  listeners (placed w o animate scene) = listeners w
  /\ window (placed w o animate scene) = window w.
Proof.
  unfold placed. destruct (asScene scene w), (asFunction animate); split; reflexivity.
Qed.

(** What a synchronous renderer that built [o] in [w] left behind in [w']. *)
Lemma placed_frame (w w0 : World) (o : Object3D) (animate scene : Value) :
  heap w0 = heap w -> listeners w0 = listeners w -> window w0 = window w ->
  console w0 = console w ->
  let w' := placed w0 o animate scene in
  window w' = window w /\ listeners w' = listeners w /\ console w' = console w
  /\ length (heap w') = S (length (heap w))
  /\ heap w' !! length (heap w) = Some (OObject3D o)
  /\ (forall r x, heap w !! r = Some x -> asScene scene w <> Some r ->
        heap w' !! r = Some x)
  /\ (forall r s, asScene scene w = Some r -> heap w !! r = Some (OScene s) ->
        heap w' !! r =
          Some (OScene (mkScene (background s) (environment s)
                          (children s ++ [length (heap w)])))).
Proof.
  intros Hh Hl Hw Hc w'. subst w'.
  destruct (placed_listeners w0 o animate scene) as [El Ew].
  rewrite El, Ew, placed_console, placed_length, Hh, Hl, Hw, Hc.
  repeat (split; [reflexivity |]).
  split; [rewrite <- Hh; apply placed_new |].
  split.
  - intros r x Hr Hne. apply placed_other; [now rewrite Hh |].
    now rewrite (asScene_heap scene w w0 Hh).
  - intros r s Hs Hr. rewrite <- Hh.
    apply placed_scene; [now rewrite (asScene_heap scene w w0 Hh) | now rewrite Hh].
Qed.

Lemma shapeRequested_same (o : ShapeOptions.t) (w : World) :
  heap (shapeRequested o w) = heap w /\ listeners (shapeRequested o w) = listeners w
  /\ window (shapeRequested o w) = window w /\ console (shapeRequested o w) = console w.
Proof. unfold shapeRequested. destruct (ShapeOptions.texture o); repeat split. Qed.

Lemma boxRequested_same (o : BoxOptions.t) (w : World) :
  heap (boxRequested o w) = heap w /\ listeners (boxRequested o w) = listeners w
  /\ window (boxRequested o w) = window w /\ console (boxRequested o w) = console w.
Proof.
  unfold boxRequested.
  destruct (orDefault (VBoolean true) (BoxOptions.isSolid o)) as [| |[|]| | | | |];
    try (repeat split; reflexivity).
  destruct (orDefault (VArray []) (BoxOptions.textures o)) as [| | | | | |[|t ts]|];
    repeat split; reflexivity.
Qed.

(** X5. [renderShape] and [renderBox] change nothing but what they build:
    the heap gets exactly one new object, the element they return; the
    scene they are given gets that element as its last child and keeps its
    background, its environment and its other children; every other
    object is left as it was, and no listener is registered, nothing is
    written to the console and the window is not touched. When [scene] is
    not a scene, no object of the heap is changed at all. *)
Theorem renderers_frame (w : World) :
  (forall o,
     let w' := exec (renderShape o) w in
     let mesh := result (renderShape o) w in
     window w' = window w /\ listeners w' = listeners w /\ console w' = console w
     /\ length (heap w') = S (length (heap w))
     /\ heap w' !! mesh = Some (OObject3D (shapeElement o))
     /\ (forall r x, heap w !! r = Some x -> asScene (ShapeOptions.scene o) w <> Some r ->
           heap w' !! r = Some x)
     /\ (forall r s, asScene (ShapeOptions.scene o) w = Some r ->
           heap w !! r = Some (OScene s) ->
           heap w' !! r =
             Some (OScene (mkScene (background s) (environment s) (children s ++ [mesh])))))
  /\ (forall o,
     let w' := exec (renderBox o) w in
     let box := result (renderBox o) w in
     window w' = window w /\ listeners w' = listeners w /\ console w' = console w
     /\ length (heap w') = S (length (heap w))
     /\ heap w' !! box = Some (OObject3D (boxElement o))
     /\ (forall r x, heap w !! r = Some x -> asScene (BoxOptions.scene o) w <> Some r ->
           heap w' !! r = Some x)
     /\ (forall r s, asScene (BoxOptions.scene o) w = Some r ->
           heap w !! r = Some (OScene s) ->
           heap w' !! r =
             Some (OScene (mkScene (background s) (environment s) (children s ++ [box]))))).
Proof.
  split; intros o w' el; subst w' el; unfold exec, result.
  - rewrite renderShape_eq. cbn [fst snd].
    destruct (shapeRequested_same o w) as (Hh & Hl & Hw & Hc).
    exact (placed_frame w _ _ _ _ Hh Hl Hw Hc).
  - rewrite renderBox_eq. cbn [fst snd].
    destruct (boxRequested_same o w) as (Hh & Hl & Hw & Hc).
    exact (placed_frame w _ _ _ _ Hh Hl Hw Hc).
Qed.

(** X6. A solid box with a list of n texture URLs starts 6*n texture
    loads, one per material and in the order of the materials: request i
    of the call loads URL (i mod n), so every URL is requested six times.
    None of the loads has a success or an error callback. *)
Theorem renderBox_texture_requests (w : World) (o : BoxOptions.t) (us : list Value) :
  orDefault (VBoolean true) (BoxOptions.isSolid o) = VBoolean true ->
  orDefault (VArray []) (BoxOptions.textures o) = VArray us ->
  let w' := exec (renderBox o) w in
  requests w' = requests w ++ List.map textureRequest (concat (replicate 6 us))
  /\ length (requests w') = (length (requests w) + 6 * length us)%nat
  /\ forall i, (i < 6 * length us)%nat ->
       requests w' !! (length (requests w) + i)%nat =
         (fun u => mkRequest TextureLoader u None None false) <$> us !! (i mod length us)%nat.
Proof.
  intros Hsolid Htex w'.
  assert (E : requests w' = requests w ++ List.map textureRequest (concat (replicate 6 us))).
  { subst w'. unfold exec. rewrite renderBox_eq. cbn [snd]. rewrite placed_requests.
    unfold boxRequested. rewrite Hsolid, Htex.
    destruct us as [|t ts]; [cbn; now rewrite app_nil_r | reflexivity]. }
  split; [exact E | split].
  - rewrite E, length_app, length_map, length_concat_replicate. reflexivity.
  - intros i Hi. rewrite E, lookup_app_r by lia.
    replace (length (requests w) + i - length (requests w))%nat with i by lia.
    rewrite list_lookup_fmap, lookup_concat_replicate by exact Hi. reflexivity.
Qed.

(** *** Calls in a row *)

Lemma render_step (c : Call) (w : World) (r : Ref) (s : Scene) :
  rendersInto r c -> heap w !! r = Some (OScene s) ->
  let w' := exec (step (Invoke c)) w in
  length (heap w') = S (length (heap w))
  /\ heap w' !! r =
       Some (OScene (mkScene (background s) (environment s) (children s ++ [length (heap w)])))
  /\ heap w' !! length (heap w) = OObject3D <$> builtBy c
  /\ forall r' x, heap w !! r' = Some x -> r' <> r -> heap w' !! r' = Some x.
Proof.
  intros Hc Hr w'. subst w'. unfold exec. cbn [step].
  destruct c as [o | o | o | o | o | o]; cbn [rendersInto] in Hc; try contradiction;
    cbn [invoke builtBy]; rewrite bind_eq; cbn [ret snd].
  - rewrite renderShape_eq. cbn [snd].
    destruct (shapeRequested_same o w) as (Hh & Hl & Hw & Hk).
    destruct (placed_frame w _ (shapeElement o) (ShapeOptions.animate o)
                (ShapeOptions.scene o) Hh Hl Hw Hk) as (_ & _ & _ & Hlen & Hnew & Hother & Hscene).
    assert (Hs : asScene (ShapeOptions.scene o) w = Some r)
      by (rewrite Hc; apply (asScene_ref w r s Hr)).
    repeat split; [exact Hlen | exact (Hscene r s Hs Hr) | exact Hnew |].
    intros r' x Hx Hne. apply Hother; [exact Hx | congruence].
  - rewrite renderBox_eq. cbn [snd].
    destruct (boxRequested_same o w) as (Hh & Hl & Hw & Hk).
    destruct (placed_frame w _ (boxElement o) (BoxOptions.animate o)
                (BoxOptions.scene o) Hh Hl Hw Hk) as (_ & _ & _ & Hlen & Hnew & Hother & Hscene).
    assert (Hs : asScene (BoxOptions.scene o) w = Some r)
      by (rewrite Hc; apply (asScene_ref w r s Hr)).
    repeat split; [exact Hlen | exact (Hscene r s Hs Hr) | exact Hnew |].
    intros r' x Hx Hne. apply Hother; [exact Hx | congruence].
Qed.

Lemma render_run (r : Ref) (cs : list Call) (w : World) (s : Scene) :
  heap w !! r = Some (OScene s) -> Forall (rendersInto r) cs ->
  let w' := run (List.map Invoke cs) w in
  let n := length (heap w) in
  heap w' !! r =
    Some (OScene (mkScene (background s) (environment s) (children s ++ seq n (length cs))))
  /\ length (heap w') = (n + length cs)%nat
  /\ (forall i c, cs !! i = Some c -> heap w' !! (n + i)%nat = OObject3D <$> builtBy c)
  /\ (forall r' x, heap w !! r' = Some x -> r' <> r -> heap w' !! r' = Some x).
Proof.
  revert w s. induction cs as [|c cs IH]; intros w s Hr Hcs w' n; subst w' n.
  - cbn [List.map run length seq]. rewrite app_nil_r.
    repeat split; [now destruct s | lia | intros i c Hi; destruct i; discriminate Hi | auto].
  - inversion Hcs as [| ? ? Hc Hrest]; subst.
    cbn [List.map run].
    destruct (render_step c w r s Hc Hr) as (Hlen & Hscene & Hnew & Hother).
    destruct (IH _ _ Hscene Hrest) as (IHscene & IHlen & IHnew & IHother).
    assert (Hlt : r < length (heap w)) by (eapply lookup_lt_Some, Hr).
    rewrite Hlen in IHscene, IHlen, IHnew.
    cbn [background environment children] in IHscene.
    repeat split.
    + rewrite IHscene. cbn [length seq]. now rewrite <- app_assoc.
    + rewrite IHlen. cbn [length]. lia.
    + intros [|i] c' Hi.
      * cbn in Hi. inversion Hi; subst c'. rewrite Nat.add_0_r.
        destruct (builtBy c) as [e |] eqn:Hb.
        -- apply IHother; [rewrite Hnew; reflexivity | lia].
        -- destruct c; cbn in Hc, Hb; try contradiction; discriminate.
      * cbn in Hi. replace (length (heap w) + S i)%nat with (S (length (heap w)) + i)%nat by lia.
        now apply IHnew.
    + intros r' x Hx Hne. apply IHother; [now apply Hother | exact Hne].
Qed.

(** X7. Calls of [renderShape] and [renderBox] on the same scene add up:
    after k calls the scene has k more children, the elements the calls
    built, in the order of the calls; the i-th of them is the element of
    the i-th call and is not changed by the calls after it, and the
    scene's earlier children, background and environment are kept. *)
Theorem renderers_compose (w : World) (r : Ref) (s : Scene) (cs : list Call) :
  heap w !! r = Some (OScene s) -> Forall (rendersInto r) cs ->
  let w' := run (List.map Invoke cs) w in
  let n := length (heap w) in
  heap w' !! r =
    Some (OScene (mkScene (background s) (environment s) (children s ++ seq n (length cs))))
  /\ length (heap w') = (n + length cs)%nat
  /\ forall i c, cs !! i = Some c -> heap w' !! (n + i)%nat = OObject3D <$> builtBy c.
Proof.
  intros Hr Hcs w' n.
  destruct (render_run r cs w s Hr Hcs) as (H1 & H2 & H3 & _). auto.
Qed.

(** *** The resize handler on a canvas without a size *)

Lemma div_by_zero (x : float) : (0 <? x) = true -> x / 0 = infinity.
Proof.
  intros H.
  rewrite <- (SF2Prim_Prim2SF (x / 0)), <- (SF2Prim_Prim2SF infinity).
  f_equal. rewrite div_spec.
  rewrite ltb_spec in H.
  destruct (Prim2SF x) as [s | s | | s m e] eqn:E; cbn in H |- *; try discriminate;
    destruct s; try discriminate; reflexivity.
Qed.

(** X8. The resize handler divides the client width by the client height
    without a guard. When the canvas is laid out with client height 0 (a
    hidden or collapsed canvas) once the renderer was sized, the camera's
    aspect, and the aspect its projection is computed from, become
    +Infinity if the client width is positive and NaN if the client width
    is 0 too. *)
Theorem resizeChange_unguarded_division (now : World) (canvas renderer camera : Ref)
    (responsive : Function) (e : HTMLElement) (calls : list RendererCall)
    (k : CameraKind) (c : Camera) :
  heap now !! canvas = Some (OElement e) ->
  heap now !! renderer = Some (ORenderer calls) ->
  heap now !! camera = Some (OCamera k c) ->
  let e' := resized responsive (window now) (drawsInto renderer canvas) calls e in
  let after := exec (runHandler (ResizeChange canvas renderer camera responsive) false) now in
  clientHeight e' = 0 ->
  ((0 <? clientWidth e') = true ->
     heap after !! camera = Some (OCamera k (mkCamera (Some infinity) (Some infinity))))
  /\ (clientWidth e' = 0 ->
     heap after !! camera = Some (OCamera k (mkCamera (Some nan) (Some nan)))).
Proof.
  intros Hc Hr Hm e' after Hh.
  assert (E : heap after !! camera =
    Some (OCamera k (mkCamera (Some (clientWidth e' / clientHeight e'))
                              (Some (clientWidth e' / clientHeight e'))))).
  { subst after. cbn [runHandler].
    exact (proj1 (proj2 (proj2
      (resizeChange_at now canvas renderer camera responsive e calls k c Hc Hr Hm)))). }
  rewrite E, Hh. split.
  - intros Hw. now rewrite (div_by_zero _ Hw).
  - intros ->. reflexivity.
Qed.

(** *** A call and its load *)

Lemma renderText_call (o : TextOptions.t) (w : World) :
  exec (step (Invoke (CallRenderText o))) w =
  withRequests
    (requests w ++ [mkRequest FontLoader (VString (TextOptions.font o))
                      (Some (TextLoaded o (length (heap w)))) None false])
    (withHeap (heap w ++ [OPromise Pending]) w).
Proof. reflexivity. Qed.

Lemma renderGltfModel_call (o : GltfOptions.t) (w : World) :
  exec (step (Invoke (CallRenderGltfModel o))) w =
  withRequests
    (requests w ++ [mkRequest GLTFLoader (VString (GltfOptions.model o))
                      (Some (GltfLoaded o (length (heap w)))) None false])
    (withHeap (heap w ++ [OPromise Pending]) w).
Proof. reflexivity. Qed.

Lemma asScene_not_promise (v : Value) (w : World) (p : Ref) (st : Promise) :
  heap w !! p = Some (OPromise st) -> asScene v w <> Some p.
Proof.
  intros Hp Hs. apply asScene_Some in Hs as (_ & _ & sc & Hsc). congruence.
Qed.

(** X9. [renderText] followed by the successful load of its font: the
    promise the call returned is fulfilled with the mesh built from the
    font; that same mesh is the new last child of the scene the call was
    given and, if [animate] is a function, the element of the one entry
    added to the registry; the request is settled. Before the load only
    the pending promise and the request exist: the scene has no new
    child. *)
Theorem renderText_delivers (w : World) (o : TextOptions.t) (loadedFont : Font)
    (r : Ref) (s : Scene) :
  TextOptions.scene o = VObject r -> heap w !! r = Some (OScene s) ->
  let p := result (renderText o) w in
  let q := length (requests w) in
  let called := run [Invoke (CallRenderText o)] w in
  let w' := run [Invoke (CallRenderText o); LoadSucceeds q (LoadedFont loadedFont)] w in
  let mesh := S (length (heap w)) in
  heap called !! r = Some (OScene s)
  /\ heap called !! mesh = None
  /\ heap w' !! p = Some (OPromise (Fulfilled mesh))
  /\ heap w' !! mesh = Some (OObject3D (textElement o loadedFont))
  /\ heap w' !! r =
       Some (OScene (mkScene (background s) (environment s) (children s ++ [mesh])))
  /\ animationList w' =
       animationList w ++
         match asFunction (TextOptions.animate o) with
         | Some f => [mkEntry mesh f]
         | None => []
         end
  /\ requests w' =
       requests w ++ [mkRequest FontLoader (VString (TextOptions.font o))
                        (Some (TextLoaded o p)) None true].
Proof.
  intros Ho Hr p q called w' mesh.
  assert (Hlt : r < length (heap w)) by (eapply lookup_lt_Some, Hr).
  subst called w'. cbn [run]. rewrite renderText_call.
  set (w0 := withHeap (heap w ++ [OPromise Pending]) w).
  change (length (requests w)) with (length (requests w0)) in q. subst q.
  change (requests w) with (requests w0).
  rewrite load_completes by reflexivity.
  set (w2 := withRequests (requests w0 ++ [mkRequest _ _ _ _ true]) w0).
  assert (Hlen : length (heap w2) = mesh)
    by (subst w2 w0 mesh; cbn [heap withRequests withHeap]; rewrite length_app; simpl; lia).
  assert (Hp2 : heap w2 !! length (heap w) = Some (OPromise Pending))
    by (subst w2 w0; cbn [heap withRequests withHeap]; apply lookup_snoc).
  assert (Hr2 : heap w2 !! r = Some (OScene s))
    by (subst w2 w0; cbn [heap withRequests withHeap]; now rewrite lookup_app_l).
  unfold exec. cbn [runOnLoad]. rewrite textLoaded_eq. cbn [snd]. rewrite Hlen.
  split; [subst w0; cbn [heap withRequests withHeap]; now rewrite lookup_app_l |].
  split; [subst w0 mesh; cbn [heap withRequests withHeap];
          apply lookup_ge_None_2; rewrite length_app; simpl; lia |].
  split; [| split; [| split; [| split]]].
  - subst p. unfold fulfilled. cbn [heap withHeap result renderText].
    change (fst (renderText o w)) with (length (heap w)).
    rewrite list_lookup_alter_eq.
    rewrite (placed_other w2 _ _ _ _ _ Hp2 (asScene_not_promise _ _ _ _ Hp2)). reflexivity.
  - rewrite <- Hlen. apply fulfilled_new.
  - unfold fulfilled. cbn [heap withHeap].
    rewrite list_lookup_alter_ne by lia.
    rewrite (placed_scene w2 _ _ _ r s); [now rewrite Hlen | | exact Hr2].
    rewrite Ho. apply (asScene_ref w2 r s Hr2).
  - unfold fulfilled. cbn [animationList withHeap]. rewrite placed_animationList, Hlen.
    reflexivity.
  - unfold fulfilled. cbn [requests withHeap]. rewrite placed_requests. reflexivity.
Qed.

Lemma gltfDelivered_scene (o : GltfOptions.t) (p : Ref) (root : Object3D)
    (animations : option (list Clip)) (w : World) (r : Ref) (s : Scene) :
  asScene (GltfOptions.scene o) w = Some r -> heap w !! r = Some (OScene s) ->
  heap (gltfDelivered o p root animations w) !! r =
    Some (OScene (mkScene (background s) (environment s) (children s ++ [length (heap w)]))).
Proof.
  intros Hs Hr.
  assert (Hlt : r < length (heap w)) by (eapply lookup_lt_Some, Hr).
  unfold gltfDelivered. rewrite Hs. cbn [heap].
  apply lookup_alter_fixed; [reflexivity |].
  rewrite list_lookup_alter_eq, lookup_app_l by exact Hlt. now rewrite Hr.
Qed.

Lemma gltfDelivered_promise (o : GltfOptions.t) (p : Ref) (root : Object3D)
    (animations : option (list Clip)) (w : World) :
  heap w !! p = Some (OPromise Pending) ->
  heap (gltfDelivered o p root animations w) !! p =
    Some (OPromise (Fulfilled (S (length (heap w))))).
Proof.
  intros Hp.
  assert (Hlt : p < length (heap w)) by (eapply lookup_lt_Some, Hp).
  unfold gltfDelivered.
  destruct (asScene (GltfOptions.scene o) w) as [s |] eqn:Hs; cbn [heap];
    rewrite list_lookup_alter_eq.
  - rewrite list_lookup_alter_ne
      by (intros ->; exact (asScene_not_promise _ _ _ _ Hp Hs)).
    rewrite lookup_app_l by exact Hlt. now rewrite Hp.
  - rewrite lookup_app_l by exact Hlt. now rewrite Hp.
Qed.

Lemma gltfDelivered_requests (o : GltfOptions.t) (p : Ref) (root : Object3D)
    (animations : option (list Clip)) (w : World) :
  requests (gltfDelivered o p root animations w) = requests w.
Proof. unfold gltfDelivered. destruct (asScene (GltfOptions.scene o) w); reflexivity. Qed.

(** X10. [renderGltfModel] followed by the successful load of its model:
    the promise the call returned is fulfilled with the loaded asset,
    while the scene the call was given gets the asset's root object (the
    asset's [scene]) as its new last child; the two are different
    objects. The root's scale and position are overwritten with the
    options of the call, whatever the file gave it, also when the options
    are left at their defaults. With a function [animate] the registry
    gets one entry, whose element is the asset. *)
Theorem renderGltfModel_delivers (w : World) (o : GltfOptions.t) (root : Object3D)
    (animations : option (list Clip)) (r : Ref) (s : Scene) :
  GltfOptions.scene o = VObject r -> heap w !! r = Some (OScene s) ->
  let p := result (renderGltfModel o) w in
  let q := length (requests w) in
  let w' := run [Invoke (CallRenderGltfModel o);
                 LoadSucceeds q (LoadedGltf root animations)] w in
  let modelScene := S (length (heap w)) in
  let loadedModel := S modelScene in
  heap w' !! p = Some (OPromise (Fulfilled loadedModel))
  /\ heap w' !! loadedModel =
       Some (OGltf (mkGltf modelScene animations (gltfMixer o modelScene animations)))
  /\ heap w' !! modelScene =
       Some (OObject3D (mkObject3D (visual root)
               (GltfOptions.scaleX o, GltfOptions.scaleY o, GltfOptions.scaleZ o)
               (VNumber (GltfOptions.posX o), GltfOptions.posY o, GltfOptions.posZ o)))
  /\ heap w' !! r =
       Some (OScene (mkScene (background s) (environment s) (children s ++ [modelScene])))
  /\ animationList w' =
       animationList w ++
         match asFunction (GltfOptions.animate o) with
         | Some f => [mkEntry loadedModel f]
         | None => []
         end
  /\ requests w' =
       requests w ++ [mkRequest GLTFLoader (VString (GltfOptions.model o))
                        (Some (GltfLoaded o p)) None true].
Proof.
  intros Ho Hr p q w' modelScene loadedModel.
  assert (Hlt : r < length (heap w)) by (eapply lookup_lt_Some, Hr).
  subst w'. cbn [run]. rewrite renderGltfModel_call.
  set (w0 := withHeap (heap w ++ [OPromise Pending]) w).
  change (length (requests w)) with (length (requests w0)) in q. subst q.
  change (requests w) with (requests w0).
  rewrite load_completes by reflexivity.
  set (w2 := withRequests (requests w0 ++ [mkRequest _ _ _ _ true]) w0).
  assert (Hlen : length (heap w2) = modelScene)
    by (subst w2 w0 modelScene; cbn [heap withRequests withHeap];
        rewrite length_app; simpl; lia).
  assert (Hp2 : heap w2 !! length (heap w) = Some (OPromise Pending))
    by (subst w2 w0; cbn [heap withRequests withHeap]; apply lookup_snoc).
  assert (Hr2 : heap w2 !! r = Some (OScene s))
    by (subst w2 w0; cbn [heap withRequests withHeap]; now rewrite lookup_app_l).
  unfold exec. rewrite gltfLoaded_eq. cbn [snd].
  split; [| split; [| split; [| split; [| split]]]].
  - subst p. change (result (renderGltfModel o) w) with (length (heap w)).
    rewrite (gltfDelivered_promise _ _ _ _ _ Hp2), Hlen. reflexivity.
  - subst loadedModel. rewrite <- Hlen. apply gltfDelivered_asset.
  - rewrite <- Hlen. apply gltfDelivered_root.
  - rewrite (gltfDelivered_scene _ _ _ _ w2 r s); [now rewrite Hlen | | exact Hr2].
    rewrite Ho. apply (asScene_ref w2 r s Hr2).
  - rewrite gltfDelivered_animationList, Hlen. reflexivity.
  - apply gltfDelivered_requests.
Qed.

(** *** What the text and the shape are built from *)

(** X11. [renderText] takes its flat branch only for [flat === true]. Flat
    text is a ShapeGeometry of the shapes the font generates for the text
    at the given size, with one double-sided MeshBasicMaterial: depth,
    curve segments and the bevel options do not enter it. With any other
    [flat] (absent, false, 1, "true") the text is a TextGeometry of the
    nine parameters with two MeshPhongMaterials of the same colour, of
    which the first is flat-shaded and the second is not. The colour is
    the given one, white (0xffffff) when absent. *)
Theorem renderText_flat_is_strict (w : World) (o : TextOptions.t) (p : Ref) (loadedFont : Font) :
  let built := heap (exec (textLoaded o p loadedFont) w) !! length (heap w) in
  let color := orDefault (VNumber 0xffffff) (TextOptions.color o) in
  (TextOptions.flat o = VBoolean true ->
     exists e, built = Some (OObject3D e)
       /\ visual e =
            Mesh (ShapeGeometry
                    (GeneratedShapes loadedFont (TextOptions.text o) (TextOptions.size o)) None)
                 (OneMaterial (MeshBasicMaterial None (Some color) (Some DoubleSide))))
  /\ (TextOptions.flat o <> VBoolean true ->
     exists e, built = Some (OObject3D e)
       /\ visual e =
            Mesh (TextGeometry (TextOptions.text o)
                    (mkTextParameters loadedFont (TextOptions.size o) (TextOptions.depth o)
                       (TextOptions.curveSegments o) (TextOptions.bevelEnabled o)
                       (TextOptions.bevelThickness o) (TextOptions.bevelSize o)
                       (TextOptions.bevelOffset o) (TextOptions.bevelSegments o)))
                 (MaterialArray [MeshPhongMaterial (Some true) color;
                                 MeshPhongMaterial None color])).
Proof.
  intros built color.
  assert (E : built = Some (OObject3D (textElement o loadedFont))).
  { subst built. unfold exec. rewrite textLoaded_eq. cbn [snd]. apply fulfilled_new. }
  split; intros Hf; exists (textElement o loadedFont); (split; [exact E |]);
    unfold textElement, textGeometry, textMaterial; cbn [visual].
  - now rewrite Hf.
  - destruct (TextOptions.flat o) as [| |[|]| | | | |]; try reflexivity. congruence.
Qed.

(** X12. The material of [renderShape] is one double-sided
    MeshBasicMaterial. Only a string [texture] is used: the material then
    maps the texture of that URL in the sRGB colour space and has no
    colour of its own, whatever [color] is, and exactly one texture load
    without callbacks is started. With any other [texture] (absent, a
    number, null) nothing is loaded and the material has the given
    colour, white (0xffffff) when absent. *)
Theorem renderShape_texture_replaces_color (w : World) (o : ShapeOptions.t) :
  let w' := exec (renderShape o) w in
  let material m :=
    created (renderShape o) w =
      Some (OObject3D (mkObject3D (Mesh (shapeGeometry o) (OneMaterial m))
              (ShapeOptions.scaleX o, ShapeOptions.scaleY o, ShapeOptions.scaleZ o)
              (VNumber (ShapeOptions.posX o), ShapeOptions.posY o, ShapeOptions.posZ o))) in
  (forall u, ShapeOptions.texture o = VString u ->
     material (MeshBasicMaterial (Some (mkTexture (VString u) None (Some SRGBColorSpace)))
                                 None (Some DoubleSide))
     /\ requests w' = requests w ++ [mkRequest TextureLoader (VString u) None None false])
  /\ (typeof (ShapeOptions.texture o) <> TString ->
     material (MeshBasicMaterial None
                 (Some (orDefault (VNumber 0xffffff) (ShapeOptions.color o)))
                 (Some DoubleSide))
     /\ requests w' = requests w).
Proof.
  intros w' material.
  assert (Hreq : requests w' = requests (shapeRequested o w))
    by (subst w'; unfold exec; rewrite renderShape_eq; cbn [snd]; apply placed_requests).
  subst material. cbn beta. rewrite created_renderShape, Hreq.
  unfold shapeElement, shapeMaterial, shapeRequested, textureRequest.
  split.
  - intros u ->. split; reflexivity.
  - intros Hn. destruct (ShapeOptions.texture o); cbn in Hn; try congruence; split; reflexivity.
Qed.

(** *** Loads that fail *)

Lemma alter_beyond {A} (f : A -> A) (l : list A) (i : nat) :
  l !! i = None -> alter f i l = l.
Proof.
  revert i; induction l as [|a l IH]; intros [|i] H; simpl in *; try discriminate;
    try reflexivity.
  change (a :: alter f i l = a :: l). now rewrite IH.
Qed.

Lemma loadFails_eq (i : nat) (w : World) :
  exec (step (LoadFails i)) w =
  withRequests
    (alter (fun r => mkRequest (loader r) (url r) (onLoad r) (onError r) true) i (requests w)) w.
Proof.
  unfold exec. cbn [step].
  destruct (requests w !! i) as [r |] eqn:Hr.
  - destruct (settled r) eqn:Hs.
    + cbn [snd]. rewrite (alter_as_insert _ _ _ _ Hr), list_insert_id; [now destruct w |].
      rewrite Hr. f_equal. destruct r; cbn in Hs |- *; now subst.
    + destruct (onError r) as [[] |]. reflexivity.
  - cbn [snd].
    rewrite alter_beyond by exact Hr. now destruct w.
Qed.

Lemma setBackground_eq (o : BackgroundOptions.t) (r : Ref) (s : Scene) (w : World) :
  BackgroundOptions.scene o = VObject r -> heap w !! r = Some (OScene s) ->
  exec (setBackground o) w = backgroundSet o r s w.
Proof.
  intros Ho Hs. unfold exec, setBackground, backgroundSet.
  rewrite Ho, (asScene_ref w r s Hs).
  destruct (defined (BackgroundOptions.dark o) && defined (BackgroundOptions.light o)).
  - rewrite bind_eq.
    destruct (prefersDark (window w));
      [pose proof (writeBackground_scene w r s (Color (BackgroundOptions.dark o)) Hs) as E
      |pose proof (writeBackground_scene w r s (Color (BackgroundOptions.light o)) Hs) as E];
      unfold exec in E; rewrite E; reflexivity.
  - destruct (defined (BackgroundOptions.image o)); [reflexivity |].
    destruct (defined (BackgroundOptions.hdr o)); [reflexivity |].
    destruct (defined (BackgroundOptions.exr o)); [reflexivity |].
    apply (writeBackground_scene w r s _ Hs).
Qed.


(** *** How the world changes over time *)

Lemma ages_refl (x : HostObject) : ages x x.
Proof.
  destruct x as [s | e | cs | k c | e | g | p |]; cbn; auto;
    exists []; now rewrite app_nil_r.
Qed.

Lemma ages_trans (x y z : HostObject) : ages x y -> ages y z -> ages x z.
Proof.
  destruct x as [s | e | cs | k c | e | g | p |], y as [s' | e' | cs' | k' c' | e' | g' | p' |];
    cbn; try contradiction;
    destruct z as [s'' | e'' | cs'' | k'' c'' | e'' | g'' | p'' |]; cbn; try contradiction; auto.
  - intros [a Ha] [b Hb]. exists (a ++ b). now rewrite Hb, Ha, app_assoc.
  - intros [a ->] [b ->]. exists (a ++ b). now rewrite app_assoc.
  - congruence.
  - congruence.
  - intros [H1 H2] [H3 H4]. split; congruence.
  - intros [-> | ->] H; auto.
Qed.

(** Closing a goal [ages x (f x)] for the updates of the module. *)
Ltac aged :=
  let x := fresh "x" in
  intros x; destruct x as [? | ? | ? | ? ? | ? | ? | [| ? | ?] |]; cbn;
  first [ exact I | reflexivity | now left | now right | now eexists | now split
        | now (exists []; rewrite app_nil_r) ].

Section Drift.
Context (mayLog : string -> Prop) (mayListen : Prop) (maySettle : nat -> Prop).

#[local] Instance drift_refl : Reflexive (drift mayLog mayListen maySettle).
Proof.
  intros w. repeat split.
  - intros r x Hx. exists x. split; [exact Hx | apply ages_refl].
  - exists []. rewrite app_nil_r. auto.
  - exists []. rewrite app_nil_r. auto.
  - intros i q Hq. exists q. auto 10.
Qed.

#[local] Instance drift_trans : Transitive (drift mayLog mayListen maySettle).
Proof.
  intros w1 w2 w3 (Hh1 & (l1 & Hl1 & Hm1) & (m1 & Hc1 & Hf1) & Hr1)
    (Hh2 & (l2 & Hl2 & Hm2) & (m2 & Hc2 & Hf2) & Hr2).
  repeat split.
  - intros r x Hx. destruct (Hh1 r x Hx) as (y & Hy & Hxy).
    destruct (Hh2 r y Hy) as (z & Hz & Hyz). exists z. split; [exact Hz |].
    eapply ages_trans; eassumption.
  - exists (l1 ++ l2). rewrite Hl2, Hl1, app_assoc. split; [reflexivity |].
    destruct Hm1 as [? | ->]; [now left |]. destruct Hm2 as [? | ->]; [now left | now right].
  - exists (m1 ++ m2). rewrite Hc2, Hc1, app_assoc. split; [reflexivity |].
    apply Forall_app; auto.
  - intros i q Hq. destruct (Hr1 i q Hq) as (q' & Hq' & E1 & E2 & E3 & E4).
    destruct (Hr2 i q' Hq') as (q'' & Hq'' & F1 & F2 & F3 & F4).
    exists q''. repeat split; try congruence.
    destruct F4 as [F4 | F4]; [| now right].
    destruct E4 as [E4 | [E4 E5]]; [left; congruence | right; split; congruence].
Qed.

Lemma drift_of (w w' : World) :
  (forall r x, heap w !! r = Some x -> exists x', heap w' !! r = Some x' /\ ages x x') ->
  listeners w' = listeners w -> console w' = console w -> requests w' = requests w ->
  drift mayLog mayListen maySettle w w'.
Proof.
  intros Hh Hl Hc Hr. repeat split.
  - exact Hh.
  - exists []. rewrite app_nil_r. auto.
  - exists []. rewrite app_nil_r. auto.
  - intros i q Hq. exists q. rewrite Hr. auto 10.
Qed.

Lemma drift_same_heap (w w' : World) :
  heap w' = heap w -> listeners w' = listeners w -> console w' = console w ->
  requests w' = requests w -> drift mayLog mayListen maySettle w w'.
Proof.
  intros Hh. apply drift_of. intros r x Hx. exists x. rewrite Hh.
  split; [exact Hx | apply ages_refl].
Qed.

Lemma drift_window (win : Window) (w : World) :
  drift mayLog mayListen maySettle w (withWindow win w).
Proof. now apply drift_same_heap. Qed.

Lemma drift_update (r : Ref) (f : HostObject -> HostObject) :
  (forall x, ages x (f x)) -> stable (drift mayLog mayListen maySettle) (update r f).
Proof.
  intros Hf w. apply drift_of; try reflexivity.
  intros i x Hx. cbn [snd update heap withHeap].
  destruct (decide (r = i)) as [-> | Hne].
  - exists (f x). rewrite list_lookup_alter_eq, Hx. split; [reflexivity | apply Hf].
  - exists x. rewrite list_lookup_alter_ne by exact Hne. split; [exact Hx | apply ages_refl].
Qed.

Lemma drift_alloc (o : HostObject) : stable (drift mayLog mayListen maySettle) (alloc o).
Proof.
  intros w. apply drift_of; try reflexivity.
  intros i x Hx. exists x. cbn [snd alloc heap withHeap].
  rewrite lookup_app_l by (eapply lookup_lt_Some, Hx). split; [exact Hx | apply ages_refl].
Qed.

Lemma drift_emit (e : Effect) : stable (drift mayLog mayListen maySettle) (emit e).
Proof. intros w. now apply drift_same_heap. Qed.

Lemma drift_push (e : AnimationEntry) : stable (drift mayLog mayListen maySettle) (push e).
Proof. intros w. now apply drift_same_heap. Qed.

Lemma drift_load (l : Loader) (u : Value) (cb : option OnLoad) :
  stable (drift mayLog mayListen maySettle) (load l u cb).
Proof.
  intros w. repeat split.
  - intros r x Hx. exists x. split; [exact Hx | apply ages_refl].
  - exists []. rewrite app_nil_r. auto.
  - exists []. rewrite app_nil_r. auto.
  - intros i q Hq. exists q. cbn [snd load requests withRequests].
    rewrite lookup_app_l by (eapply lookup_lt_Some, Hq). auto 10.
Qed.

Lemma drift_settle (i : nat) :
  maySettle i -> stable (drift mayLog mayListen maySettle) (settle i).
Proof.
  intros Hi w. repeat split.
  - intros r x Hx. exists x. split; [exact Hx | apply ages_refl].
  - exists []. rewrite app_nil_r. auto.
  - exists []. rewrite app_nil_r. auto.
  - intros j q Hq. cbn [snd settle requests withRequests].
    destruct (decide (i = j)) as [-> | Hne].
    + eexists. rewrite list_lookup_alter_eq, Hq. cbn. repeat split. now right.
    + exists q. rewrite list_lookup_alter_ne by exact Hne. auto 10.
Qed.

Lemma drift_consoleError (m : string) :
  mayLog m -> stable (drift mayLog mayListen maySettle) (consoleError m).
Proof.
  intros Hm w. repeat split.
  - intros r x Hx. exists x. split; [exact Hx | apply ages_refl].
  - exists []. rewrite app_nil_r. auto.
  - exists [m]. split; [reflexivity | repeat constructor; exact Hm].
  - intros i q Hq. exists q. auto 10.
Qed.

Lemma drift_addEventListener (t : EventTarget) (h : Handler) :
  mayListen -> stable (drift mayLog mayListen maySettle) (addEventListener t h).
Proof.
  intros Hm w. repeat split.
  - intros r x Hx. exists x. split; [exact Hx | apply ages_refl].
  - exists [mkListener t h]. split; [reflexivity | now left].
  - exists []. rewrite app_nil_r. auto.
  - intros i q Hq. exists q. auto 10.
Qed.

(** Walk through a computation, closing its primitives. *)
Ltac tread :=
  repeat first
    [ lazymatch goal with
      | |- stable _ (ret _) => apply stable_ret; typeclasses eauto
      | |- stable _ (bind _ _) => apply stable_bind; [typeclasses eauto | | intros ?]
      | |- stable _ getWindow => apply stable_pure; [typeclasses eauto | reflexivity]
      | |- stable _ (readClientWidth _) =>
          apply stable_pure; [typeclasses eauto | reflexivity]
      | |- stable _ (readClientHeight _) =>
          apply stable_pure; [typeclasses eauto | reflexivity]
      | |- stable _ (receivedCalls _) =>
          apply stable_pure; [typeclasses eauto | reflexivity]
      | |- stable _ (update _ _) => apply drift_update; aged
      | |- stable _ (alloc _) => apply drift_alloc
      | |- stable _ (emit _) => apply drift_emit
      | |- stable _ (push _) => apply drift_push
      | |- stable _ (load _ _ _) => apply drift_load
      | |- stable _ (settle _) => apply drift_settle; assumption
      | |- stable _ (consoleError _) => apply drift_consoleError; assumption
      | |- stable _ (addEventListener _ _) => apply drift_addEventListener; assumption
      end
    | branch ].

Lemma drift_writeBackground r b :
  stable (drift mayLog mayListen maySettle) (writeBackground r b).
Proof. unfold writeBackground. tread. Qed.

Lemma drift_writeEnvironment r t :
  stable (drift mayLog mayListen maySettle) (writeEnvironment r t).
Proof. unfold writeEnvironment. tread. Qed.

Lemma drift_sceneAdd r c : stable (drift mayLog mayListen maySettle) (sceneAdd r c).
Proof. unfold sceneAdd, addChild. tread. Qed.

Lemma drift_attach scene c : stable (drift mayLog mayListen maySettle) (attach scene c).
Proof.
  intros w. unfold attach. destruct (asScene scene w); [| reflexivity].
  apply drift_sceneAdd.
Qed.

Lemma drift_resizeChange canvas renderer camera f :
  stable (drift mayLog mayListen maySettle) (resizeChange canvas renderer camera f).
Proof. unfold resizeChange, callRenderer, updateElement. tread. Qed.

(** Closing a goal about a helper that was walked through already. *)
Ltac trodden :=
  lazymatch goal with
  | |- stable _ (writeBackground _ _) => apply drift_writeBackground
  | |- stable _ (writeEnvironment _ _) => apply drift_writeEnvironment
  | |- stable _ (sceneAdd _ _) => apply drift_sceneAdd
  | |- stable _ (attach _ _) => apply drift_attach
  | |- stable _ (resizeChange _ _ _ _) => apply drift_resizeChange
  end.

Lemma drift_setBackground o :
  mayListen -> mayLog backgroundDiagnostic ->
  stable (drift mayLog mayListen maySettle) (setBackground o).
Proof.
  intros Hl Hm w. unfold setBackground.
  destruct (asScene (BackgroundOptions.scene o) w);
    [lift; tread; trodden | now apply drift_consoleError].
Qed.

Lemma drift_setResponsive o :
  mayListen -> mayLog responsiveDiagnostic ->
  stable (drift mayLog mayListen maySettle) (setResponsive o).
Proof.
  intros Hl Hm w. unfold setResponsive.
  destruct (asElement (ResponsiveOptions.canvas o) w),
    (asRenderer (ResponsiveOptions.renderer o) w),
    (asCamera (ResponsiveOptions.camera o) w),
    (asFunction (orDefault (VFunction defaultResponsive) (ResponsiveOptions.responsive o)));
    try (now apply drift_consoleError).
  lift. tread.
Qed.

Lemma drift_setBackground_scene o w r :
  asScene (BackgroundOptions.scene o) w = Some r -> mayListen ->
  drift mayLog mayListen maySettle w (exec (setBackground o) w).
Proof.
  intros Hs Hl. unfold exec, setBackground. rewrite Hs. lift. tread; trodden.
Qed.

Lemma drift_setResponsive_valid o w canvas renderer camera f :
  asElement (ResponsiveOptions.canvas o) w = Some canvas ->
  asRenderer (ResponsiveOptions.renderer o) w = Some renderer ->
  asCamera (ResponsiveOptions.camera o) w = Some camera ->
  asFunction (orDefault (VFunction defaultResponsive) (ResponsiveOptions.responsive o))
    = Some f ->
  mayListen ->
  drift mayLog mayListen maySettle w (exec (setResponsive o) w).
Proof.
  intros H1 H2 H3 H4 Hl. unfold exec, setResponsive. rewrite H1, H2, H3, H4. lift. tread.
Qed.

Lemma drift_materialLoop paths materials :
  stable (drift mayLog mayListen maySettle) (materialLoop paths materials).
Proof.
  revert materials. induction paths as [|x paths IH]; intros materials; cbn [materialLoop].
  - tread.
  - unfold loadTexture. tread. apply IH.
Qed.

Lemma drift_renderShape o : stable (drift mayLog mayListen maySettle) (renderShape o).
Proof.
  unfold renderShape, loadTexture, newObject3D, setScale, setPosition, register.
  tread; trodden.
Qed.

Lemma drift_renderBox o : stable (drift mayLog mayListen maySettle) (renderBox o).
Proof.
  unfold renderBox, loadTexture, newObject3D, setScale, setPosition, register.
  tread;
    lazymatch goal with
    | |- stable _ (materialLoop _ _) => apply drift_materialLoop
    | _ => trodden
    end.
Qed.

Lemma drift_renderText o : stable (drift mayLog mayListen maySettle) (renderText o).
Proof. unfold renderText. tread. Qed.

Lemma drift_renderGltfModel o :
  stable (drift mayLog mayListen maySettle) (renderGltfModel o).
Proof. unfold renderGltfModel. tread. Qed.

Lemma drift_textLoaded o q f : stable (drift mayLog mayListen maySettle) (textLoaded o q f).
Proof.
  unfold textLoaded, newObject3D, setScale, setPosition, register, resolve, fulfil.
  tread; trodden.
Qed.

Lemma drift_gltfLoaded o q m s a :
  stable (drift mayLog mayListen maySettle) (gltfLoaded o q m s a).
Proof.
  unfold gltfLoaded, setScale, setPosition, register, resolve, fulfil.
  tread; trodden.
Qed.

Lemma drift_runOnLoad cb a : stable (drift mayLog mayListen maySettle) (runOnLoad cb a).
Proof.
  unfold runOnLoad, backgroundImageLoaded, backgroundHdrLoaded, backgroundExrLoaded.
  destruct cb, a; tread;
    lazymatch goal with
    | |- stable _ (textLoaded _ _ _) => apply drift_textLoaded
    | |- stable _ (gltfLoaded _ _ _ _ _) => apply drift_gltfLoaded
    | _ => trodden
    end.
Qed.

Lemma drift_dispatch t m ls : stable (drift mayLog mayListen maySettle) (dispatch t m ls).
Proof.
  induction ls as [|l ls IH]; cbn [dispatch]; [tread |].
  apply stable_bind; [typeclasses eauto | | intros _; exact IH].
  clear IH. unfold runHandler, schemeListener. tread; trodden.
Qed.

Lemma drift_step (e : Event) (w : World) :
  permitted mayLog mayListen maySettle e ->
  drift mayLog mayListen maySettle w (exec (step e) w).
Proof.
  intros He. unfold exec. destruct e as [c | m | | | i a | i]; cbn [step].
  - destruct c as [o | o | o | o | o | o]; cbn [invoke permitted] in *.
    + destruct He. now apply drift_setBackground.
    + destruct He. now apply drift_setResponsive.
    + lift. tread. apply drift_renderText.
    + lift. tread. apply drift_renderShape.
    + lift. tread. apply drift_renderBox.
    + lift. tread. apply drift_renderGltfModel.
  - etransitivity; [apply (drift_window
                             (mkWindow m (innerWidth (window w)) (innerHeight (window w))
                                (devicePixelRatio (window w))) w) |].
    apply (drift_dispatch DarkSchemeQuery m (listeners w)).
  - apply drift_dispatch.
  - apply drift_dispatch.
  - cbn [permitted] in He.
    destruct (requests w !! i) as [r |] eqn:Hr; [| reflexivity].
    destruct (settled r) eqn:Hset; [reflexivity |]. cbn [orb].
    destruct (negb (produces (loader r) a)); [reflexivity |].
    lift. tread. apply drift_runOnLoad.
  - cbn [permitted] in He.
    destruct (requests w !! i) as [r |]; [| reflexivity].
    destruct (settled r); [reflexivity |].
    lift. tread. destruct o.
Qed.

Lemma drift_run (es : list Event) (w : World) :
  Forall (permitted mayLog mayListen maySettle) es ->
  drift mayLog mayListen maySettle w (run es w).
Proof.
  revert w. induction es as [|e es IH]; intros w Hes; cbn [run]; [reflexivity |].
  inversion Hes; subst.
  etransitivity; [apply (drift_step e w); assumption | apply IH; assumption].
Qed.

End Drift.

Lemma permitted_all (es : list Event) :
  Forall (permitted diagnostic True (fun _ => True)) es.
Proof.
  apply Forall_forall. intros e _.
  destruct e as [[o | o | o | o | o | o] | | | | |]; cbn; auto;
    split; auto; unfold diagnostic; auto.
Qed.

Lemma permitted_quiet (mayLog : string -> Prop) (mayListen : Prop) (es : list Event) :
  Forall (fun e => validates e = false) es ->
  Forall (permitted mayLog mayListen (fun _ => True)) es.
Proof.
  intros H. eapply Forall_impl; [exact H |]. intros e He.
  destruct e as [[o | o | o | o | o | o] | | | | |]; cbn in *; auto; discriminate.
Qed.

(** X14. A scene only ever gains children. Whatever happens on the page
    (calls of the exported functions, loads completing or failing, scheme,
    resize and orientation events), an object that is a scene stays a
    scene, and the children it had are still its first children, in the
    same order: the module never removes, replaces or reorders a child. *)
Theorem scene_children_append_only (es : list Event) (w : World) (r : Ref) (s : Scene) :
  heap w !! r = Some (OScene s) ->
  exists s' suffix,
    heap (run es w) !! r = Some (OScene s') /\ children s' = children s ++ suffix.
Proof.
  intros Hr.
  destruct (drift_run diagnostic True (fun _ => True) es w (permitted_all es)) as (Hh & _).
  destruct (Hh r _ Hr) as (x' & Hx' & Hages).
  destruct x' as [s' | | | | | | |]; cbn in Hages; try contradiction.
  destruct Hages as [suffix Hs]. eauto.
Qed.

(** X15. What the module has built is not rebuilt. Whatever happens on the
    page afterwards, an element (a mesh, a wireframe, the root of a loaded
    model) keeps the geometry and the materials it was created with; a
    loaded asset keeps its root object and its clips; a renderer keeps
    the calls it has received, in order; and a camera keeps its kind. *)
Theorem built_objects_persist (es : list Event) (w : World) (r : Ref) :
  let w' := run es w in
  (forall e, heap w !! r = Some (OObject3D e) ->
     exists e', heap w' !! r = Some (OObject3D e') /\ visual e' = visual e)
  /\ (forall g, heap w !! r = Some (OGltf g) ->
     exists g', heap w' !! r = Some (OGltf g')
       /\ gltf_scene g' = gltf_scene g /\ gltf_animations g' = gltf_animations g)
  /\ (forall calls, heap w !! r = Some (ORenderer calls) ->
     exists more, heap w' !! r = Some (ORenderer (calls ++ more)))
  /\ (forall k c, heap w !! r = Some (OCamera k c) ->
     exists c', heap w' !! r = Some (OCamera k c')).
Proof.
  intros w'.
  destruct (drift_run diagnostic True (fun _ => True) es w (permitted_all es)) as (Hh & _).
  repeat split.
  - intros e Hr. destruct (Hh r _ Hr) as (x' & Hx' & Hages).
    destruct x' as [| | | | e' | | |]; cbn in Hages; try contradiction. eauto.
  - intros g Hr. destruct (Hh r _ Hr) as (x' & Hx' & Hages).
    destruct x' as [| | | | | g' | |]; cbn in Hages; try contradiction.
    destruct Hages. eauto.
  - intros calls Hr. destruct (Hh r _ Hr) as (x' & Hx' & Hages).
    destruct x' as [| | cs' | | | | |]; cbn in Hages; try contradiction.
    destruct Hages as [more ->]. eauto.
  - intros k c Hr. destruct (Hh r _ Hr) as (x' & Hx' & Hages).
    destruct x' as [| | | k' c' | | | |]; cbn in Hages; try contradiction.
    subst k'. eauto.
Qed.

(** X16. Listeners are never removed. Whatever happens on the page, the
    listeners registered before are still registered, in the same order;
    and only calls of [setBackground] and [setResponsive] register
    listeners: a sequence of events without such a call leaves the
    listeners as they are. *)
Theorem listeners_never_removed (es : list Event) (w : World) :
  (exists added, listeners (run es w) = listeners w ++ added)
  /\ (Forall (fun e => validates e = false) es -> listeners (run es w) = listeners w).
Proof.
  split.
  - destruct (drift_run diagnostic True (fun _ => True) es w (permitted_all es))
      as (_ & (ls & Hl & _) & _). eauto.
  - intros Hq.
    destruct (drift_run (fun _ => False) False (fun _ => True) es w
                (permitted_quiet _ _ es Hq)) as (_ & (ls & Hl & [[] | ->]) & _).
    now rewrite Hl, app_nil_r.
Qed.

Lemma console_step (e : Event) (w : World) :
  exists ms, console (exec (step e) w) = console w ++ ms
    /\ Forall diagnostic ms
    /\ length ms <= (if validates e then 1 else 0).
Proof.
  assert (Hquiet : drift (fun _ => False) True (fun _ => True) w (exec (step e) w) ->
    exists ms, console (exec (step e) w) = console w ++ ms
      /\ Forall diagnostic ms /\ length ms <= (if validates e then 1 else 0)).
  { intros (_ & _ & (ms & Hc & Hf) & _). exists ms.
    destruct ms as [|m ms];
      [split; [exact Hc | split; [constructor | simpl; lia]] |].
    inversion Hf as [| ? ? []]. }
  assert (Hloud : forall m, diagnostic m -> validates e = true ->
    exec (step e) w = withConsole (console w ++ [m]) w ->
    exists ms, console (exec (step e) w) = console w ++ ms
      /\ Forall diagnostic ms /\ length ms <= (if validates e then 1 else 0)).
  { intros m Hm Hv ->. exists [m]. rewrite Hv.
    split; [reflexivity | split; [constructor; [exact Hm | constructor] | simpl; lia]]. }
  destruct e as [[o | o | o | o | o | o] | | | | |];
    try (apply Hquiet, drift_step; cbn; auto; fail).
  - change (exec (step (Invoke (CallSetBackground o))) w) with (exec (setBackground o) w) in *.
    destruct (asScene (BackgroundOptions.scene o) w) as [r |] eqn:Hs.
    + apply Hquiet. now apply (drift_setBackground_scene _ _ _ o w r).
    + apply (Hloud backgroundDiagnostic); [now left | reflexivity |].
      unfold exec, setBackground. now rewrite Hs.
  - change (exec (step (Invoke (CallSetResponsive o))) w) with (exec (setResponsive o) w) in *.
    destruct (asElement (ResponsiveOptions.canvas o) w) as [canvas |] eqn:H1;
      [destruct (asRenderer (ResponsiveOptions.renderer o) w) as [renderer |] eqn:H2;
       [destruct (asCamera (ResponsiveOptions.camera o) w) as [camera |] eqn:H3;
        [destruct (asFunction (orDefault (VFunction defaultResponsive)
                                 (ResponsiveOptions.responsive o))) as [f |] eqn:H4 |] |] |].
    1: { apply Hquiet.
         now apply (drift_setResponsive_valid _ _ _ o w canvas renderer camera f). }
    all: apply (Hloud responsiveDiagnostic); [now right | reflexivity |];
      unfold exec, setResponsive; now rewrite ?H1, ?H2, ?H3, ?H4.
Qed.

(** X17. The console only ever gets the two diagnostics of the module.
    Whatever happens on the page, what was on the console stays, every
    message added is "Invalid options for 'setBackground' function." or
    "Invalid options for 'setResponsive' function.", and there is at most
    one of them for every call of [setBackground] or [setResponsive]
    among the events: the renderers, the load callbacks and the event
    handlers never write to the console. *)
Theorem console_only_diagnostics (es : list Event) (w : World) :
  exists ms,
    console (run es w) = console w ++ ms
    /\ Forall diagnostic ms
    /\ length ms <= length (List.filter validates es).
Proof.
  revert w. induction es as [|e es IH]; intros w; cbn [run List.filter].
  - exists []. rewrite app_nil_r. split; [reflexivity | split; [constructor | simpl; lia]].
  - destruct (console_step e w) as (m1 & E1 & F1 & L1).
    destruct (IH (exec (step e) w)) as (m2 & E2 & F2 & L2).
    exists (m1 ++ m2). rewrite E2, E1, app_assoc. split; [reflexivity | split].
    + apply Forall_app; auto.
    + rewrite length_app. destruct (validates e); simpl in *; lia.
Qed.

(** *** The scheme listener *)

Lemma dispatch_app (t : EventTarget) (m : bool) (l1 l2 : list Listener) (w : World) :
  exec (dispatch t m (l1 ++ l2)) w = exec (dispatch t m l2) (exec (dispatch t m l1) w).
Proof.
  revert w. induction l1 as [|l l1 IH]; intros w; [reflexivity |].
  cbn [app dispatch]. unfold exec in *. rewrite !bind_eq. apply IH.
Qed.

Lemma scheme_step (w : World) (before : list Listener) (r : Ref) (s : Scene)
    (dark light : Value) (m : bool) :
  listeners w = before ++ [mkListener DarkSchemeQuery (SchemeListener r dark light)] ->
  heap w !! r = Some (OScene s) ->
  let w' := exec (step (SchemeChange m)) w in
  listeners w' = listeners w
  /\ exists s', heap w' !! r = Some (OScene s')
       /\ background s' = Some (Color (if m then dark else light)).
Proof.
  intros Hl Hr w'. subst w'. unfold exec at 1 2. cbn [step].
  set (w0 := withWindow _ w).
  fold (exec (dispatch DarkSchemeQuery m (listeners w)) w0).
  rewrite Hl, dispatch_app.
  set (w1 := exec (dispatch DarkSchemeQuery m before) w0).
  assert (Hd : drift (fun _ => False) False (fun _ => False) w0 w1)
    by apply drift_dispatch.
  destruct Hd as (Hh & (ls & Hls & [[] | ->]) & _).
  rewrite app_nil_r in Hls.
  destruct (Hh r _ Hr) as (x' & Hx' & Hages).
  destruct x' as [s1 | | | | | | |]; cbn in Hages; try contradiction.
  assert (E : exec (dispatch DarkSchemeQuery m
                      [mkListener DarkSchemeQuery (SchemeListener r dark light)]) w1 =
              exec (writeBackground r (Color (if m then dark else light))) w1).
  { cbn [dispatch target handler runHandler schemeListener]. unfold exec.
    rewrite !bind_eq. destruct m; reflexivity. }
  rewrite E, (writeBackground_scene w1 r s1 _ Hx').
  cbn [listeners heap withTrace withHeap]. rewrite Hls. split; [exact Hl |].
  eexists. split; [apply list_lookup_insert_eq; eapply lookup_lt_Some, Hx' | reflexivity].
Qed.

(** X18. After [setBackground] was called with a dark and a light colour,
    the scene's background follows the colour scheme: after every change
    of the scheme it is the dark colour if the scheme is now dark and the
    light colour if not, however often the scheme changed before. The
    listener is registered once, by the call, and stays registered. *)
Theorem background_follows_scheme (w : World) (o : BackgroundOptions.t) (r : Ref) (s : Scene)
    (changes : list bool) (now : bool) :
  BackgroundOptions.scene o = VObject r -> heap w !! r = Some (OScene s) ->
  defined (BackgroundOptions.dark o) && defined (BackgroundOptions.light o) = true ->
  let dark := BackgroundOptions.dark o in
  let light := BackgroundOptions.light o in
  let w' := run (Invoke (CallSetBackground o) :: List.map SchemeChange (changes ++ [now])) w in
  listeners w' = listeners w ++ [mkListener DarkSchemeQuery (SchemeListener r dark light)]
  /\ exists s', heap w' !! r = Some (OScene s')
       /\ background s' = Some (Color (if now then dark else light)).
Proof.
  intros Ho Hr Hdl dark light w'. subst w'. cbn [run].
  change (exec (step (Invoke (CallSetBackground o))) w) with (exec (setBackground o) w).
  rewrite (setBackground_eq o r s w Ho Hr). unfold backgroundSet. rewrite Hdl.
  fold dark light.
  set (w1 := withListeners _ _).
  assert (Hl1 : listeners w1 =
                listeners w ++ [mkListener DarkSchemeQuery (SchemeListener r dark light)])
    by reflexivity.
  assert (Hr1 : exists s1, heap w1 !! r = Some (OScene s1)).
  { eexists. subst w1. cbn [heap withListeners withTrace withHeap].
    apply list_lookup_insert_eq. eapply lookup_lt_Some, Hr. }
  clearbody w1. clear Hr Ho Hdl s.
  rewrite map_app, run_app. cbn [List.map run].
  assert (Hrun : listeners (run (List.map SchemeChange changes) w1) = listeners w1
                 /\ exists s2, heap (run (List.map SchemeChange changes) w1) !! r
                               = Some (OScene s2)).
  { revert w1 Hl1 Hr1. induction changes as [|c changes IH]; intros w1 Hl1 [s1 Hr1].
    - split; [reflexivity | eauto].
    - cbn [List.map run].
      destruct (scheme_step w1 _ r s1 dark light c Hl1 Hr1) as (Hl2 & s2 & Hr2 & _).
      destruct (IH (exec (step (SchemeChange c)) w1)) as [Hl3 Hr3];
        [now rewrite Hl2 | eauto |].
      split; [now rewrite Hl3 | exact Hr3]. }
  destruct Hrun as [Hl2 [s2 Hr2]]. rewrite <- Hl2 in Hl1.
  destruct (scheme_step _ _ r s2 dark light now Hl1 Hr2) as (Hl3 & s3 & Hr3 & Hb3).
  split; [now rewrite Hl3 | eauto].
Qed.

(** *** Loads that complete late *)

Lemma permitted_leaves (q : nat) (es : list Event) :
  Forall (leaves q) es -> Forall (permitted diagnostic True (fun i => i <> q)) es.
Proof.
  intros H. eapply Forall_impl; [exact H |]. intros e He.
  destruct e as [[o | o | o | o | o | o] | | | | |]; cbn in *; auto;
    split; auto; unfold diagnostic; auto.
Qed.

(** A load in flight is still in flight after events that are not its end,
    and its completion then runs its callback. *)
Lemma pending_load_completes (w : World) (es : list Event) (q : nat) (rq : Request)
    (cb : OnLoad) (a : Asset) (r : Ref) (s : Scene) :
  requests w !! q = Some rq -> settled rq = false -> onLoad rq = Some cb ->
  produces (loader rq) a = true ->
  Forall (leaves q) es ->
  heap w !! r = Some (OScene s) ->
  exists w2 s2 suffix,
    heap w2 !! r = Some (OScene s2) /\ children s2 = children s ++ suffix
    /\ run (es ++ [LoadSucceeds q a]) w = exec (runOnLoad cb a) w2.
Proof.
  intros Hq Hset Hcb Hp Hes Hr.
  destruct (drift_run diagnostic True (fun i => i <> q) es w (permitted_leaves q es Hes))
    as (Hh & _ & _ & Hreq).
  destruct (Hh r _ Hr) as (x' & Hx' & Hages).
  destruct x' as [s2 | | | | | | |]; cbn in Hages; try contradiction.
  destruct Hages as [suffix Hs2].
  destruct (Hreq q rq Hq) as (rq' & Hq' & El & _ & Ecb & [Es | [[] _]]); [| reflexivity].
  exists (exec (settle q) (run es w)), s2, suffix.
  split; [exact Hx' | split; [exact Hs2 |]].
  rewrite run_app. cbn [run]. unfold exec at 1. cbn [step].
  rewrite Hq', Es, Hset, El, Hp, Ecb, Hcb. cbn [orb negb].
  rewrite bind_eq. reflexivity.
Qed.

(** X19. A background load is never cancelled. Once [setBackground] has
    started the load of an image, an HDR or an EXR, whatever happens on
    the page before the load ends (other calls of [setBackground] on the
    same scene with a plain colour or another URL, scheme changes, other
    loads), the completion of that load paints the scene: the image
    becomes its background, the HDR or EXR its background and its
    environment, replacing what was painted in between. *)
Theorem background_load_is_not_cancelled (w : World) (o : BackgroundOptions.t)
    (r : Ref) (s : Scene) (es : list Event) (t : Texture) :
  BackgroundOptions.scene o = VObject r -> heap w !! r = Some (OScene s) ->
  defined (BackgroundOptions.dark o) && defined (BackgroundOptions.light o) = false ->
  let q := length (requests w) in
  Forall (leaves q) es ->
  let w' := run (Invoke (CallSetBackground o) :: es ++ [LoadSucceeds q (LoadedTexture t)]) w in
  (defined (BackgroundOptions.image o) = true ->
     exists s', heap w' !! r = Some (OScene s')
       /\ background s' = Some (TextureBackground (imageTexture t)))
  /\ (defined (BackgroundOptions.image o) = false ->
      defined (BackgroundOptions.hdr o) || defined (BackgroundOptions.exr o) = true ->
     exists s', heap w' !! r = Some (OScene s')
       /\ background s' = Some (TextureBackground (panoramaTexture t))
       /\ environment s' = Some (panoramaTexture t)).
Proof.
  intros Ho Hr Hdl q Hes w'. subst w'. cbn [run].
  change (exec (step (Invoke (CallSetBackground o))) w) with (exec (setBackground o) w).
  rewrite (setBackground_eq o r s w Ho Hr). unfold backgroundSet. rewrite Hdl.
  assert (Hpan : forall l u cb,
    produces l (LoadedTexture t) = true ->
    cb = BackgroundHdr r \/ cb = BackgroundExr r ->
    exists s', heap (run (es ++ [LoadSucceeds q (LoadedTexture t)])
                       (withRequests (requests w ++ [mkRequest l u (Some cb) None false]) w))
               !! r = Some (OScene s')
      /\ background s' = Some (TextureBackground (panoramaTexture t))
      /\ environment s' = Some (panoramaTexture t)).
  { intros l u cb Hp Hcb.
    edestruct (pending_load_completes
                 (withRequests (requests w ++ [mkRequest l u (Some cb) None false]) w)
                 es q (mkRequest l u (Some cb) None false) cb (LoadedTexture t) r s)
      as (w2 & s2 & suffix & Hr2 & _ & ->);
      [apply lookup_snoc | reflexivity | reflexivity | exact Hp | exact Hes | exact Hr |].
    assert (Hrun : runOnLoad cb (LoadedTexture t) =
      (writeBackground r (TextureBackground (panoramaTexture t)) ;;
       writeEnvironment r (panoramaTexture t))%js)
      by (destruct Hcb; subst cb; reflexivity).
    rewrite Hrun. unfold exec. rewrite bind_eq.
    pose proof (writeBackground_scene w2 r s2 (TextureBackground (panoramaTexture t)) Hr2) as E.
    unfold exec in E. rewrite E.
    unfold writeEnvironment, update, emit. rewrite bind_eq.
    cbn [fst snd heap withHeap withTrace]. rewrite alter_insert.
    eexists. split; [apply list_lookup_insert_eq; eapply lookup_lt_Some, Hr2 |].
    split; reflexivity. }
  split.
  - intros Hi. rewrite Hi.
    edestruct (pending_load_completes
                 (withRequests (requests w ++ [mkRequest TextureLoader (BackgroundOptions.image o)
                                                 (Some (BackgroundImage r)) None false]) w)
                 es q (mkRequest TextureLoader (BackgroundOptions.image o)
                         (Some (BackgroundImage r)) None false)
                 (BackgroundImage r) (LoadedTexture t) r s)
      as (w2 & s2 & suffix & Hr2 & _ & ->);
      [apply lookup_snoc | reflexivity | reflexivity | reflexivity | exact Hes | exact Hr |].
    cbn [runOnLoad]. unfold backgroundImageLoaded.
    rewrite (writeBackground_scene w2 r s2 _ Hr2). cbn [heap withTrace withHeap].
    eexists. split; [apply list_lookup_insert_eq; eapply lookup_lt_Some, Hr2 | reflexivity].
  - intros Hi Hany. rewrite Hi.
    destruct (defined (BackgroundOptions.hdr o)).
    + apply Hpan; [reflexivity | now left].
    + destruct (defined (BackgroundOptions.exr o)); [| discriminate Hany].
      apply Hpan; [reflexivity | now right].
Qed.

(** *** Registering the resize handler more than once *)

Lemma setResponsive_valid_eq (o : ResponsiveOptions.t) (w : World)
    (canvas renderer camera : Ref) (f : Function) :
  asElement (ResponsiveOptions.canvas o) w = Some canvas ->
  asRenderer (ResponsiveOptions.renderer o) w = Some renderer ->
  asCamera (ResponsiveOptions.camera o) w = Some camera ->
  orDefault (VFunction defaultResponsive) (ResponsiveOptions.responsive o) = VFunction f ->
  exec (step (Invoke (CallSetResponsive o))) w =
  withListeners
    (listeners w ++ [mkListener WindowResize (ResizeChange canvas renderer camera f);
                     mkListener ScreenOrientation (ResizeChange canvas renderer camera f)]) w.
Proof.
  intros H1 H2 H3 H4. unfold exec. cbn [step invoke]. unfold setResponsive.
  rewrite H1, H2, H3, H4. cbn [asFunction]. unfold bind, addEventListener.
  cbn [snd listeners withListeners]. rewrite <- app_assoc. now destruct w.
Qed.

Lemma setResponsive_repeat (o : ResponsiveOptions.t) (canvas renderer camera : Ref)
    (f : Function) (n : nat) (w : World) :
  asElement (ResponsiveOptions.canvas o) w = Some canvas ->
  asRenderer (ResponsiveOptions.renderer o) w = Some renderer ->
  asCamera (ResponsiveOptions.camera o) w = Some camera ->
  orDefault (VFunction defaultResponsive) (ResponsiveOptions.responsive o) = VFunction f ->
  run (replicate n (Invoke (CallSetResponsive o))) w =
  withListeners
    (listeners w ++
       concat (replicate n [mkListener WindowResize (ResizeChange canvas renderer camera f);
                            mkListener ScreenOrientation (ResizeChange canvas renderer camera f)]))
    w.
Proof.
  intros H1 H2 H3 H4. revert w H1 H2 H3.
  induction n as [|n IH]; intros w H1 H2 H3.
  - cbn. rewrite app_nil_r. now destruct w.
  - cbn [replicate run concat].
    rewrite (setResponsive_valid_eq o w canvas renderer camera f H1 H2 H3 H4).
    rewrite IH by assumption.
    cbn [listeners withListeners]. rewrite <- app_assoc. reflexivity.
Qed.

Lemma dispatch_nil (t : EventTarget) (m : bool) (u : World) :
  exec (dispatch t m []) u = u.
Proof. reflexivity. Qed.

Lemma dispatch_resize_pair (canvas renderer camera : Ref) (f : Function) (m : bool)
    (rest : list Listener) (u : World) :
  exec (dispatch WindowResize m
          (mkListener WindowResize (ResizeChange canvas renderer camera f)
           :: mkListener ScreenOrientation (ResizeChange canvas renderer camera f) :: rest)) u =
  exec (dispatch WindowResize m rest) (exec (resizeChange canvas renderer camera f) u).
Proof.
  cbn [dispatch target handler runHandler]. unfold exec. rewrite !bind_eq. reflexivity.
Qed.

Lemma resizedTimes_calls (n : nat) (f : Function) (win : Window) (draws : bool)
    (calls : list RendererCall) (e : HTMLElement) :
  exists cs, snd (resizedTimes n f win draws calls e) = calls ++ cs
             /\ length cs = (2 * n)%nat.
Proof.
  revert calls e. induction n as [|n IH]; intros calls e.
  - exists []. now rewrite app_nil_r.
  - cbn [resizedTimes].
    destruct (IH (calls ++ requested f win draws calls e) (resized f win draws calls e))
      as (cs & -> & Hlen).
    exists (requested f win draws calls e ++ cs). rewrite app_assoc.
    split; [reflexivity |]. rewrite length_app, Hlen. cbn. lia.
Qed.

Lemma resizedTimes_elsewhere (n : nat) (f : Function) (win : Window)
    (calls : list RendererCall) (e : HTMLElement) :
  fst (resizedTimes n f win false calls e) = Nat.iter n (copied f win) e.
Proof.
  revert calls e. induction n as [|n IH]; intros calls e; [reflexivity |].
  cbn [resizedTimes]. rewrite IH, Nat.iter_succ_r. reflexivity.
Qed.

Lemma resize_dispatch (canvas renderer camera : Ref) (f : Function) (k : CameraKind)
    (m : bool) (n : nat) (u : World) (e : HTMLElement) (calls : list RendererCall)
    (c : Camera) :
  heap u !! canvas = Some (OElement e) ->
  heap u !! renderer = Some (ORenderer calls) ->
  heap u !! camera = Some (OCamera k c) ->
  let h := ResizeChange canvas renderer camera f in
  let u' := exec (dispatch WindowResize m
                    (concat (replicate n [mkListener WindowResize h;
                                          mkListener ScreenOrientation h]))) u in
  let times := resizedTimes n f (window u) (drawsInto renderer canvas) calls e in
  heap u' !! canvas = Some (OElement (fst times))
  /\ heap u' !! renderer = Some (ORenderer (snd times))
  /\ (exists c', heap u' !! camera = Some (OCamera k c'))
  /\ (exists tr, trace u' = trace u ++ tr /\ length tr = (7 * n)%nat).
Proof.
  intros Hc Hr Hm h u' times. subst u' times. revert u e calls c Hc Hr Hm.
  induction n as [|n IH]; intros u e calls c Hc Hr Hm.
  - cbn [replicate concat dispatch resizedTimes fst snd]. unfold exec, ret. cbn [snd].
    split; [exact Hc |]. split; [exact Hr |].
    split; [eauto |]. exists []. now rewrite app_nil_r.
  - cbn [replicate concat app resizedTimes]. subst h. rewrite dispatch_resize_pair.
    destruct (resizeChange_at u canvas renderer camera f e calls k c Hc Hr Hm)
      as (Hc1 & Hr1 & Hm1 & Ht1 & Hw1).
    set (u1 := exec (resizeChange canvas renderer camera f) u) in *.
    destruct (IH u1 _ _ _ Hc1 Hr1 Hm1) as (IHc & IHr & IHm & (tr & IHt & IHtl)).
    rewrite Hw1 in IHc, IHr.
    split; [exact IHc |]. split; [exact IHr |]. split; [exact IHm |].
    eexists. rewrite IHt, Ht1, <- app_assoc.
    split; [reflexivity |]. rewrite length_app, IHtl. simpl. lia.
Qed.

(** X20. [setResponsive] does not replace an earlier registration. n
    calls with the same valid options register 2n listeners (n on the
    window's resize, n on the orientation change) and change nothing
    else; one resize event then runs the handler n times in a row: the
    canvas is resized n times (if the renderer does not draw into it,
    that is the policy and the copy of the client size, n times), the
    renderer receives 2n calls and 7n writes and calls are made in all. *)
Theorem setResponsive_adds_up (w : World) (o : ResponsiveOptions.t)
    (canvas renderer camera : Ref) (responsive : Function)
    (e : HTMLElement) (calls : list RendererCall) (k : CameraKind) (c : Camera) (n : nat) :
  ResponsiveOptions.canvas o = VObject canvas -> heap w !! canvas = Some (OElement e) ->
  ResponsiveOptions.renderer o = VObject renderer ->
  heap w !! renderer = Some (ORenderer calls) ->
  ResponsiveOptions.camera o = VObject camera -> heap w !! camera = Some (OCamera k c) ->
  orDefault (VFunction defaultResponsive) (ResponsiveOptions.responsive o)
    = VFunction responsive ->
  listeners w = [] ->
  let h := ResizeChange canvas renderer camera responsive in
  let registered := run (replicate n (Invoke (CallSetResponsive o))) w in
  let after := exec (step Resize) registered in
  registered =
    withListeners (concat (replicate n [mkListener WindowResize h;
                                        mkListener ScreenOrientation h])) w
  /\ heap after !! canvas =
       Some (OElement
               (fst (resizedTimes n responsive (window w) (drawsInto renderer canvas)
                                  calls e)))
  /\ (drawsInto renderer canvas = false ->
      heap after !! canvas =
        Some (OElement (Nat.iter n (copied responsive (window w)) e)))
  /\ (exists cs, heap after !! renderer = Some (ORenderer (calls ++ cs))
                 /\ length cs = (2 * n)%nat)
  /\ (exists tr, trace after = trace w ++ tr /\ length tr = (7 * n)%nat).
Proof.
  intros Ho1 Hc Ho2 Hr Ho3 Hm Hf Hl h registered after.
  assert (H1 : asElement (ResponsiveOptions.canvas o) w = Some canvas)
    by (rewrite Ho1; unfold asElement; now rewrite Hc).
  assert (H2 : asRenderer (ResponsiveOptions.renderer o) w = Some renderer)
    by (rewrite Ho2; unfold asRenderer; now rewrite Hr).
  assert (H3 : asCamera (ResponsiveOptions.camera o) w = Some camera)
    by (rewrite Ho3; unfold asCamera; now rewrite Hm).
  assert (E : registered =
    withListeners (concat (replicate n [mkListener WindowResize h;
                                        mkListener ScreenOrientation h])) w).
  { subst registered.
    rewrite (setResponsive_repeat o canvas renderer camera responsive n w H1 H2 H3 Hf).
    now rewrite Hl. }
  split; [exact E |].
  subst after. unfold exec at 1 2 3. cbn [step]. rewrite E. cbn [listeners withListeners].
  set (u := withListeners _ w).
  destruct (resize_dispatch canvas renderer camera responsive k false n u e calls c Hc Hr Hm)
    as (R1 & R2 & _ & R4).
  unfold exec in R1, R2, R4.
  split; [exact R1 |].
  split.
  { intros Hd. rewrite Hd, resizedTimes_elsewhere in R1. exact R1. }
  split; [| exact R4].
  destruct (resizedTimes_calls n responsive (window u) (drawsInto renderer canvas) calls e)
    as (cs & E2 & Hlen).
  exists cs. split; [| exact Hlen]. rewrite <- E2. exact R2.
Qed.

(** *** Options that are not what the function expects *)

(** X21. [renderBox] uses [textures] only if it is a non-empty array.
    With anything else (absent, an empty array, a single URL given as a
    string, null) a solid box gets one MeshPhongMaterial of the given
    colour (white when absent), and no texture load is started: a URL
    given as a string is ignored without a diagnostic. *)
Theorem renderBox_textures_must_be_array (w : World) (o : BoxOptions.t) :
  orDefault (VBoolean true) (BoxOptions.isSolid o) = VBoolean true ->
  (forall t ts, BoxOptions.textures o <> VArray (t :: ts)) ->
  let color := orDefault (VNumber 0xffffff) (BoxOptions.color o) in
  let w' := exec (renderBox o) w in
  created (renderBox o) w =
    Some (OObject3D (mkObject3D
            (Mesh (boxGeometry o) (OneMaterial (MeshPhongMaterial None color)))
            (BoxOptions.scaleX o, BoxOptions.scaleY o, BoxOptions.scaleZ o)
            (VNumber (BoxOptions.posX o), BoxOptions.posY o, BoxOptions.posZ o)))
  /\ requests w' = requests w /\ console w' = console w.
Proof.
  intros Hsolid Htex color w'.
  assert (Hreq : requests w' = requests (boxRequested o w)
                 /\ console w' = console (boxRequested o w)).
  { subst w'. unfold exec. rewrite renderBox_eq. cbn [snd].
    now rewrite placed_requests, placed_console. }
  destruct Hreq as [-> ->]. rewrite created_renderBox.
  unfold boxElement, boxVisual, boxRequested. rewrite Hsolid.
  destruct (BoxOptions.textures o) as [| | | | | |[|t ts]|]; cbn [orDefault];
    try (repeat split; reflexivity).
  now destruct (Htex t ts).
Qed.

(** X22. With a function [animate], a loaded asset is registered whether
    or not it has clips. If it has no [animations] at all, it is
    registered without a mixer: its [mixer] stays undefined. If its
    [animations] is an empty array, it gets a mixer on its root with no
    clip playing. *)
Theorem renderGltfModel_without_clips (w : World) (o : GltfOptions.t) (p : Ref)
    (root : Object3D) (animate : Function) :
  GltfOptions.animate o = VFunction animate ->
  let modelScene := length (heap w) in
  let loadedModel := S modelScene in
  let loaded animations := exec (runOnLoad (GltfLoaded o p) (LoadedGltf root animations)) w in
  (heap (loaded None) !! loadedModel = Some (OGltf (mkGltf modelScene None None))
   /\ animationList (loaded None) = animationList w ++ [mkEntry loadedModel animate])
  /\ (heap (loaded (Some [])) !! loadedModel =
        Some (OGltf (mkGltf modelScene (Some []) (Some (mkMixer modelScene []))))
      /\ animationList (loaded (Some [])) = animationList w ++ [mkEntry loadedModel animate]).
Proof.
  intros Ha modelScene loadedModel loaded. subst loaded loadedModel modelScene.
  cbn beta. unfold exec.
  rewrite !gltfLoaded_eq. cbn [snd].
  rewrite !gltfDelivered_asset, !gltfDelivered_animationList.
  unfold gltfMixer. rewrite Ha. cbn [asFunction playEach fold_left].
  repeat split.
Qed.

(** *** The default resize policy *)

(** X23. Without a [responsive] option the canvas is made to fill the
    window: after a resize event the style of the canvas has the
    window's inner width and inner height of that moment, in pixels,
    whatever its style was before and whatever handlers registered
    earlier did to it. This holds if the renderer does not draw into the
    canvas, and then the backing size of the canvas is its client size;
    it also holds if the renderer draws into it and sizes it as three.js
    does: [setPixelRatio] leaves the style, [setSize] writes the size it
    is given, in pixels, and the browser lays a canvas with a style in
    pixels out at that size. (The browser's layout is taken not to change
    the style it lays out.) *)
Theorem default_policy_fills_window (w : World) (o : ResponsiveOptions.t)
    (canvas renderer camera : Ref) (e : HTMLElement) (calls : list RendererCall)
    (k : CameraKind) (c : Camera) :
  ResponsiveOptions.responsive o = VUndefined ->
  ResponsiveOptions.canvas o = VObject canvas -> heap w !! canvas = Some (OElement e) ->
  ResponsiveOptions.renderer o = VObject renderer ->
  heap w !! renderer = Some (ORenderer calls) ->
  ResponsiveOptions.camera o = VObject camera -> heap w !! camera = Some (OCamera k c) ->
  (forall x, style_width (reflow x) = style_width x
             /\ style_height (reflow x) = style_height x) ->
  (drawsInto renderer canvas = true ->
   (forall cs r x, style_width (resizeOutput cs (SetPixelRatio r) x) = style_width x
                   /\ style_height (resizeOutput cs (SetPixelRatio r) x) = style_height x)
   /\ (forall cs a b x, style_width (resizeOutput cs (SetSize a b) x) = CssPx a
                        /\ style_height (resizeOutput cs (SetSize a b) x) = CssPx b)
   /\ (forall x a b, style_width x = CssPx a -> style_height x = CssPx b ->
                     clientWidth (reflow x) = a /\ clientHeight (reflow x) = b)) ->
  let after := run [Invoke (CallSetResponsive o); Resize] w in
  exists e',
    heap after !! canvas = Some (OElement e')
    /\ style_width e' = CssPx (innerWidth (window after))
    /\ style_height e' = CssPx (innerHeight (window after))
    /\ (drawsInto renderer canvas = false ->
        width e' = clientWidth e' /\ height e' = clientHeight e').
Proof.
  intros Hf Ho1 Hc Ho2 Hr Ho3 Hm Hflow Hthree after. subst after. cbn [run].
  assert (H1 : asElement (ResponsiveOptions.canvas o) w = Some canvas)
    by (rewrite Ho1; unfold asElement; now rewrite Hc).
  assert (H2 : asRenderer (ResponsiveOptions.renderer o) w = Some renderer)
    by (rewrite Ho2; unfold asRenderer; now rewrite Hr).
  assert (H3 : asCamera (ResponsiveOptions.camera o) w = Some camera)
    by (rewrite Ho3; unfold asCamera; now rewrite Hm).
  assert (H4 : orDefault (VFunction defaultResponsive) (ResponsiveOptions.responsive o)
               = VFunction defaultResponsive) by now rewrite Hf.
  rewrite (setResponsive_valid_eq o w canvas renderer camera defaultResponsive H1 H2 H3 H4).
  set (registered := withListeners _ w).
  change (exec (step Resize) registered)
    with (exec (dispatch WindowResize false (listeners registered)) registered).
  change (listeners registered)
    with (listeners w ++
            [mkListener WindowResize (ResizeChange canvas renderer camera defaultResponsive);
             mkListener ScreenOrientation (ResizeChange canvas renderer camera defaultResponsive)]).
  rewrite dispatch_app.
  set (w1 := exec (dispatch WindowResize false (listeners w)) registered).
  assert (Hd : drift (fun _ => False) False (fun _ => False) registered w1)
    by apply drift_dispatch.
  destruct Hd as (Hh & _).
  destruct (Hh canvas _ Hc) as (x1 & Hc1 & A1).
  destruct (Hh renderer _ Hr) as (x2 & Hr1 & A2).
  destruct (Hh camera _ Hm) as (x3 & Hm1 & A3).
  destruct x1 as [| e1 | | | | | |]; cbn in A1; try contradiction.
  destruct x2 as [| | calls1 | | | | |]; cbn in A2; try contradiction.
  destruct x3 as [| | | k1 c1 | | | |]; cbn in A3; try contradiction.
  rewrite dispatch_resize_pair.
  rewrite dispatch_nil.
  destruct (resizeChange_at w1 canvas renderer camera defaultResponsive e1 calls1 k1 c1
              Hc1 Hr1 Hm1) as (Hc2 & _ & _ & _ & Hw2).
  rewrite Hw2.
  exists (resized defaultResponsive (window w1) (drawsInto renderer canvas) calls1 e1).
  split; [exact Hc2 |].
  set (styled := fn_canvas defaultResponsive (window w1) e1).
  assert (Hs : style_width (copied defaultResponsive (window w1) e1)
               = CssPx (innerWidth (window w1))
               /\ style_height (copied defaultResponsive (window w1) e1)
                  = CssPx (innerHeight (window w1))).
  { unfold copied. cbn [style_width style_height]. fold styled.
    destruct (Hflow styled) as [-> ->]. split; reflexivity. }
  destruct Hs as [Hsw Hsh].
  unfold resized, ratioed, sizedBy.
  destruct (drawsInto renderer canvas) eqn:Hd.
  - destruct (Hthree eq_refl) as (Hratio & Hsize & Hlayout).
    set (x := resizeOutput calls1 (SetPixelRatio (devicePixelRatio (window w1)))
                (copied defaultResponsive (window w1) e1)).
    assert (Hx : style_width x = CssPx (innerWidth (window w1))
                 /\ style_height x = CssPx (innerHeight (window w1))).
    { subst x. destruct (Hratio calls1 (devicePixelRatio (window w1))
                           (copied defaultResponsive (window w1) e1)) as [-> ->].
      now split. }
    destruct (Hlayout x _ _ (proj1 Hx) (proj2 Hx)) as [-> ->].
    match goal with |- context [reflow ?y] => destruct (Hflow y) as [-> ->] end.
    match goal with |- context [resizeOutput ?cs (SetSize ?a ?b) ?y] =>
      destruct (Hsize cs a b y) as [-> ->] end.
    repeat split; discriminate.
  - rewrite Hsw, Hsh. repeat split.
Qed.

(** *** Two texts loading at the same time *)

Lemma load_succeeds_eq (w : World) (i : nat) (rq : Request) (cb : OnLoad) (a : Asset) :
  requests w !! i = Some rq -> settled rq = false -> onLoad rq = Some cb ->
  produces (loader rq) a = true ->
  exec (step (LoadSucceeds i a)) w = exec (runOnLoad cb a) (exec (settle i) w).
Proof.
  intros Hq Hset Hcb Hp. unfold exec at 1. cbn [step].
  rewrite Hq, Hset, Hp, Hcb. cbn [orb negb]. rewrite bind_eq. reflexivity.
Qed.

Lemma text_load_step (u : World) (i : nat) (rq : Request) (o : TextOptions.t) (p : Ref)
    (f : Font) (r : Ref) (s : Scene) :
  requests u !! i = Some rq -> settled rq = false -> onLoad rq = Some (TextLoaded o p) ->
  loader rq = FontLoader ->
  TextOptions.scene o = VObject r -> heap u !! r = Some (OScene s) ->
  heap u !! p = Some (OPromise Pending) ->
  let u' := exec (step (LoadSucceeds i (LoadedFont f))) u in
  let mesh := length (heap u) in
  length (heap u') = S mesh
  /\ heap u' !! mesh = Some (OObject3D (textElement o f))
  /\ heap u' !! p = Some (OPromise (Fulfilled mesh))
  /\ heap u' !! r =
       Some (OScene (mkScene (background s) (environment s) (children s ++ [mesh])))
  /\ (forall j x, heap u !! j = Some x -> j <> p -> j <> r -> heap u' !! j = Some x)
  /\ (forall j, j <> i -> requests u' !! j = requests u !! j).
Proof.
  intros Hq Hset Hcb Hl Ho Hr Hp u' mesh. subst u'.
  rewrite (load_succeeds_eq u i rq _ (LoadedFont f) Hq Hset Hcb) by (now rewrite Hl).
  set (u1 := exec (settle i) u).
  assert (Hh : heap u1 = heap u) by reflexivity.
  assert (Hrq : requests u1 = alter (fun r => mkRequest (loader r) (url r) (onLoad r)
                                                (onError r) true) i (requests u))
    by reflexivity.
  clearbody u1. unfold exec. cbn [runOnLoad]. rewrite textLoaded_eq. cbn [snd].
  rewrite Hh. fold mesh.
  assert (Hs : asScene (TextOptions.scene o) u1 = Some r)
    by (rewrite Ho; apply (asScene_ref u1 r s); now rewrite Hh).
  assert (Hpr : p <> r) by congruence.
  assert (Hplt : p < mesh) by (eapply lookup_lt_Some, Hp).
  assert (Hrlt : r < mesh) by (eapply lookup_lt_Some, Hr).
  unfold fulfilled. cbn [heap requests withHeap].
  split; [| split; [| split; [| split; [| split]]]].
  - rewrite length_alter, placed_length, Hh. reflexivity.
  - rewrite list_lookup_alter_ne by lia. subst mesh. rewrite <- Hh. apply placed_new.
  - rewrite list_lookup_alter_eq.
    rewrite (placed_other u1 _ _ _ p (OPromise Pending)); [reflexivity | now rewrite Hh |].
    rewrite Hs. congruence.
  - rewrite list_lookup_alter_ne by congruence.
    rewrite (placed_scene u1 _ _ _ r s Hs); [now rewrite Hh | now rewrite Hh].
  - intros j x Hj Hjp Hjr. rewrite list_lookup_alter_ne by congruence.
    apply placed_other; [now rewrite Hh | rewrite Hs; congruence].
  - intros j Hj. rewrite placed_requests, Hrq. now rewrite list_lookup_alter_ne.
Qed.

(** X24. Texts come into the scene in the order in which their fonts
    arrive, not in the order of the calls. Two calls of [renderText] on
    the same scene, the font of the second arriving first: the mesh of
    the second text is built first and is the scene's first new child,
    the mesh of the first text is its second; each promise is fulfilled
    with the mesh of its own call. *)
Theorem texts_arrive_in_load_order (w : World) (o1 o2 : TextOptions.t) (f1 f2 : Font)
    (r : Ref) (s : Scene) :
  TextOptions.scene o1 = VObject r -> TextOptions.scene o2 = VObject r ->
  heap w !! r = Some (OScene s) ->
  let q := length (requests w) in
  let w' := run [Invoke (CallRenderText o1); Invoke (CallRenderText o2);
                 LoadSucceeds (S q) (LoadedFont f2); LoadSucceeds q (LoadedFont f1)] w in
  let promise1 := length (heap w) in
  let promise2 := S promise1 in
  let mesh2 := S promise2 in
  let mesh1 := S mesh2 in
  heap w' !! r =
    Some (OScene (mkScene (background s) (environment s) (children s ++ [mesh2; mesh1])))
  /\ heap w' !! mesh2 = Some (OObject3D (textElement o2 f2))
  /\ heap w' !! mesh1 = Some (OObject3D (textElement o1 f1))
  /\ heap w' !! promise1 = Some (OPromise (Fulfilled mesh1))
  /\ heap w' !! promise2 = Some (OPromise (Fulfilled mesh2)).
Proof.
  intros Ho1 Ho2 Hr q w' promise1 promise2 mesh2 mesh1.
  assert (Hrlt : r < promise1) by (eapply lookup_lt_Some, Hr).
  subst w'. cbn [run]. rewrite !renderText_call.
  set (u := withRequests _ (withHeap _ (withRequests _ (withHeap _ w)))).
  assert (Hheap : heap u = (heap w ++ [OPromise Pending]) ++ [OPromise Pending]) by reflexivity.
  assert (Hreqs : requests u =
    (requests w ++ [mkRequest FontLoader (VString (TextOptions.font o1))
                      (Some (TextLoaded o1 promise1)) None false])
      ++ [mkRequest FontLoader (VString (TextOptions.font o2))
            (Some (TextLoaded o2 (length (heap w ++ [OPromise Pending])))) None false])
    by reflexivity.
  assert (Hlen : length (heap u) = mesh2)
    by (rewrite Hheap, !length_app; subst mesh2 promise2 promise1; simpl; lia).
  assert (Hp2' : length (heap w ++ [OPromise Pending]) = promise2)
    by (rewrite length_app; subst promise2 promise1; simpl; lia).
  rewrite Hp2' in Hreqs.
  assert (Hq2 : requests u !! S q = Some (mkRequest FontLoader (VString (TextOptions.font o2))
                                            (Some (TextLoaded o2 promise2)) None false)).
  { rewrite Hreqs. replace (S q) with (length (requests w ++
      [mkRequest FontLoader (VString (TextOptions.font o1))
         (Some (TextLoaded o1 promise1)) None false]))
      by (rewrite length_app; subst q; simpl; lia).
    apply lookup_snoc. }
  assert (Hq1 : requests u !! q = Some (mkRequest FontLoader (VString (TextOptions.font o1))
                                          (Some (TextLoaded o1 promise1)) None false)).
  { rewrite Hreqs, lookup_app_l by (rewrite length_app; subst q; simpl; lia).
    apply lookup_snoc. }
  assert (Hpr1 : heap u !! promise1 = Some (OPromise Pending)).
  { rewrite Hheap, lookup_app_l by (rewrite length_app; subst promise1; simpl; lia).
    apply lookup_snoc. }
  assert (Hpr2 : heap u !! promise2 = Some (OPromise Pending)).
  { rewrite Hheap, <- Hp2'. apply lookup_snoc. }
  assert (Hru : heap u !! r = Some (OScene s)).
  { rewrite Hheap, <- app_assoc. now rewrite lookup_app_l. }
  clearbody u.
  destruct (text_load_step u (S q) _ o2 promise2 f2 r s Hq2 eq_refl eq_refl eq_refl
              Ho2 Hru Hpr2) as (L1 & M1 & P1 & S1 & O1 & R1).
  rewrite Hlen in L1, M1, P1, S1.
  set (v := exec (step (LoadSucceeds (S q) (LoadedFont f2))) u) in *.
  assert (Hq1v : requests v !! q = Some (mkRequest FontLoader (VString (TextOptions.font o1))
                                           (Some (TextLoaded o1 promise1)) None false))
    by (rewrite R1 by lia; exact Hq1).
  assert (Hpr1v : heap v !! promise1 = Some (OPromise Pending))
    by (apply O1; [exact Hpr1 | subst promise2; lia | lia]).
  clearbody v.
  destruct (text_load_step v q _ o1 promise1 f1 r _ Hq1v eq_refl eq_refl eq_refl
              Ho1 S1 Hpr1v) as (L2 & M2 & P2 & S2 & O2 & _).
  rewrite L1 in L2, M2, P2, S2. fold mesh1 in L2, M2, P2, S2.
  cbn [background environment children] in S2.
  split; [| split; [| split; [| split]]].
  - rewrite S2, <- app_assoc. reflexivity.
  - apply O2; [exact M1 | subst mesh2 promise2; lia | subst mesh2 promise2; lia].
  - exact M2.
  - exact P2.
  - apply O2; [exact P1 | subst promise2; lia | subst promise2; lia].
Qed.

(** *** A font that arrives late *)

Lemma leaves_withoutSuccess (q : nat) (es : list Event) :
  Forall (leaves q) es -> withoutSuccess q es.
Proof.
  intros H. eapply Forall_impl; [exact H |]. intros e He a ->. now apply He.
Qed.

(** X25. A text is never lost on the way. After [renderText] was called,
    whatever happens on the page before its font arrives (other calls,
    other loads completing or failing, scheme and resize events), the
    arrival of the font builds the mesh of that call, fulfils the promise
    the call returned with it and adds it to the scene as its last child,
    after everything that was added to the scene in between. (For a page
    on which no earlier load holds the resolver of the new promise.) *)
Theorem text_load_is_not_lost (w : World) (o : TextOptions.t) (loadedFont : Font)
    (r : Ref) (s : Scene) (es : list Event) :
  TextOptions.scene o = VObject r -> heap w !! r = Some (OScene s) ->
  fresh w ->
  let p := result (renderText o) w in
  let q := length (requests w) in
  Forall (leaves q) es ->
  let w' := run (Invoke (CallRenderText o) :: es ++ [LoadSucceeds q (LoadedFont loadedFont)]) w in
  exists mesh s' between,
    heap w' !! p = Some (OPromise (Fulfilled mesh))
    /\ heap w' !! mesh = Some (OObject3D (textElement o loadedFont))
    /\ heap w' !! r = Some (OScene s')
    /\ children s' = children s ++ between ++ [mesh].
Proof.
  intros Ho Hr Hfresh p q Hes w'. subst w'. cbn [run]. rewrite run_app. cbn [run].
  set (w1 := exec (step (Invoke (CallRenderText o))) w).
  destruct (spawned_promise FontLoader (VString (TextOptions.font o)) (TextLoaded o) w
              (fun t => eq_refl)) as (Hreq & _ & _ & Hpend & _).
  change (exec _ w) with w1 in Hreq, Hpend.
  change (result _ w) with p in Hreq, Hpend.
  pose proof (Hpend Hfresh es (leaves_withoutSuccess _ es Hes)) as Hp.
  destruct (drift_run diagnostic True (fun i => i <> q) es w1 (permitted_leaves q es Hes))
    as (Hh & _ & _ & Hrq).
  assert (Hr1 : heap w1 !! r = Some (OScene s)).
  { subst w1. rewrite renderText_call. cbn [heap withRequests withHeap].
    rewrite lookup_app_l by (eapply lookup_lt_Some, Hr). exact Hr. }
  destruct (Hh r _ Hr1) as (x & Hx & Hages).
  destruct x as [s2 | | | | | | |]; cbn in Hages; try contradiction.
  destruct Hages as [between Hs2].
  destruct (Hrq q (mkRequest FontLoader (VString (TextOptions.font o))
                     (Some (TextLoaded o p)) None false))
    as (rq & Hq & El & _ & Ecb & [Es | [[] _]]);
    [rewrite Hreq; apply lookup_snoc | | reflexivity].
  destruct (text_load_step (run es w1) q rq o p loadedFont r s2 Hq Es Ecb El Ho Hx Hp)
    as (_ & Hmesh & Hprom & Hscene & _).
  eexists (length (heap (run es w1))), _, between.
  split; [exact Hprom | split; [exact Hmesh | split; [exact Hscene |]]].
  cbn [children]. rewrite Hs2, app_assoc. reflexivity.
Qed.

(** *** The registry, call by call *)

(** A load in flight is still in flight, with the callback it was given,
    after events that are not its end. *)
Lemma load_stays_in_flight (w : World) (es : list Event) (q : nat) (rq : Request) :
  requests w !! q = Some rq -> settled rq = false -> Forall (leaves q) es ->
  exists rq', requests (run es w) !! q = Some rq'
              /\ loader rq' = loader rq /\ onLoad rq' = onLoad rq /\ settled rq' = false.
Proof.
  intros Hq Hset Hes.
  destruct (drift_run diagnostic True (fun i => i <> q) es w (permitted_leaves q es Hes))
    as (_ & _ & _ & Hreq).
  destruct (Hreq q rq Hq) as (rq' & Hq' & El & _ & Ecb & [Es | [[] _]]); [| reflexivity].
  exists rq'. rewrite Es. auto.
Qed.

(** A load that is over is not completed again. *)
Lemma settled_load_is_over (w : World) (q : nat) (rq : Request) (a : Asset) :
  requests w !! q = Some rq -> settled rq = true ->
  exec (step (LoadSucceeds q a)) w = w.
Proof. intros Hq Hs. unfold exec. cbn [step]. now rewrite Hq, Hs. Qed.

Lemma settle_settles (w : World) (q : nat) (rq : Request) :
  requests w !! q = Some rq ->
  exists rq', requests (exec (settle q) w) !! q = Some rq' /\ settled rq' = true.
Proof.
  intros Hq. eexists. unfold exec, settle. cbn [snd requests withRequests].
  rewrite list_lookup_alter_eq, Hq. split; reflexivity.
Qed.

(** A load with its callback, from the call that starts it to its end:
    what the callback adds to the registry is added when the load
    succeeds, and only then. *)
Lemma load_registers_once (u : World) (es : list Event) (q : nat) (rq : Request)
    (cb : OnLoad) (a : Asset) :
  requests u !! q = Some rq -> settled rq = false -> onLoad rq = Some cb ->
  produces (loader rq) a = true ->
  (forall v, requests (exec (runOnLoad cb a) v) = requests v) ->
  Forall (leaves q) es ->
  let before := run es u in
  let loaded := exec (step (LoadSucceeds q a)) before in
  let failed := exec (step (LoadFails q)) before in
  loaded = exec (runOnLoad cb a) (exec (settle q) before)
  /\ animationList failed = animationList before
  /\ forall a', exec (step (LoadSucceeds q a')) loaded = loaded
                /\ exec (step (LoadSucceeds q a')) failed = failed.
Proof.
  intros Hq Hset Hcb Hp Hrq Hes before loaded failed.
  destruct (load_stays_in_flight u es q rq Hq Hset Hes) as (rq' & Hq' & El & Ecb & Es).
  fold before in Hq'.
  assert (E : loaded = exec (runOnLoad cb a) (exec (settle q) before)).
  { subst loaded. apply (load_succeeds_eq before q rq' cb a Hq' Es); congruence. }
  destruct (settle_settles before q rq' Hq') as (done & Hdone & Hs).
  assert (F : requests failed !! q = Some done).
  { subst failed. rewrite loadFails_eq. exact Hdone. }
  split; [exact E |]. split.
  - subst failed. now rewrite loadFails_eq.
  - intros a'. split.
    + apply (settled_load_is_over loaded q done a'); [| exact Hs].
      rewrite E, Hrq. exact Hdone.
    + apply (settled_load_is_over failed q done a' F Hs).
Qed.

Lemma textLoaded_requests (o : TextOptions.t) (p : Ref) (a : Asset) (v : World) :
  requests (exec (runOnLoad (TextLoaded o p) a) v) = requests v.
Proof.
  unfold exec. destruct a as [t | f | root animations]; try reflexivity.
  cbn [runOnLoad]. rewrite textLoaded_eq. cbn [snd]. unfold fulfilled.
  cbn [requests withHeap]. apply placed_requests.
Qed.

Lemma gltfLoaded_requests (o : GltfOptions.t) (p : Ref) (a : Asset) (v : World) :
  requests (exec (runOnLoad (GltfLoaded o p) a) v) = requests v.
Proof.
  unfold exec. destruct a as [t | f | root animations]; try reflexivity.
  rewrite gltfLoaded_eq. cbn [snd]. apply gltfDelivered_requests.
Qed.

(** C7 (amended). The registry is append-only. No event (a call of an
    exported function, a load completing or failing, a scheme, resize or
    orientation event), and so no sequence of events, removes or changes
    an entry: the registry before is a prefix of the registry after.
    [renderShape] and [renderBox] append exactly one entry when [animate]
    is a function and none otherwise, and its element is the object the
    call built and returns. [renderText] and [renderGltfModel] append
    nothing when called. Whatever happens between the call and the end of
    the load it started, the entry is appended when that load succeeds:
    exactly one entry if [animate] is a function and none otherwise, its
    element being the mesh, respectively the loaded asset, built at that
    moment. If the load fails nothing is appended, and once the load has
    ended, either way, a further report of its completion changes
    nothing. *)
Theorem animationList_append_only :
  (forall e w, exists suffix,
      animationList (exec (step e) w) = animationList w ++ suffix)
  /\ (forall es w, exists suffix,
      animationList (run es w) = animationList w ++ suffix)
  /\ (forall o w,
      animationList (exec (renderShape o) w) =
        animationList w ++
          match asFunction (ShapeOptions.animate o) with
          | Some f => [mkEntry (result (renderShape o) w) f]
          | None => []
          end
      /\ created (renderShape o) w = Some (OObject3D (shapeElement o))
      /\ heap w !! result (renderShape o) w = None)
  /\ (forall o w,
      animationList (exec (renderBox o) w) =
        animationList w ++
          match asFunction (BoxOptions.animate o) with
          | Some f => [mkEntry (result (renderBox o) w) f]
          | None => []
          end
      /\ created (renderBox o) w = Some (OObject3D (boxElement o))
      /\ heap w !! result (renderBox o) w = None)
  /\ (forall o w es loadedFont,
      let q := length (requests w) in
      let called := exec (step (Invoke (CallRenderText o))) w in
      let before := run es called in
      let loaded := exec (step (LoadSucceeds q (LoadedFont loadedFont))) before in
      let failed := exec (step (LoadFails q)) before in
      let mesh := length (heap before) in
      Forall (leaves q) es ->
      animationList called = animationList w
      /\ animationList loaded =
           animationList before ++
             match asFunction (TextOptions.animate o) with
             | Some f => [mkEntry mesh f]
             | None => []
             end
      /\ heap loaded !! mesh = Some (OObject3D (textElement o loadedFont))
      /\ heap before !! mesh = None
      /\ animationList failed = animationList before
      /\ forall a, exec (step (LoadSucceeds q a)) loaded = loaded
                   /\ exec (step (LoadSucceeds q a)) failed = failed)
  /\ (forall o w es root animations,
      let q := length (requests w) in
      let called := exec (step (Invoke (CallRenderGltfModel o))) w in
      let before := run es called in
      let loaded := exec (step (LoadSucceeds q (LoadedGltf root animations))) before in
      let failed := exec (step (LoadFails q)) before in
      let loadedModel := S (length (heap before)) in
      Forall (leaves q) es ->
      animationList called = animationList w
      /\ animationList loaded =
           animationList before ++
             match asFunction (GltfOptions.animate o) with
             | Some f => [mkEntry loadedModel f]
             | None => []
             end
      /\ heap loaded !! loadedModel =
           Some (OGltf (mkGltf (length (heap before)) animations
                          (gltfMixer o (length (heap before)) animations)))
      /\ heap before !! loadedModel = None
      /\ animationList failed = animationList before
      /\ forall a, exec (step (LoadSucceeds q a)) loaded = loaded
                   /\ exec (step (LoadSucceeds q a)) failed = failed).
Proof.
  split; [| split; [| split; [| split; [| split]]]].
  - intros e w. apply (extends_step e w).
  - intros es w. apply (extends_run es w).
  - intros o w. split; [| split].
    + unfold exec, result. rewrite renderShape_eq. cbn [fst snd].
      rewrite placed_animationList. unfold shapeRequested.
      destruct (ShapeOptions.texture o); reflexivity.
    + apply created_renderShape.
    + unfold result. rewrite renderShape_eq. cbn [fst]. apply lookup_ge_None_2. lia.
  - intros o w. split; [| split].
    + unfold exec, result. rewrite renderBox_eq. cbn [fst snd].
      rewrite placed_animationList. unfold boxRequested.
      destruct (orDefault (VBoolean true) (BoxOptions.isSolid o)) as [| |[|]| | | | |];
        try reflexivity.
      destruct (orDefault (VArray []) (BoxOptions.textures o)) as [| | | | | |[|t ts]|];
        reflexivity.
    + apply created_renderBox.
    + unfold result. rewrite renderBox_eq. cbn [fst]. apply lookup_ge_None_2. lia.
  - intros o w es loadedFont q called before loaded failed mesh Hes.
    assert (Hq : requests called !! q =
                 Some (mkRequest FontLoader (VString (TextOptions.font o))
                         (Some (TextLoaded o (length (heap w)))) None false)).
    { subst called q. rewrite renderText_call. cbn [requests withRequests].
      apply lookup_snoc. }
    destruct (load_registers_once called es q _ _ (LoadedFont loadedFont) Hq eq_refl eq_refl
                eq_refl (textLoaded_requests o _ _) Hes) as (E & Hfail & Honce).
    fold before in E, Hfail, Honce. fold loaded in E, Honce. fold failed in Hfail, Honce.
    split; [subst called; now rewrite renderText_call |].
    split; [| split; [| split; [| split; [exact Hfail | exact Honce]]]].
    + rewrite E. unfold exec at 1. cbn [runOnLoad]. rewrite textLoaded_eq. cbn [snd].
      unfold fulfilled. cbn [animationList withHeap]. rewrite placed_animationList.
      reflexivity.
    + rewrite E. unfold exec at 1. cbn [runOnLoad]. rewrite textLoaded_eq. cbn [snd].
      exact (fulfilled_new _ (exec (settle q) before) _ _ _).
    + apply lookup_ge_None_2. subst mesh. lia.
  - intros o w es root animations q called before loaded failed loadedModel Hes.
    assert (Hq : requests called !! q =
                 Some (mkRequest GLTFLoader (VString (GltfOptions.model o))
                         (Some (GltfLoaded o (length (heap w)))) None false)).
    { subst called q. rewrite renderGltfModel_call. cbn [requests withRequests].
      apply lookup_snoc. }
    destruct (load_registers_once called es q _ _ (LoadedGltf root animations) Hq eq_refl
                eq_refl eq_refl (gltfLoaded_requests o _ _) Hes) as (E & Hfail & Honce).
    fold before in E, Hfail, Honce. fold loaded in E, Honce. fold failed in Hfail, Honce.
    split; [subst called; now rewrite renderGltfModel_call |].
    split; [| split; [| split; [| split; [exact Hfail | exact Honce]]]].
    + rewrite E. unfold exec at 1. rewrite gltfLoaded_eq. cbn [snd].
      rewrite gltfDelivered_animationList. reflexivity.
    + rewrite E. unfold exec at 1. rewrite gltfLoaded_eq. cbn [snd].
      exact (gltfDelivered_asset _ _ _ _ (exec (settle q) before)).
    + apply lookup_ge_None_2. subst loadedModel. lia.
Qed.

End Properties.

(** ** The properties on the sample page *)

#[local] Existing Instance sampleHost.

Example default_colours : VNumber 0x666666 = VNumber 6710886 /\ VNumber 0xffffff = VNumber 16777215.
Proof. split; reflexivity. Qed.

(** With every background option given, the dark and light pair wins: on
    the dark-scheme page the scene is painted with the dark colour, one
    scheme listener is registered and nothing is requested. *)
Lemma setBackground_precedence_witness :
  BackgroundOptions.scene allBackgrounds = VObject 0
  /\ heap sampleWorld !! 0%nat = Some (OScene emptyScene)
  /\ exec (setBackground allBackgrounds) sampleWorld =
     withListeners
       [mkListener DarkSchemeQuery (SchemeListener 0 (VNumber 0) (VNumber 0xffffff))]
       (withTrace [WriteBackground 0]
          (withHeap
             (<[0%nat := sceneWithBackground (Color (VNumber 0)) emptyScene]> (heap sampleWorld))
             sampleWorld)).
Proof.
  split; [reflexivity | split; [reflexivity |]].
  exact (proj1 (setBackground_precedence sampleWorld allBackgrounds 0 emptyScene
                  eq_refl eq_refl) eq_refl).
Defined.

(** Without dark and light, the image wins over HDR, EXR and colour, and
    the completed load paints it. *)
Example setBackground_image_over_hdr :
  let o := BackgroundOptions.mk (VNumber 0x336699) VUndefined (VNumber 0xffffff)
             (VString "sky.png") (VString "sky.hdr") (VString "sky.exr") (VObject 0) in
  let w1 := exec (setBackground o) sampleWorld in
  requests w1 =
    [mkRequest TextureLoader (VString "sky.png") (Some (BackgroundImage 0)) None false]
  /\ heap w1 = heap sampleWorld
  /\ heap (exec (step (LoadSucceeds 0 (LoadedTexture (mkTexture (VString "sky.png") None None)))) w1)
       !! 0%nat
     = Some (OScene (mkScene
         (Some (TextureBackground
            (mkTexture (VString "sky.png") (Some EquirectangularReflectionMapping)
                       (Some SRGBColorSpace))))
         None [])).
Proof. vm_compute. repeat split; reflexivity. Qed.

(** One texture URL on a solid box: six materials, all of that URL. *)
Lemma renderBox_solid_materials_witness :
  created (renderBox (boxWith (VBoolean true) (VArray [VString "a.png"]) VUndefined)) sampleWorld
  = Some (OObject3D (mkObject3D
      (Mesh (BoxGeometry 10 10 10 1 1 1)
         (MaterialArray (List.map textured (concat (replicate 6 [VString "a.png"])))))
      (1, 1, 1) (VNumber 0, 0, 0)))
  /\ length (List.map textured (concat (replicate 6 [VString "a.png"]))) = 6%nat.
Proof.
  pose proof (proj1 (renderBox_solid_materials sampleWorld
    (boxWith (VBoolean true) (VArray [VString "a.png"]) VUndefined) [VString "a.png"]
    eq_refl eq_refl)) as H.
  cbv zeta in H.
  destruct H as (Hc & Hl & _); [discriminate |].
  split; [exact Hc | exact Hl].
Defined.

(** Two texture URLs on a solid box: twelve materials, not six. *)
Lemma renderBox_two_textures_twelve_materials :
  materialCount
    (created (renderBox (boxWith (VBoolean true) (VArray [VString "a.png"; VString "b.png"])
                           VUndefined)) sampleWorld)
  = Some 12%nat
  /\ Some 12%nat <> Some 6%nat.
Proof. split; [vm_compute; reflexivity | discriminate]. Qed.

(** [isSolid: 1] with textures: the wireframe, and no texture requested. *)
Lemma renderBox_not_true_is_wireframe_witness :
  created (renderBox (boxWith (VNumber 1) (VArray [VString "a.png"]) VUndefined)) sampleWorld
  = Some (OObject3D (mkObject3D
      (LineSegments (EdgesGeometry (BoxGeometry 10 10 10 1 1 1))
                    (LineBasicMaterial (VNumber 0xffffff)))
      (1, 1, 1) (VNumber 0, 0, 0)))
  /\ requests (exec (renderBox (boxWith (VNumber 1) (VArray [VString "a.png"]) VUndefined))
                 sampleWorld) = [].
Proof.
  apply (renderBox_not_true_is_wireframe sampleWorld
           (boxWith (VNumber 1) (VArray [VString "a.png"]) VUndefined));
    discriminate.
Defined.

Example renderBox_string_true_is_wireframe :
  materialCount
    (created (renderBox (boxWith (VString "true") (VArray [VString "a.png"]) VUndefined))
       sampleWorld) = None
  /\ materialCount
    (created (renderBox (boxWith VUndefined (VArray [VString "a.png"]) VUndefined))
       sampleWorld) = Some 6%nat.
Proof. split; vm_compute; reflexivity. Qed.



Example renderShape_examples :
  builtGeometry (shapeWith (VNumber 5) 3 VUndefined VUndefined VUndefined) sampleWorld
    = Some (RingGeometry 0 5 3 1 (0 * PI) (2 * PI))
  /\ builtGeometry (shapeWith VUndefined 128 (VNumber 10) (VNumber 4) VUndefined) sampleWorld
    = Some (PlaneGeometry 10 4 1 1)
  /\ builtGeometry (shapeWith (VNumber 5) 3 (VNumber 10) (VNumber 4) (VFunction triangle))
       sampleWorld
    = Some (RingGeometry 0 5 3 1 (0 * PI) (2 * PI))
  /\ builtGeometry (shapeWith VUndefined 128 VUndefined (VNumber 4) (VFunction triangle))
       sampleWorld
    = Some (ShapeGeometry
              (FlatShape [MoveTo 80 20; LineTo 40 80; LineTo 120 80; LineTo 80 20])
              (Some [0.5; 0; 0; 1; 1; 1; 0.5; 0])).
Proof. vm_compute. repeat split; reflexivity. Qed.

(** Text scaled by 2 in X with no [posX], bounding box from x = 0 to
    x = 10: the mesh is placed at x = -5, so it covers x = -5 to x = 15
    and its middle is 5, not the origin. *)
Lemma renderText_scaled_not_centred :
  let o := textWith 2 VUndefined VUndefined in
  let w2 := run [Invoke (CallRenderText o); LoadSucceeds 0 (LoadedFont 7%nat)] sampleWorld in
  exists e,
    heap w2 !! 5%nat = Some (OObject3D e)
    /\ position e = (VNumber (-5), 0, 0)
    /\ worldExtentX e (computeBoundingBox (textGeometry o 7%nat)) = Some (-5, 15)
    /\ centredAtOrigin e (computeBoundingBox (textGeometry o 7%nat)) = false.
Proof. vm_compute. eexists. repeat split; reflexivity. Qed.

Example renderText_unit_scale_centred :
  let o := textWith 1 VUndefined VUndefined in
  let w2 := run [Invoke (CallRenderText o); LoadSucceeds 0 (LoadedFont 7%nat)] sampleWorld in
  exists e,
    heap w2 !! 5%nat = Some (OObject3D e)
    /\ centredAtOrigin e (computeBoundingBox (textGeometry o 7%nat)) = true
    /\ heap w2 !! 4%nat = Some (OPromise (Fulfilled 5)).
Proof. vm_compute. eexists. repeat split; reflexivity. Qed.



(** A model with two clips, loaded with a callback: one mixer on the root
    with both clips playing, and the asset (object 6, not its root 5) in
    the registry. *)
Example renderGltfModel_two_clips :
  let o := gltfWith (VFunction spin) in
  let w2 := run [Invoke (CallRenderGltfModel o);
                 LoadSucceeds 0 (LoadedGltf (mkObject3D Group (1, 1, 1) (VNumber 0, 0, 0))
                                            (Some [11%nat; 12%nat]))] sampleWorld in
  heap w2 !! 6%nat = Some (OGltf (mkGltf 5 (Some [11%nat; 12%nat])
                                    (Some (mkMixer 5 [11%nat; 12%nat]))))
  /\ animationList w2 = [mkEntry 6 spin]
  /\ heap w2 !! 4%nat = Some (OPromise (Fulfilled 6))
  /\ childCount 0 w2 = Some 1%nat.
Proof. vm_compute. repeat split; reflexivity. Qed.

(** A font load that fails: the promise stays pending, also when a late
    success is reported for the same request. *)
Example renderText_load_fails :
  let o := textWith 1 VUndefined (VFunction spin) in
  let w2 := run [Invoke (CallRenderText o); Resize; LoadFails 0;
                 LoadSucceeds 0 (LoadedFont 7%nat); SchemeChange false] sampleWorld in
  heap w2 !! 4%nat = Some (OPromise Pending)
  /\ animationList w2 = []
  /\ length (heap w2) = 5%nat.
Proof. vm_compute. repeat split; reflexivity. Qed.

Example sampleWorld_fresh : fresh sampleWorld.
Proof. intros i r cb Hi. destruct i; discriminate Hi. Qed.

(** The triangle of the JSDoc drawn by a callback: four vertices, eight UV
    coordinates; vertex 1, (40, 80), has the UV (0, 1). *)
Lemma renderShape_geometry_precedence_witness :
  let o := shapeWith VUndefined 128 VUndefined (VNumber 4) (VFunction triangle) in
  exists uv,
    builtGeometry o sampleWorld =
      Some (ShapeGeometry
              (FlatShape [MoveTo 80 20; LineTo 40 80; LineTo 120 80; LineTo 80 20])
              (Some uv))
    /\ length uv = 8%nat
    /\ uv !! 2%nat = Some 0 /\ uv !! 3%nat = Some 1.
Proof.
  cbv zeta.
  destruct (renderShape_geometry_precedence sampleWorld
              (shapeWith VUndefined 128 VUndefined (VNumber 4) (VFunction triangle)))
    as (_ & _ & Hdraw & _).
  destruct (Hdraw triangle) as (uv & Hb & Hl & Hi).
  - discriminate.
  - left. discriminate.
  - reflexivity.
  - exists uv. split; [exact Hb | split; [exact Hl |]].
    exact (Hi 1%nat (mkVector3 40 80 0) eq_refl).
Defined.

(** Text with no [posX] on the sample host: the mesh is object 4, at
    x = -5 for the box from 0 to 10. *)
Lemma renderText_posX_witness :
  exists posX,
    heap (exec (textLoaded (textWith 2 VUndefined VUndefined) 9 7%nat) sampleWorld) !! 4%nat =
      Some (OObject3D (mkObject3D
              (Mesh (textGeometry (textWith 2 VUndefined VUndefined) 7%nat)
                    (textMaterial (textWith 2 VUndefined VUndefined)))
              (2, 1, 1) (posX, 0, 0)))
    /\ posX = VNumber (-5).
Proof.
  destruct (renderText_posX sampleWorld (textWith 2 VUndefined VUndefined) 9 7%nat)
    as (posX & Hm & Hx & _).
  exists posX. split; [exact Hm | exact (Hx eq_refl)].
Defined.

(** A model with two clips and a callback, on the sample page. *)
Lemma renderGltfModel_animation_witness :
  let o := gltfWith (VFunction spin) in
  let w1 := exec (renderGltfModel o) sampleWorld in
  let w2 := exec (runOnLoad (GltfLoaded o 4)
                    (LoadedGltf (mkObject3D Group (1, 1, 1) (VNumber 0, 0, 0))
                                (Some [11%nat; 12%nat]))) w1 in
  heap w2 !! 6%nat =
    Some (OGltf (mkGltf 5 (Some [11%nat; 12%nat]) (Some (mkMixer 5 [11%nat; 12%nat]))))
  /\ animationList w2 = [mkEntry 6 spin].
Proof.
  cbv zeta.
  destruct (renderGltfModel_animation sampleWorld
              (exec (renderGltfModel (gltfWith (VFunction spin))) sampleWorld)
              (gltfWith (VFunction spin))
              (mkObject3D Group (1, 1, 1) (VNumber 0, 0, 0))
              (Some [11%nat; 12%nat]))
    as (_ & _ & Hanim & _).
  exact (Hanim spin [11%nat; 12%nat] eq_refl eq_refl).
Defined.

(** A text with a callback on the sample page: the call registers
    nothing; a box with a callback is rendered and the page is resized
    while the font loads; the arrival of the font registers the mesh
    (object 6) after the box (object 5), its failure registers nothing. *)
Lemma animationList_append_only_witness :
  let o := textWith 1 VUndefined (VFunction spin) in
  let es := [Invoke (CallRenderBox (boxWith (VBoolean true) VUndefined (VFunction spin)));
             Resize] in
  let before := run es (exec (step (Invoke (CallRenderText o))) sampleWorld) in
  animationList (exec (step (Invoke (CallRenderText o))) sampleWorld) = []
  /\ animationList before = [mkEntry 5 spin]
  /\ animationList (exec (step (LoadSucceeds 0 (LoadedFont 7%nat))) before)
     = [mkEntry 5 spin; mkEntry 6 spin]
  /\ animationList (exec (step (LoadFails 0)) before) = [mkEntry 5 spin].
Proof.
  cbv zeta.
  destruct animationList_append_only as (_ & _ & _ & _ & Htext & _).
  destruct (Htext (textWith 1 VUndefined (VFunction spin)) sampleWorld
              [Invoke (CallRenderBox (boxWith (VBoolean true) VUndefined (VFunction spin)));
               Resize] 7%nat)
    as (Hcall & Hload & _ & _ & Hfail & _); [repeat constructor |].
  change (length (requests sampleWorld)) with 0%nat in Hload, Hfail.
  set (before := run _ (exec (step (Invoke (CallRenderText _))) sampleWorld)) in *.
  assert (Hbefore : animationList before = [mkEntry 5 spin])
    by (vm_compute; reflexivity).
  split; [exact Hcall | split; [exact Hbefore | split]].
  - rewrite Hload, Hbefore. vm_compute. reflexivity.
  - rewrite Hfail. exact Hbefore.
Defined.

(** A text with a callback on the sample page: the call registers
    nothing, and nothing is registered when the font fails to load, also
    when a success is reported afterwards. *)
Lemma renderText_registers_nothing_when_called :
  let o := textWith 1 VUndefined (VFunction spin) in
  asFunction (TextOptions.animate o) = Some spin
  /\ animationList (run [Invoke (CallRenderText o)] sampleWorld) = []
  /\ animationList (run [Invoke (CallRenderText o); LoadFails 0] sampleWorld) = []
  /\ animationList (run [Invoke (CallRenderText o); LoadFails 0;
                         LoadSucceeds 0 (LoadedFont 7%nat)] sampleWorld) = [].
Proof. vm_compute. repeat split; reflexivity. Qed.

(** A font load that fails after a resize: the promise of [renderText] is
    pending ever after, also when a success is reported late. *)
Lemma promises_only_resolve_witness :
  heap (run ([Resize] ++ LoadFails 0 :: [LoadSucceeds 0 (LoadedFont 7%nat); SchemeChange false])
            (exec (renderText (textWith 1 VUndefined (VFunction spin))) sampleWorld)) !! 4%nat
  = Some (OPromise Pending).
Proof.
  destruct (promises_only_resolve sampleWorld) as (Htext & _).
  destruct (Htext (textWith 1 VUndefined (VFunction spin))) as (_ & _ & _ & _ & Hfail).
  apply Hfail.
  - exact sampleWorld_fresh.
  - repeat constructor. discriminate.
Defined.

(** ** The further properties on the sample page *)

#[local] Existing Instance noWebGL2.

(** Two calls of [isSupported] in a browser without WebGL2: two banners in
    the body, each with its own message element. *)
Lemma isSupported_banners_witness :
  body samplePage = Some 0%nat /\ elements samplePage !! 0%nat = Some bodyElement
  /\ fst (isSupported samplePage) = Normal false
  /\ pageRun [CallIsSupported; CallIsSupported] samplePage =
       mkPage false
         [withChildren [1; 3]%nat bodyElement;
          unsupportedBanner 2; getWebGL2ErrorMessage;
          unsupportedBanner 4; getWebGL2ErrorMessage]
         (Some 0%nat) LoadingManager.initial.
Proof.
  destruct (isSupported_banners samplePage 0 bodyElement 2 eq_refl eq_refl) as (H1 & _ & H3).
  split; [reflexivity | split; [reflexivity | split; [exact H1 |]]].
  exact (H3 eq_refl).
Defined.

(** On a page without a body the call throws, and the banner stays
    outside the document. *)
Lemma isSupported_without_body_witness :
  body pageWithoutBody = None
  /\ isSupported pageWithoutBody =
       (Throw TypeError,
        mkPage false [unsupportedBanner 1; getWebGL2ErrorMessage] None LoadingManager.initial).
Proof.
  split; [reflexivity |].
  exact (proj2 (isSupported_without_body pageWithoutBody eq_refl) eq_refl).
Defined.

(** The initialiser on the sample page, and on the page without a body. *)
Lemma initialise_order_witness :
  initialise samplePage =
    (Normal tt,
     mkPage true [withChildren [1%nat] bodyElement; loadingBanner None]
       (Some 0%nat) (installed 1))
  /\ initialise pageWithoutBody =
       (Throw TypeError, mkPage true [loadingBanner None] None LoadingManager.initial).
Proof.
  split.
  - exact (proj1 (initialise_order samplePage) 0%nat bodyElement eq_refl eq_refl).
  - exact (proj2 (initialise_order pageWithoutBody) eq_refl).
Defined.

(** A load that starts and then fails, with a call of [isSupported] in
    between: the banner shows the error. *)
Lemma loading_banner_shows_last_report_witness :
  body samplePage = Some 0%nat /\ elements samplePage !! 0%nat = Some bodyElement
  /\ elements (pageRun [Report (LoadingStarts "a.png" 0 1); CallIsSupported;
                        Report (LoadingFails "a.png")]
                 (snd (initialise samplePage))) !! 1%nat
     = Some (loadingBanner (Some "Error: a.png")).
Proof.
  split; [reflexivity | split; [reflexivity |]].
  exact (proj1 (loading_banner_shows_last_report samplePage 0 bodyElement
                  [Report (LoadingStarts "a.png" 0 1); CallIsSupported;
                   Report (LoadingFails "a.png")] eq_refl eq_refl)).
Defined.

Example loading_banner_texts :
  shown (LoadingStarts "a.png" 0 1) = Some "Starting: a.png [0/1]"
  /\ shown (LoadingProgresses "a.png" 3 12) = Some "Loading: a.png [3/12]"
  /\ displayed (loadingBanner (Some "Error: a.png")) = true
  /\ displayed (loadingBanner None) = false.
Proof. repeat split; reflexivity. Qed.

(** A shape rendered into the sample scene: the scene keeps what it had
    and gets the mesh, object 4, as its child; the canvas is untouched. *)
Lemma renderers_frame_witness :
  let o := shapeWith (VNumber 5) 3 VUndefined VUndefined VUndefined in
  heap (exec (renderShape o) sampleWorld) !! 0%nat = Some (OScene (mkScene None None [4%nat]))
  /\ heap (exec (renderShape o) sampleWorld) !! 1%nat = Some (OElement sampleCanvas).
Proof.
  cbv zeta.
  destruct (proj1 (renderers_frame sampleWorld)
              (shapeWith (VNumber 5) 3 VUndefined VUndefined VUndefined))
    as (_ & _ & _ & _ & _ & Hother & Hscene).
  split.
  - exact (Hscene 0%nat emptyScene eq_refl eq_refl).
  - apply Hother; [reflexivity | discriminate].
Defined.

(** Two texture URLs on a solid box: twelve loads, the eighth of them of
    the second URL. *)
Lemma renderBox_texture_requests_witness :
  let o := boxWith (VBoolean true) (VArray [VString "a.png"; VString "b.png"]) VUndefined in
  length (requests (exec (renderBox o) sampleWorld)) = 12%nat
  /\ requests (exec (renderBox o) sampleWorld) !! 7%nat =
       Some (mkRequest TextureLoader (VString "b.png") None None false).
Proof.
  cbv zeta.
  destruct (renderBox_texture_requests sampleWorld
              (boxWith (VBoolean true) (VArray [VString "a.png"; VString "b.png"]) VUndefined)
              [VString "a.png"; VString "b.png"] eq_refl eq_refl) as (_ & Hlen & Hnth).
  split; [exact Hlen |].
  apply (Hnth 7%nat). simpl. lia.
Defined.

(** A triangle and then a wireframe box in the sample scene: objects 4 and
    5, children of the scene in that order. *)
Lemma renderers_compose_witness :
  let shape := shapeWith (VNumber 5) 3 VUndefined VUndefined VUndefined in
  let box := boxWith (VBoolean false) VUndefined VUndefined in
  let w' := run [Invoke (CallRenderShape shape); Invoke (CallRenderBox box)] sampleWorld in
  heap w' !! 0%nat = Some (OScene (mkScene None None [4; 5]%nat))
  /\ heap w' !! 4%nat = Some (OObject3D (shapeElement shape))
  /\ heap w' !! 5%nat = Some (OObject3D (boxElement box)).
Proof.
  cbv zeta.
  assert (Hcs : Forall (rendersInto 0)
                  [CallRenderShape (shapeWith (VNumber 5) 3 VUndefined VUndefined VUndefined);
                   CallRenderBox (boxWith (VBoolean false) VUndefined VUndefined)])
    by (repeat constructor).
  destruct (renderers_compose sampleWorld 0 emptyScene _ eq_refl Hcs) as (Hscene & _ & Hnth).
  split; [exact Hscene | split].
  - exact (Hnth 0%nat _ eq_refl).
  - exact (Hnth 1%nat _ eq_refl).
Defined.

(** A canvas laid out with no size gives the camera the aspect NaN; one
    with a width and no height gives it +Infinity. *)
Lemma resizeChange_unguarded_division_witness :
  heap (exec (runHandler (ResizeChange 1 2 3 keep) false) hiddenWorld) !! 3%nat =
    Some (OCamera PerspectiveCamera (mkCamera (Some nan) (Some nan)))
  /\ heap (exec (runHandler (ResizeChange 1 2 3 keep) false) collapsedWorld) !! 3%nat =
       Some (OCamera PerspectiveCamera (mkCamera (Some infinity) (Some infinity))).
Proof.
  split.
  - exact (proj2 (resizeChange_unguarded_division hiddenWorld 1 2 3 keep hiddenCanvas []
                    PerspectiveCamera (mkCamera None None) eq_refl eq_refl eq_refl eq_refl)
                 eq_refl).
  - exact (proj1 (resizeChange_unguarded_division collapsedWorld 1 2 3 keep collapsedCanvas []
                    PerspectiveCamera (mkCamera None None) eq_refl eq_refl eq_refl eq_refl)
                 eq_refl).
Defined.

(** A text with a callback on the sample page, and its font loading: the
    promise (object 4) is fulfilled with the mesh (object 5), which is the
    scene's child and the registered element. *)
Lemma renderText_delivers_witness :
  let o := textWith 1 VUndefined (VFunction spin) in
  let w' := run [Invoke (CallRenderText o); LoadSucceeds 0 (LoadedFont 7%nat)] sampleWorld in
  heap w' !! 4%nat = Some (OPromise (Fulfilled 5))
  /\ heap w' !! 0%nat = Some (OScene (mkScene None None [5%nat]))
  /\ animationList w' = [mkEntry 5 spin].
Proof.
  cbv zeta.
  destruct (renderText_delivers sampleWorld (textWith 1 VUndefined (VFunction spin)) 7%nat
              0 emptyScene eq_refl eq_refl) as (_ & _ & Hp & _ & Hs & Ha & _).
  split; [exact Hp | split; [exact Hs | exact Ha]].
Defined.

(** A model whose root is scaled and moved in its file, loaded with the
    default options: the promise (object 4) is fulfilled with the asset
    (object 6), the scene gets the root (object 5), and the root is back
    at scale 1 and at the origin. *)
Lemma renderGltfModel_delivers_witness :
  let o := gltfWith (VFunction spin) in
  let w' := run [Invoke (CallRenderGltfModel o);
                 LoadSucceeds 0 (LoadedGltf authoredRoot (Some [11; 12]%nat))] sampleWorld in
  heap w' !! 4%nat = Some (OPromise (Fulfilled 6))
  /\ heap w' !! 5%nat = Some (OObject3D (mkObject3D Group (1, 1, 1) (VNumber 0, 0, 0)))
  /\ heap w' !! 0%nat = Some (OScene (mkScene None None [5%nat])).
Proof.
  cbv zeta.
  destruct (renderGltfModel_delivers sampleWorld (gltfWith (VFunction spin)) authoredRoot
              (Some [11; 12]%nat) 0 emptyScene eq_refl eq_refl)
    as (Hp & _ & Hroot & Hs & _).
  split; [exact Hp | split; [exact Hroot | exact Hs]].
Defined.

(** [flat: 1] is not [flat: true]: the text is extruded. *)
Lemma renderText_flat_is_strict_witness :
  exists e,
    heap (exec (textLoaded nearlyFlatText 4 7%nat) sampleWorld) !! 4%nat = Some (OObject3D e)
    /\ visual e =
         Mesh (TextGeometry "Hi" (mkTextParameters 7%nat 10 3 12 false 1 1 0 12))
              (MaterialArray [MeshPhongMaterial (Some true) (VNumber 0xffffff);
                              MeshPhongMaterial None (VNumber 0xffffff)]).
Proof.
  refine (proj2 (renderText_flat_is_strict sampleWorld nearlyFlatText 4 7%nat) _).
  discriminate.
Defined.

(** A shape with a colour and a texture: the material maps the texture
    and has no colour, and one load is started. *)
Lemma renderShape_texture_replaces_color_witness :
  created (renderShape texturedShape) sampleWorld =
    Some (OObject3D (mkObject3D
            (Mesh (shapeGeometry texturedShape)
               (OneMaterial (MeshBasicMaterial
                  (Some (mkTexture (VString "t.png") None (Some SRGBColorSpace)))
                  None (Some DoubleSide))))
            (1, 1, 1) (VNumber 0, 0, 0)))
  /\ requests (exec (renderShape texturedShape) sampleWorld) =
       [mkRequest TextureLoader (VString "t.png") None None false].
Proof.
  exact (proj1 (renderShape_texture_replaces_color sampleWorld texturedShape) "t.png" eq_refl).
Defined.


(** The scene of the page that holds a box and a model, after a shape, a
    resize, a scheme change, a failing load and another box: the box and
    the root of the model are still its first two children. *)
Lemma scene_children_append_only_witness :
  heap busyWorld !! 0%nat = Some (OScene (mkScene None None [4; 6]%nat))
  /\ exists s' suffix,
       heap (run [Invoke (CallRenderShape texturedShape); Resize; SchemeChange false;
                  LoadFails 1;
                  Invoke (CallRenderBox (boxWith (VBoolean true) VUndefined VUndefined))]
                 busyWorld) !! 0%nat = Some (OScene s')
       /\ children s' = [4; 6]%nat ++ suffix.
Proof.
  assert (H : heap busyWorld !! 0%nat = Some (OScene (mkScene None None [4; 6]%nat)))
    by (vm_compute; reflexivity).
  split; [exact H |].
  exact (scene_children_append_only _ busyWorld 0 (mkScene None None [4; 6]%nat) H).
Defined.

(** The box, the loaded asset, the renderer and the camera of the page
    that holds a box and a model, after a resize, a shape, an orientation
    change and a scheme change: the box has its geometry and material,
    the asset its root and its two clips, the renderer the two calls it
    had received, the camera its kind. *)
Lemma built_objects_persist_witness :
  let w' := run [Resize; Invoke (CallRenderShape texturedShape); OrientationChange;
                 SchemeChange true] busyWorld in
  (exists e', heap w' !! 4%nat = Some (OObject3D e')
              /\ visual e' = Mesh (BoxGeometry 10 10 10 1 1 1)
                                  (OneMaterial (MeshPhongMaterial None (VNumber 0xffffff))))
  /\ (exists g', heap w' !! 7%nat = Some (OGltf g')
                 /\ gltf_scene g' = 6%nat /\ gltf_animations g' = Some [11%nat; 12%nat])
  /\ (exists more, heap w' !! 2%nat
                   = Some (ORenderer ([SetPixelRatio 2; SetSize 800 600] ++ more)))
  /\ (exists c', heap w' !! 3%nat = Some (OCamera PerspectiveCamera c')).
Proof.
  cbv zeta.
  set (es := [Resize; Invoke (CallRenderShape texturedShape); OrientationChange;
              SchemeChange true]).
  split; [| split; [| split]].
  - destruct (built_objects_persist es busyWorld 4) as (H & _).
    refine (H (mkObject3D (Mesh (BoxGeometry 10 10 10 1 1 1)
                             (OneMaterial (MeshPhongMaterial None (VNumber 0xffffff))))
                 (1, 1, 1) (VNumber 0, 0, 0)) _).
    vm_compute. reflexivity.
  - destruct (built_objects_persist es busyWorld 7) as (_ & H & _).
    refine (H (mkGltf 6 (Some [11%nat; 12%nat]) (Some (mkMixer 6 [11%nat; 12%nat]))) _).
    vm_compute. reflexivity.
  - destruct (built_objects_persist es busyWorld 2) as (_ & _ & H & _).
    refine (H [SetPixelRatio 2; SetSize 800 600] _). vm_compute. reflexivity.
  - destruct (built_objects_persist es busyWorld 3) as (_ & _ & _ & H).
    refine (H PerspectiveCamera _ _). vm_compute. reflexivity.
Defined.

(** Rendering and resizing register nothing. *)
Lemma listeners_never_removed_witness :
  listeners (run [Invoke (CallRenderBox (boxWith (VBoolean true) VUndefined VUndefined));
                  Resize] sampleWorld) = listeners sampleWorld.
Proof.
  apply (proj2 (listeners_never_removed _ sampleWorld)).
  repeat constructor.
Defined.

(** One invalid call among three events: at most one message. *)
Lemma console_only_diagnostics_witness :
  exists ms,
    console (run [Invoke (CallSetBackground BackgroundOptions.defaults); Resize;
                  Invoke (CallRenderBox BoxOptions.defaults)] sampleWorld)
    = console sampleWorld ++ ms
    /\ Forall diagnostic ms /\ length ms <= 1.
Proof.
  exact (console_only_diagnostics
           [Invoke (CallSetBackground BackgroundOptions.defaults); Resize;
            Invoke (CallRenderBox BoxOptions.defaults)] sampleWorld).
Defined.

(** Dark and light given on the dark-scheme page; the scheme then turns
    light, dark and light again: the background is the light colour. *)
Lemma background_follows_scheme_witness :
  exists s',
    heap (run (Invoke (CallSetBackground allBackgrounds)
               :: [SchemeChange false; SchemeChange true; SchemeChange false]) sampleWorld)
      !! 0%nat = Some (OScene s')
    /\ background s' = Some (Color (VNumber 0xffffff)).
Proof.
  exact (proj2 (background_follows_scheme sampleWorld allBackgrounds 0 emptyScene
                  [false; true] false eq_refl eq_refl eq_refl)).
Defined.

(** An image is requested, then a plain colour is painted and the page is
    resized; the image then arrives and replaces the colour. *)
Lemma background_load_is_not_cancelled_witness :
  exists s',
    heap (run (Invoke (CallSetBackground imageBackground)
               :: [Invoke (CallSetBackground colourBackground); Resize]
               ++ [LoadSucceeds 0 (LoadedTexture (mkTexture (VString "sky.png") None None))])
            sampleWorld) !! 0%nat = Some (OScene s')
    /\ background s' =
         Some (TextureBackground
                 (mkTexture (VString "sky.png") (Some EquirectangularReflectionMapping)
                    (Some SRGBColorSpace))).
Proof.
  refine (proj1 (background_load_is_not_cancelled sampleWorld imageBackground 0 emptyScene
                   [Invoke (CallSetBackground colourBackground); Resize]
                   (mkTexture (VString "sky.png") None None) eq_refl eq_refl eq_refl _)
                eq_refl).
  repeat constructor.
Defined.

(** Three registrations on the sample page and one resize: six renderer
    calls and twenty-one effects. *)
Lemma setResponsive_adds_up_witness :
  let after := exec (step Resize)
                 (run (replicate 3 (Invoke (CallSetResponsive sampleResponsive))) sampleWorld) in
  (exists cs, heap after !! 2%nat = Some (ORenderer ([] ++ cs)) /\ length cs = 6%nat)
  /\ (exists tr, trace after = trace sampleWorld ++ tr /\ length tr = 21%nat).
Proof.
  cbv zeta.
  destruct (setResponsive_adds_up sampleWorld sampleResponsive 1 2 3 defaultResponsive
              sampleCanvas [] PerspectiveCamera (mkCamera None None) 3
              eq_refl eq_refl eq_refl eq_refl eq_refl eq_refl eq_refl eq_refl)
    as (_ & _ & _ & Hr & Ht).
  split; [exact Hr | exact Ht].
Defined.

(** A single URL given as a string instead of an array: a white box and no
    load. *)
Lemma renderBox_textures_must_be_array_witness :
  let o := boxWith (VBoolean true) (VString "a.png") VUndefined in
  created (renderBox o) sampleWorld =
    Some (OObject3D (mkObject3D
            (Mesh (BoxGeometry 10 10 10 1 1 1)
               (OneMaterial (MeshPhongMaterial None (VNumber 0xffffff))))
            (1, 1, 1) (VNumber 0, 0, 0)))
  /\ requests (exec (renderBox o) sampleWorld) = []
  /\ console (exec (renderBox o) sampleWorld) = [].
Proof.
  cbv zeta.
  refine (renderBox_textures_must_be_array sampleWorld
            (boxWith (VBoolean true) (VString "a.png") VUndefined) eq_refl _).
  intros t ts. discriminate.
Defined.

(** A model without clips, loaded with a callback: registered, no mixer. *)
Lemma renderGltfModel_without_clips_witness :
  let w' := exec (runOnLoad (GltfLoaded (gltfWith (VFunction spin)) 9)
                    (LoadedGltf authoredRoot None)) sampleWorld in
  heap w' !! 5%nat = Some (OGltf (mkGltf 4 None None))
  /\ animationList w' = [mkEntry 5 spin].
Proof.
  cbv zeta.
  exact (proj1 (renderGltfModel_without_clips sampleWorld (gltfWith (VFunction spin)) 9
                  authoredRoot spin eq_refl)).
Defined.

(** The sample canvas after a registration without a policy and a resize
    of the 800 by 600 window; the sample renderer draws into it and sizes
    it as three.js does. *)
Lemma default_policy_fills_window_witness :
  exists e',
    heap (run [Invoke (CallSetResponsive sampleResponsive); Resize] sampleWorld) !! 1%nat
      = Some (OElement e')
    /\ style_width e' = CssPx 800 /\ style_height e' = CssPx 600.
Proof.
  assert (Hflow : forall x, style_width (reflow x) = style_width x
                            /\ style_height (reflow x) = style_height x)
    by (intros [sw sh cw ch bw bh]; destruct sw, sh; split; reflexivity).
  assert (Hlayout : forall x a b, style_width x = CssPx a -> style_height x = CssPx b ->
                                  clientWidth (reflow x) = a /\ clientHeight (reflow x) = b)
    by (intros [sw sh cw ch bw bh] a b; cbn; intros -> ->; split; reflexivity).
  destruct (default_policy_fills_window sampleWorld sampleResponsive 1 2 3 sampleCanvas []
              PerspectiveCamera (mkCamera None None)
              eq_refl eq_refl eq_refl eq_refl eq_refl eq_refl eq_refl Hflow
              (fun _ => conj (fun cs r x => conj eq_refl eq_refl)
                             (conj (fun cs a b x => conj eq_refl eq_refl) Hlayout)))
    as (e' & H1 & H2 & H3 & _).
  exists e'. vm_compute in H2, H3.
  split; [exact H1 | split; [exact H2 | exact H3]].
Defined.

(** Two texts on the sample page, the second font arriving first: the
    promises are objects 4 and 5, the mesh of the second text is object 6
    and the scene's first child, the mesh of the first is object 7. *)
Lemma texts_arrive_in_load_order_witness :
  let first := textWith 1 VUndefined VUndefined in
  let second := textWith 2 (VNumber 3) VUndefined in
  let w' := run [Invoke (CallRenderText first); Invoke (CallRenderText second);
                 LoadSucceeds 1 (LoadedFont 8%nat); LoadSucceeds 0 (LoadedFont 7%nat)]
              sampleWorld in
  heap w' !! 0%nat = Some (OScene (mkScene None None [6; 7]%nat))
  /\ heap w' !! 4%nat = Some (OPromise (Fulfilled 7))
  /\ heap w' !! 5%nat = Some (OPromise (Fulfilled 6)).
Proof.
  cbv zeta.
  destruct (texts_arrive_in_load_order sampleWorld (textWith 1 VUndefined VUndefined)
              (textWith 2 (VNumber 3) VUndefined) 7%nat 8%nat 0 emptyScene
              eq_refl eq_refl eq_refl) as (Hs & _ & _ & Hp1 & Hp2).
  split; [exact Hs | split; [exact Hp1 | exact Hp2]].
Defined.

(** A text is asked for, then a box is rendered and the page is resized;
    the font then arrives: the promise (object 4) is fulfilled with a
    mesh, which is the scene's last child, after the box. *)
Lemma text_load_is_not_lost_witness :
  exists mesh s' between,
    heap (run (Invoke (CallRenderText (textWith 1 VUndefined VUndefined))
               :: [Invoke (CallRenderBox (boxWith (VBoolean true) VUndefined VUndefined));
                   Resize]
               ++ [LoadSucceeds 0 (LoadedFont 7%nat)]) sampleWorld) !! 4%nat
      = Some (OPromise (Fulfilled mesh))
    /\ heap (run (Invoke (CallRenderText (textWith 1 VUndefined VUndefined))
                  :: [Invoke (CallRenderBox (boxWith (VBoolean true) VUndefined VUndefined));
                      Resize]
                  ++ [LoadSucceeds 0 (LoadedFont 7%nat)]) sampleWorld) !! mesh
       = Some (OObject3D (textElement (textWith 1 VUndefined VUndefined) 7%nat))
    /\ heap (run (Invoke (CallRenderText (textWith 1 VUndefined VUndefined))
                  :: [Invoke (CallRenderBox (boxWith (VBoolean true) VUndefined VUndefined));
                      Resize]
                  ++ [LoadSucceeds 0 (LoadedFont 7%nat)]) sampleWorld) !! 0%nat
       = Some (OScene s')
    /\ children s' = children emptyScene ++ between ++ [mesh].
Proof.
  refine (text_load_is_not_lost sampleWorld (textWith 1 VUndefined VUndefined) 7%nat
            0 emptyScene
            [Invoke (CallRenderBox (boxWith (VBoolean true) VUndefined VUndefined)); Resize]
            eq_refl eq_refl sampleWorld_fresh _).
  repeat constructor.
Defined.

Example text_after_box :
  heap (run [Invoke (CallRenderText (textWith 1 VUndefined VUndefined));
             Invoke (CallRenderBox (boxWith (VBoolean true) VUndefined VUndefined));
             Resize; LoadSucceeds 0 (LoadedFont 7%nat)] sampleWorld) !! 0%nat
  = Some (OScene (mkScene None None [5; 6]%nat)).
Proof. vm_compute. reflexivity. Qed.
